(** * FileJet: peer-to-peer file transfer over a data channel

    A shallow embedding of [src/lib/signaling.ts] and of the session and
    transfer logic of [src/components/FileJet.tsx], with the properties of
    the signaling helpers, of the teardown routine and of the chunked
    transfer protocol.

    Conventions of the embedding:
    - byte counts, sizes and offsets are [Z];
    - a JavaScript number that results from a division is a [JSNum]: an
      exact rational, an infinity or NaN (the rounding of doubles is
      abstracted: every quotient the transfer computes is a ratio of two
      byte counts);
    - the arithmetic of [generateId] is the arithmetic of doubles: each
      product and sum is rounded to the nearest double, ties to even;
    - a text payload of the channel is represented by the value its JSON
      denotes ([Control]); a binary payload by its bytes;
    - React state setters are field updates of the component state;
    - a JavaScript exception is the [Throw] case of [Exc]. *)

From Stdlib Require Import ZArith QArith Qcanon Lia String Ascii List.
From stdpp Require Import base option list gmap strings.
Import ListNotations.

Open Scope string_scope.
Open Scope Z_scope.

(** ** JavaScript values shared by both files *)

Module JS.

(** Exceptions the modelled code can raise. *)
Inductive Error :=
| TypeError            (* property access on null *)
| InvalidStateError    (* send on a channel that is not open *)
| FirestoreError (code : string).

Inductive Exc (A : Type) :=
| Return (a : A)
| Throw (e : Error).
Arguments Return {A} a.
Arguments Throw {A} e.

Definition bind {A B} (m : Exc A) (k : A -> Exc B) : Exc B :=
  match m with
  | Return a => k a
  | Throw e => Throw e
  end.

Definition returns {A} (m : Exc A) : Prop := exists a, m = Return a.

(** Numbers as the progress arithmetic produces them. *)
Inductive JSNum :=
| Num (q : Qc)
| PosInfinity
| NegInfinity
| NaN.

Definition ofZ (z : Z) : JSNum := Num (Q2Qc (inject_Z z)).

(** [a / b] on two integers. *)
Definition div (a b : Z) : JSNum :=
  if b =? 0 then
    if a =? 0 then NaN else if 0 <? a then PosInfinity else NegInfinity
  else Num (Q2Qc (a # 1) / Q2Qc (b # 1))%Qc.

(** [x * 100]. *)
Definition times100 (x : JSNum) : JSNum :=
  match x with
  | Num q => Num (q * Q2Qc (100 # 1))%Qc
  | other => other
  end.

(** [x <= y]; every comparison with NaN is false. *)
Definition le (x y : JSNum) : Prop :=
  match x, y with
  | NaN, _ | _, NaN => False
  | NegInfinity, _ => True
  | _, PosInfinity => True
  | Num p, Num q => (p <= q)%Qc
  | _, _ => False
  end.

(** *** Doubles

    A finite double is [mantissa * 2 ^ exponent] with a mantissa below 2^53
    in magnitude and an exponent from -1074 on: a whole number of steps of
    2^-1074.  The numbers [generateId] computes are non-negative and far
    below the overflow threshold; they are kept as their count of such
    steps ([units]), so that [one] stands for the number 1. *)
Record Double := { mantissa : Z; exponent : Z }.

Definition one : Z := 2 ^ 1074.

Definition units (d : Double) : Z := mantissa d * 2 ^ (exponent d + 1074).

(** What [Math.random()] returns: a double from 0 (included) up to 1
    (excluded). *)
Definition inUnitInterval (d : Double) : Prop :=
  0 <= mantissa d < 2 ^ 53 /\ -1074 <= exponent d /\ units d < one.

(** [x / 2^s] rounded to the nearest integer, a tie to the even one. *)
Definition roundHalfEven (x s : Z) : Z :=
  let q := x / 2 ^ s in
  let r := x mod 2 ^ s in
  let half := 2 ^ (s - 1) in
  if r <? half then q
  else if half <? r then q + 1
  else if Z.even q then q else q + 1.

(** The double nearest to an exact non-negative result.  Below 2^53 steps
    every count is a double (subnormal or of the lowest exponent); above,
    53 significant bits are kept. *)
Definition round53 (x : Z) : Z :=
  if x <? 2 ^ 53 then x
  else let s := Z.log2 x - 52 in roundHalfEven x s * 2 ^ s.

(** [x * k] and [k + x] for an integer literal [k]. *)
Definition timesInteger (x k : Z) : Z := round53 (x * k).

Definition integerPlus (k x : Z) : Z := round53 (k * one + x).

(** [Math.floor] on a non-negative double. *)
Definition Math_floor (x : Z) : Z := x / one.

(** *** [Number.prototype.toString] on integers (radix 10) *)

Definition digitChar (d : Z) : ascii := ascii_of_nat (48 + Z.to_nat d).

Fixpoint digitsGo (fuel : nat) (n : Z) (acc : list ascii) : list ascii :=
  match fuel with
  | O => acc
  | S fuel' =>
      let acc' := digitChar (n mod 10) :: acc in
      if n / 10 =? 0 then acc' else digitsGo fuel' (n / 10) acc'
  end.

(** A number has no more decimal digits than binary ones. *)
Definition digitsOf (n : Z) : list ascii :=
  match n with
  | Zpos p => digitsGo (Pos.size_nat p) n []
  | _ => [digitChar 0]
  end.

Definition toString (n : Z) : string :=
  match n with
  | Zneg p => String "-" (string_of_list_ascii (digitsOf (Zpos p)))
  | _ => string_of_list_ascii (digitsOf n)
  end.

(** Reading a decimal numeral back, as [Number(s)] does on digit strings. *)
Definition isDigit (c : ascii) : bool :=
  (48 <=? nat_of_ascii c)%nat && (nat_of_ascii c <=? 57)%nat.

Definition digitVal (c : ascii) : Z := Z.of_nat (nat_of_ascii c) - 48.

Definition readDigits (v : Z) (l : list ascii) : Z :=
  fold_left (fun v c => 10 * v + digitVal c) l v.

Definition numeral (s : string) : Z := readDigits 0 (list_ascii_of_string s).

End JS.

(** ** [src/lib/signaling.ts] *)

Module Signaling.
Import JS.

(** [generateId], with the value drawn from [Math.random()] made explicit:
    the product is rounded, then the sum, then the floor is taken. *)
Definition generateId (random : Double) : string :=
  toString (Math_floor (integerPlus 100000 (timesInteger (units random) 900000))).

(** *** The rendezvous store

    One document per session id in the collection [signaling].  A field
    that was never written is [None] ([undefined] in the snapshot data). *)
Record SessionDoc := {
  offer : option string;
  answer : option string;
  senderCandidates : option (list string);
  receiverCandidates : option (list string);
  createdAt : option Z
}.

Abbreviation Store := (gmap string SessionDoc).

Inductive Role := sender | receiver.

(** What the code passes as first argument of the SDK's [doc]. *)
Inductive Value :=
| VFirestore
| VCollectionReference (path : list string)
| VDocumentReference (path : list string)
| VString (s : string).

Fixpoint joinPath (segments : list string) : string :=
  match segments with
  | [] => ""
  | [x] => x
  | x :: rest => x ++ "/" ++ joinPath rest
  end.

(** [ref.path] *)
Definition path (ref : list string) : string := joinPath ref.

(** The SDK's [doc(parent, ...segments)].  Its declared signature takes a
    [Firestore], a [CollectionReference] or a [DocumentReference] first;
    any other first argument is refused with [invalid-argument].  Only this
    check of the first argument is modelled: the validation of the path
    segments themselves is left out, so for a session id the SDK refuses
    (the empty one, or one with a slash) the functions below return where
    the code throws [invalid-argument]. *)
Definition doc (parent : Value) (segments : list string) : Exc (list string) :=
  match parent with
  | VFirestore => Return segments
  | VCollectionReference p | VDocumentReference p => Return (p ++ segments)%list
  | VString _ => Throw (FirestoreError "invalid-argument")
  end.

(** The session id a document reference of the collection points to. *)
Definition docId (ref : list string) : string := List.last ref "".

Definition setDoc (ref : list string) (d : SessionDoc) (st : Store) : Exc Store :=
  Return (<[docId ref := d]> st).

(** [updateDoc] fails on a document that does not exist. *)
Definition updateDoc (ref : list string) (f : SessionDoc -> SessionDoc)
    (st : Store) : Exc Store :=
  match st !! docId ref with
  | Some d => Return (<[docId ref := f d]> st)
  | None => Throw (FirestoreError "not-found")
  end.

(** [deleteDoc] succeeds whether or not the document exists. *)
Definition deleteDoc (ref : list string) (st : Store) : Exc Store :=
  Return (delete (docId ref) st).

(** [arrayUnion(x)]: appends [x] unless the array already holds it. *)
Definition arrayUnion (x : string) (field : option (list string)) : option (list string) :=
  match field with
  | Some l => if bool_decide (x ∈ l) then Some l else Some (l ++ [x])%list
  | None => Some [x]
  end.

Definition createSignalingSession (sessionId offerJson : string) (now : Z)
    (st : Store) : Exc Store :=
  bind (doc VFirestore ["signaling"; sessionId]) (fun docRef =>
  setDoc docRef {| offer := Some offerJson; answer := None;
                   senderCandidates := Some []; receiverCandidates := Some [];
                   createdAt := Some now |} st).

Definition respondToSignalingSession (sessionId answerJson : string)
    (st : Store) : Exc Store :=
  bind (doc VFirestore ["signaling"; sessionId]) (fun docRef =>
  updateDoc docRef (fun d =>
    {| offer := offer d; answer := Some answerJson;
       senderCandidates := senderCandidates d;
       receiverCandidates := receiverCandidates d;
       createdAt := createdAt d |}) st).

Definition addIceCandidate (sessionId candidateJson : string) (role : Role)
    (st : Store) : Exc Store :=
  bind (doc VFirestore ["signaling"; sessionId]) (fun docRef =>
  updateDoc docRef (fun d =>
    match role with
    | sender =>
        {| offer := offer d; answer := answer d;
           senderCandidates := arrayUnion candidateJson (senderCandidates d);
           receiverCandidates := receiverCandidates d;
           createdAt := createdAt d |}
    | receiver =>
        {| offer := offer d; answer := answer d;
           senderCandidates := senderCandidates d;
           receiverCandidates := arrayUnion candidateJson (receiverCandidates d);
           createdAt := createdAt d |}
    end) st).

(** [cleanupSignalingSession]: the first statement builds a reference from
    the path string alone, the second deletes the document. *)
Definition cleanupSignalingSession (sessionId : string) (st : Store) : Exc Store :=
  bind (doc VFirestore ["signaling"; sessionId]) (fun inner =>
  bind (doc (VString (path inner)) []) (fun docRef =>
  bind (doc VFirestore ["signaling"; sessionId]) (fun target =>
  deleteDoc target st))).

(** The delete the second statement performs on its own. *)
Definition deleteSessionDoc (sessionId : string) (st : Store) : Exc Store :=
  bind (doc VFirestore ["signaling"; sessionId]) (fun target =>
  deleteDoc target st).

End Signaling.

(** ** [src/components/FileJet.tsx] *)

Module FileJet.
Import JS.

Inductive ConnectionStatus := disconnected | connecting | connected.
Inductive TransferMode := idle | sending | receiving.

(** A chunk of file bytes ([Uint8Array]); a [Blob] is its content. *)
Abbreviation Chunk := (list Byte.byte).
Abbreviation Blob := (list Byte.byte).

Inductive Toast :=
| ToastConnected
| ToastDisconnected
| ToastReceived
| ToastSuccess
| ToastConnectionRequired
| ToastTransferFailed.

(** *** The browser objects the component holds references to *)

Inductive SignalingState := stable | have_local_offer | have_remote_offer | closed.

(** [pc.connectionState] as reported to [onconnectionstatechange]. *)
Inductive ConnectionState :=
| state_new | state_connecting | state_connected
| state_disconnected | state_failed | state_closed.

Inductive ReadyState := ready_connecting | ready_open | ready_closing | ready_closed.

(** An [RTCPeerConnection]: [iceCalls] lists the candidates passed to its
    [addIceCandidate], oldest first. *)
Record PeerConnection := {
  signalingState : SignalingState;
  localDescription : option string;
  remoteDescription : option string;
  iceCalls : list string
}.

Definition newPeerConnection : PeerConnection :=
  {| signalingState := stable; localDescription := None;
     remoteDescription := None; iceCalls := [] |}.

(** *** The component: React state, the two refs, the objects they point to *)

Record Page := {
  myId : string;
  recipientId : string;
  connectionStatus : ConnectionStatus;
  transferMode : TransferMode;
  progress : JSNum;
  fileName : string;
  fileSize : Z;
  receivedFile : option Blob;
  peerConnection : option nat;                (* peerConnection.current *)
  dataChannel : option nat;                   (* dataChannel.current *)
  connections : gmap nat PeerConnection;
  channels : gmap nat ReadyState;
  toasts : list Toast
}.

(** The initial render: [useState] defaults and empty refs. *)
Definition initialPage : Page :=
  {| myId := ""; recipientId := ""; connectionStatus := disconnected;
     transferMode := idle; progress := ofZ 0; fileName := ""; fileSize := 0;
     receivedFile := None; peerConnection := None; dataChannel := None;
     connections := ∅; channels := ∅; toasts := [] |}.

Definition setConnectionStatus (v : ConnectionStatus) (pg : Page) : Page :=
  {| myId := myId pg; recipientId := recipientId pg; connectionStatus := v;
     transferMode := transferMode pg; progress := progress pg;
     fileName := fileName pg; fileSize := fileSize pg;
     receivedFile := receivedFile pg; peerConnection := peerConnection pg;
     dataChannel := dataChannel pg; connections := connections pg;
     channels := channels pg; toasts := toasts pg |}.

Definition setTransferMode (v : TransferMode) (pg : Page) : Page :=
  {| myId := myId pg; recipientId := recipientId pg;
     connectionStatus := connectionStatus pg; transferMode := v;
     progress := progress pg; fileName := fileName pg; fileSize := fileSize pg;
     receivedFile := receivedFile pg; peerConnection := peerConnection pg;
     dataChannel := dataChannel pg; connections := connections pg;
     channels := channels pg; toasts := toasts pg |}.

Definition setProgress (v : JSNum) (pg : Page) : Page :=
  {| myId := myId pg; recipientId := recipientId pg;
     connectionStatus := connectionStatus pg; transferMode := transferMode pg;
     progress := v; fileName := fileName pg; fileSize := fileSize pg;
     receivedFile := receivedFile pg; peerConnection := peerConnection pg;
     dataChannel := dataChannel pg; connections := connections pg;
     channels := channels pg; toasts := toasts pg |}.

Definition setFileName (v : string) (pg : Page) : Page :=
  {| myId := myId pg; recipientId := recipientId pg;
     connectionStatus := connectionStatus pg; transferMode := transferMode pg;
     progress := progress pg; fileName := v; fileSize := fileSize pg;
     receivedFile := receivedFile pg; peerConnection := peerConnection pg;
     dataChannel := dataChannel pg; connections := connections pg;
     channels := channels pg; toasts := toasts pg |}.

Definition setFileSize (v : Z) (pg : Page) : Page :=
  {| myId := myId pg; recipientId := recipientId pg;
     connectionStatus := connectionStatus pg; transferMode := transferMode pg;
     progress := progress pg; fileName := fileName pg; fileSize := v;
     receivedFile := receivedFile pg; peerConnection := peerConnection pg;
     dataChannel := dataChannel pg; connections := connections pg;
     channels := channels pg; toasts := toasts pg |}.

Definition setReceivedFile (v : option Blob) (pg : Page) : Page :=
  {| myId := myId pg; recipientId := recipientId pg;
     connectionStatus := connectionStatus pg; transferMode := transferMode pg;
     progress := progress pg; fileName := fileName pg; fileSize := fileSize pg;
     receivedFile := v; peerConnection := peerConnection pg;
     dataChannel := dataChannel pg; connections := connections pg;
     channels := channels pg; toasts := toasts pg |}.

Definition setPeerConnectionRef (v : option nat) (pg : Page) : Page :=
  {| myId := myId pg; recipientId := recipientId pg;
     connectionStatus := connectionStatus pg; transferMode := transferMode pg;
     progress := progress pg; fileName := fileName pg; fileSize := fileSize pg;
     receivedFile := receivedFile pg; peerConnection := v;
     dataChannel := dataChannel pg; connections := connections pg;
     channels := channels pg; toasts := toasts pg |}.

Definition setDataChannelRef (v : option nat) (pg : Page) : Page :=
  {| myId := myId pg; recipientId := recipientId pg;
     connectionStatus := connectionStatus pg; transferMode := transferMode pg;
     progress := progress pg; fileName := fileName pg; fileSize := fileSize pg;
     receivedFile := receivedFile pg; peerConnection := peerConnection pg;
     dataChannel := v; connections := connections pg;
     channels := channels pg; toasts := toasts pg |}.

Definition setConnections (v : gmap nat PeerConnection) (pg : Page) : Page :=
  {| myId := myId pg; recipientId := recipientId pg;
     connectionStatus := connectionStatus pg; transferMode := transferMode pg;
     progress := progress pg; fileName := fileName pg; fileSize := fileSize pg;
     receivedFile := receivedFile pg; peerConnection := peerConnection pg;
     dataChannel := dataChannel pg; connections := v;
     channels := channels pg; toasts := toasts pg |}.

Definition setChannels (v : gmap nat ReadyState) (pg : Page) : Page :=
  {| myId := myId pg; recipientId := recipientId pg;
     connectionStatus := connectionStatus pg; transferMode := transferMode pg;
     progress := progress pg; fileName := fileName pg; fileSize := fileSize pg;
     receivedFile := receivedFile pg; peerConnection := peerConnection pg;
     dataChannel := dataChannel pg; connections := connections pg;
     channels := v; toasts := toasts pg |}.

Definition toast (t : Toast) (pg : Page) : Page :=
  {| myId := myId pg; recipientId := recipientId pg;
     connectionStatus := connectionStatus pg; transferMode := transferMode pg;
     progress := progress pg; fileName := fileName pg; fileSize := fileSize pg;
     receivedFile := receivedFile pg; peerConnection := peerConnection pg;
     dataChannel := dataChannel pg; connections := connections pg;
     channels := channels pg; toasts := (toasts pg ++ [t])%list |}.

(** Calling a method through a ref throws on [null]. *)
Definition deref {A} (ref : option A) : Exc A :=
  match ref with
  | Some a => Return a
  | None => Throw TypeError
  end.

(** [dc.close()]: closing a closed channel changes nothing. *)
Definition closeChannel (dc : nat) (pg : Page) : Page :=
  setChannels (<[dc := ready_closed]> (channels pg)) pg.

(** [pc.close()] *)
Definition closeConnection (pc : nat) (pg : Page) : Page :=
  setConnections
    (alter (fun c => {| signalingState := closed;
                        localDescription := localDescription c;
                        remoteDescription := remoteDescription c;
                        iceCalls := iceCalls c |}) pc (connections pg)) pg.

(** *** [cleanup] *)
Definition cleanup (pg : Page) : Exc Page :=
  bind (match dataChannel pg with
        | Some _ =>
            bind (deref (dataChannel pg)) (fun dc =>
            Return (setDataChannelRef None (closeChannel dc pg)))
        | None => Return pg
        end) (fun pg =>
  bind (match peerConnection pg with
        | Some _ =>
            bind (deref (peerConnection pg)) (fun pc =>
            Return (setPeerConnectionRef None (closeConnection pc pg)))
        | None => Return pg
        end) (fun pg =>
  Return (setReceivedFile None
           (setProgress (ofZ 0)
             (setTransferMode idle
               (setConnectionStatus disconnected pg)))))).

(** *** [setupPeerConnection]: the connection object and its state handler *)

Definition setupPeerConnection (pg : Page) : nat * Page :=
  let pc := fresh (dom (connections pg)) in
  (pc, setPeerConnectionRef (Some pc)
         (setConnections (<[pc := newPeerConnection]> (connections pg)) pg)).

(** [pc.onconnectionstatechange] as [setupPeerConnection] installs it. *)
Definition onconnectionstatechange (st : ConnectionState) (pg : Page) : Exc Page :=
  match st with
  | state_connected =>
      Return (toast ToastConnected (setConnectionStatus connected pg))
  | state_disconnected | state_failed =>
      bind (cleanup pg) (fun pg => Return (toast ToastDisconnected pg))
  | _ => Return pg
  end.

(** [pc.onconnectionstatechange] as [handleConnect] replaces it once the
    offer is published (the unsubscription is not part of the page). *)
Definition onconnectionstatechange_initiator (st : ConnectionState) (pg : Page) : Exc Page :=
  match st with
  | state_connected => Return (setConnectionStatus connected pg)
  | _ => Return pg
  end.

(** *** [setupDataChannelEvents]: open and close *)

Definition onopen (pg : Page) : Page := setConnectionStatus connected pg.

Definition onclose (pg : Page) : Exc Page := cleanup pg.

(** [downloadFile] hands out the received artifact, if there is one. *)
Definition downloadFile (pg : Page) : option (string * Blob) :=
  match receivedFile pg with
  | None => None
  | Some blob => Some (fileName pg, blob)
  end.

(** *** The channel's payloads

    [typeof event.data === 'string'] separates the two kinds.  A text
    payload is given by what [JSON.parse] makes of it: one of the two
    control messages, some other value, or a parse failure. *)
Inductive Control :=
| Metadata (name : string) (size : Z)
| Eof
| Other
| Unparseable.

Inductive Payload :=
| Text (c : Control)
| Binary (data : Chunk).

(** *** [setupDataChannelEvents]: the receiving side

    The three [let] variables of the closure; [shown] is the history of
    the values this handler passed to [setProgress], oldest first. *)
Record Receiver := {
  receivedChunks : list Chunk;
  bytesReceived : Z;
  expectedSize : Z;
  shown : list JSNum
}.

Definition newReceiver : Receiver :=
  {| receivedChunks := []; bytesReceived := 0; expectedSize := 0; shown := [] |}.

Definition byteLength (c : Chunk) : Z := Z.of_nat (length c).

(** [dc.onmessage] *)
Definition onmessage (data : Payload) (st : Receiver * Page) : Receiver * Page :=
  let '(rc, pg) := st in
  match data with
  | Text (Metadata name size) =>
      ({| receivedChunks := []; bytesReceived := 0; expectedSize := size;
          shown := (shown rc ++ [ofZ 0])%list |},
       setProgress (ofZ 0)
         (setTransferMode receiving (setFileSize size (setFileName name pg))))
  | Text Eof =>
      let blob := concat (receivedChunks rc) in
      ({| receivedChunks := receivedChunks rc; bytesReceived := bytesReceived rc;
          expectedSize := expectedSize rc;
          shown := (shown rc ++ [ofZ 100])%list |},
       toast ToastReceived (setProgress (ofZ 100) (setReceivedFile (Some blob) pg)))
  | Text Other => st
  | Text Unparseable => st           (* caught and logged to the console *)
  | Binary chunk =>
      let received := bytesReceived rc + byteLength chunk in
      let p := times100 (div received (expectedSize rc)) in
      ({| receivedChunks := (receivedChunks rc ++ [chunk])%list;
          bytesReceived := received; expectedSize := expectedSize rc;
          shown := (shown rc ++ [p])%list |},
       setProgress p pg)
  end.

(** Messages of an ordered, reliable channel, handled one by one. *)
Definition receiveAll (msgs : list Payload) (st : Receiver * Page) : Receiver * Page :=
  fold_left (fun st m => onmessage m st) msgs st.

(** *** [handleSendFile]: the sending side *)

(** A [File]: its name and the chunks [file.stream().getReader()] yields,
    in order; the platform chooses the chunk boundaries. *)
Record File := {
  name : string;
  stream : list Chunk
}.

Definition bytes (f : File) : Blob := concat (stream f).
Definition size (f : File) : Z := Z.of_nat (length (bytes f)).

(** What a test of [dataChannel.current] and of its [readyState] sees. *)
Inductive ChannelView := view_null | view_not_open | view_open.

Definition currentView (pg : Page) : ChannelView :=
  match dataChannel pg with
  | None => view_null
  | Some dc =>
      match channels pg !! dc with
      | Some ready_open => view_open
      | _ => view_not_open
      end
  end.

(** What one turn of the sending loop reads from its surroundings: the
    channel at the top of the loop, [dc.bufferedAmount], and the channel
    once [await reader.read()] has returned (other handlers, [cleanup]
    among them, may have run meanwhile).  The ref is emptied by [cleanup]
    only, which closes the channel first: with [view_null] the captured
    [dc] is closed as well.  The page the loop returns is the page as the
    loop's own calls leave it: what [cleanup] does to the page is not
    applied to it, so after a [view_null] reading it says nothing about
    the mode or the connection status the user sees. *)
Record Reading := {
  atCheck : ChannelView;
  buffered : Z;
  afterRead : ChannelView
}.

(** What the sending side does to the channel and the progress display. *)
Inductive Obs :=
| Checked (amount : Z)        (* [dc.bufferedAmount] compared with the threshold *)
| Installed                   (* [dc.onbufferedamountlow] set, loop left *)
| Fired                       (* the installed callback runs *)
| Sent (p : Payload)          (* [dc.send] *)
| Shown (v : JSNum).          (* [setProgress] *)

Inductive Outcome :=
| Running
| Suspended                   (* waiting for the low-water callback *)
| Done                        (* the reader reported [done] *)
| Stopped                     (* [break]: channel gone at the top of the loop *)
| Rejected (e : Error).       (* the async function threw *)

(** The closure of one [handleSendFile] call. *)
Record Sender := {
  reader : list Chunk;          (* chunks not read yet *)
  total : Z;                    (* [file.size] *)
  offset : Z;
  onbufferedamountlow : bool;   (* is the callback installed? *)
  reads : nat;                  (* turns of the loop begun so far *)
  trace : list Obs;
  outcome : Outcome
}.

Section Transfer.

(** The constant of [@/lib/webrtc-config] and the surroundings. *)
Variable BUFFER_THRESHOLD : Z.
Variable env : nat -> Reading.

Definition leave (rd : list Chunk) (h : bool) (obs : list Obs) (out : Outcome)
    (s : Sender) : Sender :=
  {| reader := rd; total := total s; offset := offset s;
     onbufferedamountlow := h; reads := S (reads s);
     trace := (trace s ++ obs)%list; outcome := out |}.

(** The [while (true)] loop of [sendNextChunk]; every turn that does not
    leave the loop consumes one chunk of the reader. *)
Fixpoint sendLoop (rd : list Chunk) (s : Sender) (pg : Page) {struct rd}
    : Sender * Page :=
  let r := env (reads s) in
  match atCheck r with
  | view_open =>
      if BUFFER_THRESHOLD <? buffered r then
        (leave rd true [Checked (buffered r); Installed] Suspended s, pg)
      else
        match rd with
        | [] =>
            match afterRead r with
            | view_open =>
                (leave [] false [Checked (buffered r); Sent (Text Eof)] Done s,
                 toast ToastSuccess pg)
            | view_not_open =>
                (leave [] false [Checked (buffered r)] Done s,
                 toast ToastSuccess pg)
            | view_null =>
                (leave [] false [Checked (buffered r)] (Rejected TypeError) s, pg)
            end
        | value :: rest =>
            match afterRead r with
            | view_open =>
                let off := offset s + byteLength value in
                let p := times100 (div off (total s)) in
                sendLoop rest
                  {| reader := rest; total := total s; offset := off;
                     onbufferedamountlow := false; reads := S (reads s);
                     trace := (trace s ++
                               [Checked (buffered r); Sent (Binary value); Shown p])%list;
                     outcome := Running |}
                  (setProgress p pg)
            | _ =>
                (leave rest false [Checked (buffered r)]
                   (Rejected InvalidStateError) s, pg)
            end
        end
  | _ => (leave rd (onbufferedamountlow s) [] Stopped s, pg)
  end.

Definition sendNextChunk (st : Sender * Page) : Sender * Page :=
  sendLoop (reader (fst st)) (fst st) (snd st).

(** The channel's [bufferedamountlow] event: the callback, if installed,
    removes itself and calls [sendNextChunk]. *)
Definition bufferedamountlow (st : Sender * Page) : Sender * Page :=
  let '(s, pg) := st in
  if onbufferedamountlow s then
    sendNextChunk
      ({| reader := reader s; total := total s; offset := offset s;
          onbufferedamountlow := false; reads := reads s;
          trace := (trace s ++ [Fired])%list; outcome := Running |}, pg)
  else st.

(** [handleSendFile] up to the first suspension of [sendNextChunk].  The
    metadata goes to a channel just seen open, so that [send] does not
    throw and the [catch] is not entered; what [sendNextChunk] throws
    rejects its own promise and is recorded in the outcome. *)
Definition handleSendFile (file : option File) (pg : Page) : option Sender * Page :=
  match file with
  | None => (None, pg)
  | Some f =>
      match currentView pg with
      | view_open =>
          let pg := setProgress (ofZ 0)
                      (setTransferMode sending
                        (setFileSize (size f) (setFileName (name f) pg))) in
          let s := {| reader := stream f; total := size f; offset := 0;
                      onbufferedamountlow := false; reads := O;
                      trace := [Shown (ofZ 0);
                                Sent (Text (Metadata (name f) (size f)))];
                      outcome := Running |} in
          let '(s, pg) := sendNextChunk (s, pg) in
          (Some s, pg)
      | _ => (None, toast ToastConnectionRequired pg)
      end
  end.

(** The transfer after [n] low-water events. *)
Fixpoint afterEvents (n : nat) (st : Sender * Page) : Sender * Page :=
  match n with
  | O => st
  | S n' => afterEvents n' (bufferedamountlow st)
  end.

Definition transfer (f : File) (pg : Page) (n : nat) : option (Sender * Page) :=
  match handleSendFile (Some f) pg with
  | (Some s, pg') => Some (afterEvents n (s, pg'))
  | (None, _) => None
  end.

(** How many of the readings [from], ..., [from + len - 1] are above the
    threshold. *)
Fixpoint exceeding (from len : nat) : nat :=
  match len with
  | O => O
  | S len' =>
      ((if (BUFFER_THRESHOLD <? buffered (env from))%Z then 1 else 0)
       + exceeding (S from) len')%nat
  end.

End Transfer.

(** The percentages [(count / total) * 100] reported while the chunks
    [rd] are counted one by one, starting from [count]. *)
Fixpoint progressValues (count total : Z) (rd : list Chunk) : list JSNum :=
  match rd with
  | [] => []
  | chunk :: rest =>
      times100 (div (count + byteLength chunk) total)
      :: progressValues (count + byteLength chunk) total rest
  end.

(** The channel is open whenever the sending loop looks at it. *)
Definition channelOpen (env : nat -> Reading) : Prop :=
  forall k, atCheck (env k) = view_open /\ afterRead (env k) = view_open.


(** Projections of a trace. *)
Fixpoint wire (tr : list Obs) : list Payload :=
  match tr with
  | [] => []
  | Sent p :: rest => p :: wire rest
  | _ :: rest => wire rest
  end.

Fixpoint displayed (tr : list Obs) : list JSNum :=
  match tr with
  | [] => []
  | Shown v :: rest => v :: displayed rest
  | _ :: rest => displayed rest
  end.

(** A trace respects backpressure when no [Sent] lies between a check
    that found the buffered amount above the threshold and the next run
    of the low-water callback. *)
Fixpoint respects (threshold : Z) (waiting : bool) (tr : list Obs) : bool :=
  match tr with
  | [] => true
  | Checked amount :: rest => respects threshold (waiting || (threshold <? amount)) rest
  | Fired :: rest => respects threshold false rest
  | Sent _ :: rest => negb waiting && respects threshold waiting rest
  | _ :: rest => respects threshold waiting rest
  end.

(** The trace so far respects backpressure, and a scan of it ends waiting
    exactly when the low-water callback is installed. *)
Definition settled (threshold : Z) (s : Sender) : Prop :=
  forall tail,
    respects threshold false (trace s ++ tail)
    = respects threshold (onbufferedamountlow s) tail.

(** Successive values never decrease. *)
Fixpoint nondecreasing (l : list JSNum) : Prop :=
  match l with
  | [] => True
  | x :: rest =>
      match rest with
      | [] => True
      | y :: _ => le x y /\ nondecreasing rest
      end
  end.

(** *** The snapshot listeners

    Each listener is an [async] callback; it is modelled run to completion
    (the calls it makes on the connection do not depend on how two
    callbacks interleave at their [await]s, only their order may). *)

Section Snapshots.

(** [JSON.parse] followed by the [RTCSessionDescription] being accepted,
    [JSON.parse] followed by [new RTCIceCandidate], and the answer
    [createAnswer] produces for an offer. *)
Variable validDescription : string -> bool.
Variable validCandidate : string -> bool.
Variable createAnswer : string -> string.

(** A string field is truthy when present and not empty. *)
Definition truthy (field : option string) : bool :=
  match field with
  | Some x => negb (String.eqb x "")
  | None => false
  end.

Definition signalingStateOf (pc : nat) (pg : Page) : SignalingState :=
  match connections pg !! pc with
  | Some c => signalingState c
  | None => closed
  end.

(** [pc.addIceCandidate(candidate)]: the call is recorded whether or not
    the browser accepts the candidate (a rejection is swallowed). *)
Definition addIceCandidate (pc : nat) (candStr : string) (pg : Page) : Page :=
  setConnections
    (alter (fun c => {| signalingState := signalingState c;
                        localDescription := localDescription c;
                        remoteDescription := remoteDescription c;
                        iceCalls := (iceCalls c ++ [candStr])%list |})
           pc (connections pg)) pg.

Definition setDescriptions (pc : nat) (st : SignalingState)
    (loc rem : option string) (pg : Page) : Page :=
  setConnections
    (alter (fun c => {| signalingState := st;
                        localDescription := loc;
                        remoteDescription := rem;
                        iceCalls := iceCalls c |})
           pc (connections pg)) pg.

(** The body of the [forEach] callback of the responder's listener:
    [peerConnection.current?.addIceCandidate]. *)
Definition feedCurrent (pg : Page) (candStr : string) : Page :=
  if validCandidate candStr then
    match peerConnection pg with
    | Some pc => addIceCandidate pc candStr pg
    | None => pg
    end
  else pg.

(** The body of the [forEach] callback of the initiator's listener. *)
Definition feed (pc : nat) (pg : Page) (candStr : string) : Page :=
  if validCandidate candStr then addIceCandidate pc candStr pg else pg.

(** The listener on the peer's own document (the responder role). *)
Definition onOwnSnapshot (id : string) (data : option Signaling.SessionDoc)
    (w : Page * Signaling.Store) : Page * Signaling.Store :=
  let '(pg, st) := w in
  match data with
  | None => w
  | Some d =>
      let offered :=
        match Signaling.offer d, peerConnection pg with
        | Some o, None =>
            if truthy (Some o) then
              let '(pc, pg) := setupPeerConnection (setConnectionStatus connecting pg) in
              if validDescription o then
                let answer := createAnswer o in
                let pg := setDescriptions pc stable (Some answer) (Some o) pg in
                let st := match Signaling.respondToSignalingSession id answer st with
                          | Return st' => st'
                          | Throw _ => st
                          end in
                inl (pg, st)
              else inr (pg, st)      (* the callback's promise rejects here *)
            else inl (pg, st)
        | _, _ => inl (pg, st)
        end in
      match offered with
      | inr w' => w'
      | inl (pg, st) =>
          match Signaling.senderCandidates d, peerConnection pg with
          | Some cands, Some _ => (fold_left feedCurrent cands pg, st)
          | _, _ => (pg, st)
          end
      end
  end.

(** The listener [handleConnect] installs on the recipient's document
    (the initiator role); [pc] is the connection [handleConnect] made. *)
Definition onRecipientSnapshot (pc : nat) (data : option Signaling.SessionDoc)
    (pg : Page) : Page :=
  match data with
  | None => pg
  | Some d =>
      let answered :=
        match Signaling.answer d with
        | Some a =>
            if truthy (Some a) then
              match signalingStateOf pc pg with
              | stable => Some pg
              | have_local_offer =>
                  if validDescription a then
                    Some (setDescriptions pc stable
                            (match connections pg !! pc with
                             | Some c => localDescription c
                             | None => None
                             end) (Some a) pg)
                  else None
              | _ => None            (* [setRemoteDescription] rejects *)
              end
            else Some pg
        | None => Some pg
        end in
      match answered with
      | None => pg
      | Some pg =>
          match Signaling.receiverCandidates d with
          | Some cands => fold_left (feed pc) cands pg
          | None => pg
          end
      end
  end.

(** The same snapshots delivered one after the other. *)
Definition deliverAll (pc : nat) (snaps : list (option Signaling.SessionDoc))
    (pg : Page) : Page :=
  fold_left (fun pg d => onRecipientSnapshot pc d pg) snaps pg.

Definition deliverAllOwn (id : string) (snaps : list (option Signaling.SessionDoc))
    (w : Page * Signaling.Store) : Page * Signaling.Store :=
  fold_left (fun w d => onOwnSnapshot id d w) snaps w.

(** The candidates a snapshot makes the initiator's listener feed. *)
Definition fedBy (data : option Signaling.SessionDoc) : list string :=
  match data with
  | Some d =>
      match Signaling.receiverCandidates d with
      | Some cands => filter (fun c => validCandidate c = true) cands
      | None => []
      end
  | None => []
  end.

Definition fedByOwn (data : option Signaling.SessionDoc) : list string :=
  match data with
  | Some d =>
      match Signaling.senderCandidates d with
      | Some cands => filter (fun c => validCandidate c = true) cands
      | None => []
      end
  | None => []
  end.

(** A snapshot whose answer, if it has one, the connection accepts. *)
Definition acceptable (data : option Signaling.SessionDoc) : Prop :=
  match data with
  | Some d =>
      match Signaling.answer d with
      | Some a => a = "" \/ validDescription a = true
      | None => True
      end
  | None => True
  end.

End Snapshots.

(** The calls to [addIceCandidate] a connection has seen. *)
Definition fedTo (pc : nat) (pg : Page) : list string :=
  match connections pg !! pc with
  | Some c => iceCalls c
  | None => []
  end.

(** How often [cand] occurs in a list of calls. *)
Definition occurrences (cand : string) (calls : list string) : nat :=
  length (filter (fun c => c = cand) calls).

(** *** Sample data

    A page whose channel 0 is open and whose connection 0 has published
    its offer; a file of three bytes in two chunks and an empty one;
    surroundings where the channel stays open and the buffer is above a
    threshold of 65536 at the second look only. *)
Definition openPage : Page :=
  {| myId := "482913"; recipientId := "100111"; connectionStatus := connected;
     transferMode := idle; progress := ofZ 0; fileName := ""; fileSize := 0;
     receivedFile := None; peerConnection := Some 0%nat; dataChannel := Some 0%nat;
     connections :=
       {[ 0%nat := {| signalingState := have_local_offer;
                      localDescription := Some "offer";
                      remoteDescription := None; iceCalls := [] |} ]};
     channels := {[ 0%nat := ready_open ]}; toasts := [] |}.

Definition sampleFile : File :=
  {| name := "notes.txt"; stream := [[Byte.x61; Byte.x62]; [Byte.x63]] |}.

Definition emptyFile : File := {| name := "empty.txt"; stream := [] |}.

Definition sampleEnv (k : nat) : Reading :=
  {| atCheck := view_open;
     buffered := if (k =? 1)%nat then 100000 else 0;
     afterRead := view_open |}.

Definition sampleSnapshot (cands : list string) : option Signaling.SessionDoc :=
  Some {| Signaling.offer := Some "offer"; Signaling.answer := Some "answer";
          Signaling.senderCandidates := Some cands;
          Signaling.receiverCandidates := Some cands;
          Signaling.createdAt := Some 0 |}.

(** *** The controls of the page

    The expressions the JSX computes from the state: what is typed into
    the recipient field, which controls are disabled, when the download
    button is there. *)

Definition setRecipientId (v : string) (pg : Page) : Page :=
  {| myId := myId pg; recipientId := v;
     connectionStatus := connectionStatus pg; transferMode := transferMode pg;
     progress := progress pg; fileName := fileName pg; fileSize := fileSize pg;
     receivedFile := receivedFile pg; peerConnection := peerConnection pg;
     dataChannel := dataChannel pg; connections := connections pg;
     channels := channels pg; toasts := toasts pg |}.

(** [value.replace(/\D/g, '').slice(0, 6)] *)
Definition sanitizeRecipientId (typed : string) : string :=
  string_of_list_ascii
    (firstn 6 (List.filter isDigit (list_ascii_of_string typed))).

(** The [onChange] of the recipient field. *)
Definition onRecipientChange (typed : string) (pg : Page) : Page :=
  setRecipientId (sanitizeRecipientId typed) pg.

Definition isStatus (a b : ConnectionStatus) : bool :=
  match a, b with
  | disconnected, disconnected | connecting, connecting | connected, connected => true
  | _, _ => false
  end.

Definition isMode (a b : TransferMode) : bool :=
  match a, b with
  | idle, idle | sending, sending | receiving, receiving => true
  | _, _ => false
  end.

(** [progress === 100] *)
Definition isHundred (p : JSNum) : bool :=
  match p with
  | Num q => if Qc_eq_dec q (Q2Qc (100 # 1)) then true else false
  | _ => false
  end.

(** [disabled] of the Connect button. *)
Definition connectDisabled (pg : Page) : bool :=
  negb (isStatus (connectionStatus pg) disconnected)
  || negb (String.length (recipientId pg) =? 6)%nat.

(** [disabled] of the file input. *)
Definition fileInputDisabled (pg : Page) : bool :=
  negb (isStatus (connectionStatus pg) connected)
  || negb (isMode (transferMode pg) idle).

(** The Download button sits in the receiving panel and needs
    [progress === 100]. *)
Definition downloadButtonShown (pg : Page) : bool :=
  isMode (transferMode pg) receiving && isHundred (progress pg).

(** *** [pc.onicecandidate] as [setupPeerConnection] installs it

    [candidate] is [None] for the end-of-candidates event; a write the
    store refuses rejects a promise nobody awaits. *)
Definition onicecandidate (hasDb : bool) (sessionId : string) (role : Signaling.Role)
    (candidate : option string) (st : Signaling.Store) : Signaling.Store :=
  match candidate with
  | Some c =>
      if hasDb then
        match Signaling.addIceCandidate sessionId c role st with
        | Return st' => st'
        | Throw _ => st
        end
      else st
  | None => st
  end.

(** [snapshot.data()] of a session's document. *)
Definition snapshotOf (sessionId : string) (st : Signaling.Store)
    : option Signaling.SessionDoc :=
  st !! sessionId.

(** *** [handleConnect]

    [hasDb] tells whether [useFirestore] gave a database; [offer] is what
    [createOffer] and [setLocalDescription] come to, serialized, or what
    they threw.  The two notices do not go through the page's toasts: they
    are returned.  On success the function subscribes
    [onRecipientSnapshot] for the connection it made and replaces the
    state handler by [onconnectionstatechange_initiator]; neither is part
    of the page. *)
Inductive ConnectNotice := NoticeInvalidId | NoticeConnectionError.

Definition handleConnect (hasDb : bool) (offer : Exc string) (now : Z)
    (w : Page * Signaling.Store) : Page * Signaling.Store * option ConnectNotice :=
  let '(pg, st) := w in
  if String.eqb (recipientId pg) ""
     || negb (String.length (recipientId pg) =? 6)%nat
     || negb hasDb
  then (pg, st, Some NoticeInvalidId)
  else
    let '(pc, pg) := setupPeerConnection (setConnectionStatus connecting pg) in
    let dc := fresh (dom (channels pg)) in
    let pg := setDataChannelRef (Some dc)
                (setChannels (<[dc := ready_connecting]> (channels pg)) pg) in
    match offer with
    | Return o =>
        let pg := setDescriptions pc have_local_offer (Some o) None pg in
        match Signaling.createSignalingSession (recipientId pg) o now st with
        | Return st' => (pg, st', None)
        | Throw _ => (setConnectionStatus disconnected pg, st, Some NoticeConnectionError)
        end
    | Throw _ => (setConnectionStatus disconnected pg, st, Some NoticeConnectionError)
    end.

(** *** Vocabulary for the store and for message sequences *)

(** The array a role's candidates are written to. *)
Definition candidatesOf (role : Signaling.Role) (d : Signaling.SessionDoc)
    : option (list string) :=
  match role with
  | Signaling.sender => Signaling.senderCandidates d
  | Signaling.receiver => Signaling.receiverCandidates d
  end.

Definition otherRole (role : Signaling.Role) : Signaling.Role :=
  match role with
  | Signaling.sender => Signaling.receiver
  | Signaling.receiver => Signaling.sender
  end.

(** The binary payloads of a sequence, in order. *)
Fixpoint binaries (msgs : list Payload) : list Chunk :=
  match msgs with
  | [] => []
  | Binary c :: rest => c :: binaries rest
  | _ :: rest => binaries rest
  end.

Definition isMetadata (m : Payload) : bool :=
  match m with
  | Text (Metadata _ _) => true
  | _ => false
  end.

(** A connection that has seen [more] calls to [addIceCandidate]. *)
Definition withCalls (c : PeerConnection) (more : list string) : PeerConnection :=
  {| signalingState := signalingState c; localDescription := localDescription c;
     remoteDescription := remoteDescription c; iceCalls := (iceCalls c ++ more)%list |}.

Definition isDone (o : Outcome) : bool :=
  match o with
  | Done => true
  | _ => false
  end.

(** The page as [handleSendFile] leaves it before the first chunk, up to
    the progress. *)
Definition sendingPage (f : File) (pg0 : Page) : Page :=
  setTransferMode sending (setFileSize (size f) (setFileName (name f) pg0)).

(** A transfer of [f], started on page [pg0], at some point of its life:
    [sent] is what went out, [rest] what did not. *)
Definition inFlight (f : File) (pg0 : Page) (st : Sender * Page) : Prop :=
  exists sent rest,
    stream f = (sent ++ rest)%list
    /\ total (fst st) = size f
    /\ offset (fst st) = byteLength (concat sent)
    /\ displayed (trace (fst st)) = ofZ 0 :: progressValues 0 (size f) sent
    /\ (wire (trace (fst st)) = Text (Metadata (name f) (size f)) :: map Binary sent
        \/ (wire (trace (fst st))
             = (Text (Metadata (name f) (size f)) :: map Binary sent ++ [Text Eof])%list
            /\ rest = []
            /\ outcome (fst st) = Done))
    /\ (onbufferedamountlow (fst st) = true ->
        reader (fst st) = rest /\ outcome (fst st) = Suspended)
    /\ snd st
       = (if isDone (outcome (fst st)) then toast ToastSuccess else fun pg => pg)
           (setProgress (List.last (progressValues 0 (size f) sent) (ofZ 0))
              (sendingPage f pg0)).

(** The surroundings are calm for [len] turns from turn [from]: the channel
    is open at each look and after each read, and the buffer is at or
    below the threshold. *)
Definition calm (threshold : Z) (env : nat -> Reading) (from len : nat) : Prop :=
  forall k, (from <= k < from + len)%nat ->
    atCheck (env k) = view_open
    /\ afterRead (env k) = view_open
    /\ buffered (env k) <= threshold.

End FileJet.

(** * Properties *)

Import JS.

(** ** Session ids *)

Section Numerals.

Lemma digitVal_digitChar d : 0 <= d <= 9 -> digitVal (digitChar d) = d.
Proof.
  intros Hd.
  assert (Hc : d = 0 \/ d = 1 \/ d = 2 \/ d = 3 \/ d = 4 \/ d = 5 \/ d = 6
               \/ d = 7 \/ d = 8 \/ d = 9) by lia.
  repeat (destruct Hc as [-> | Hc]; [reflexivity |]). subst d. reflexivity.
Qed.

Lemma isDigit_digitChar d : 0 <= d <= 9 -> isDigit (digitChar d) = true.
Proof.
  intros Hd.
  assert (Hc : d = 0 \/ d = 1 \/ d = 2 \/ d = 3 \/ d = 4 \/ d = 5 \/ d = 6
               \/ d = 7 \/ d = 8 \/ d = 9) by lia.
  repeat (destruct Hc as [-> | Hc]; [reflexivity |]). subst d. reflexivity.
Qed.

Lemma digitChar_zero d : 1 <= d <= 9 -> digitChar d <> "0"%char.
Proof.
  intros Hd Heq. apply (f_equal digitVal) in Heq.
  rewrite digitVal_digitChar in Heq by lia. vm_compute in Heq. lia.
Qed.

(** The digits of a number with exactly [k + 1] decimal digits. *)
Lemma digitsGo_digits (k : nat) :
  forall (fuel : nat) (n : Z) (acc : list ascii),
    (S k <= fuel)%nat ->
    10 ^ Z.of_nat k <= n < 10 ^ Z.of_nat (S k) ->
    exists d rest,
      1 <= d <= 9
      /\ length rest = k
      /\ forallb isDigit rest = true
      /\ digitsGo fuel n acc = (digitChar d :: rest ++ acc)%list
      /\ forall v, readDigits v (digitChar d :: rest) = v * 10 ^ Z.of_nat (S k) + n.
Proof.
  induction k as [| k IH]; intros fuel n acc Hfuel Hn.
  - destruct fuel as [| fuel]; [lia |].
    change (10 ^ Z.of_nat 0) with 1 in Hn. change (10 ^ Z.of_nat 1) with 10 in Hn.
    exists n, []. cbn [digitsGo].
    assert (Hq : n / 10 = 0) by (apply Z.div_small; lia).
    assert (Hm : n mod 10 = n) by (apply Z.mod_small; lia).
    rewrite Hq, Hm. cbn [Z.eqb app length forallb].
    repeat split; try lia.
    intros v. unfold readDigits. cbn [fold_left]. rewrite digitVal_digitChar by lia.
    change (10 ^ Z.of_nat 1) with 10. lia.
  -
    destruct fuel as [| fuel]; [lia |].
    assert (Hp : 10 ^ Z.of_nat (S k) = 10 * 10 ^ Z.of_nat k)
      by (rewrite Nat2Z.inj_succ, Z.pow_succ_r by lia; reflexivity).
    assert (Hp' : 10 ^ Z.of_nat (S (S k)) = 10 * 10 ^ Z.of_nat (S k))
      by (rewrite (Nat2Z.inj_succ (S k)), Z.pow_succ_r by lia; reflexivity).
   
    assert (Hpos : 0 < 10 ^ Z.of_nat k) by (apply Z.pow_pos_nonneg; lia).
    assert (Hdiv : 10 ^ Z.of_nat k <= n / 10 < 10 ^ Z.of_nat (S k)).
    { split.
      - apply Z.div_le_lower_bound; lia.
      - apply Z.div_lt_upper_bound; lia. }
    assert (Hmod : 0 <= n mod 10 <= 9) by (pose proof (Z.mod_pos_bound n 10); lia).
   
    cbn [digitsGo].
    destruct (n / 10 =? 0) eqn:Hz; [apply Z.eqb_eq in Hz; lia |].
    destruct (IH fuel (n / 10) (digitChar (n mod 10) :: acc)) as
      (d & rest & Hd & Hlen & Hall & Heq & Hread); [lia | exact Hdiv |].
    exists d, (rest ++ [digitChar (n mod 10)])%list.
    split; [exact Hd |]. split; [rewrite length_app; cbn [length]; lia |].
   
    split.
    { rewrite forallb_app, Hall. cbn [forallb]. rewrite isDigit_digitChar by lia. reflexivity. }
    split.
    { rewrite Heq. rewrite <- app_assoc. reflexivity. }
    intros v. unfold readDigits in *.
    rewrite app_comm_cons, fold_left_app, Hread. cbn [fold_left].
    rewrite digitVal_digitChar by lia. rewrite Hp'.
    pose proof (Z.div_mod n 10). lia.
Qed.

Lemma size_nat_bound p : Zpos p < 2 ^ Z.of_nat (Pos.size_nat p).
Proof.
  induction p as [p IH | p IH |]; cbn [Pos.size_nat];
    try (rewrite Nat2Z.inj_succ, Z.pow_succ_r by lia); lia.
Qed.

Lemma pow2_le_pow10 (k : nat) : 2 ^ Z.of_nat k <= 10 ^ Z.of_nat k.
Proof. apply Z.pow_le_mono_l. lia. Qed.

Lemma size_nat_enough (k : nat) p :
  10 ^ Z.of_nat k <= Zpos p -> (S k <= Pos.size_nat p)%nat.
Proof.
  intros Hp. pose proof (size_nat_bound p) as Hs. pose proof (pow2_le_pow10 k) as Hk.
  assert (Hlt : 2 ^ Z.of_nat k < 2 ^ Z.of_nat (Pos.size_nat p)) by lia.
  apply Z.pow_lt_mono_r_iff in Hlt; lia.
Qed.

(** [toString] on a positive integer with exactly [k + 1] digits. *)
Lemma toString_digits (k : nat) (n : Z) :
  10 ^ Z.of_nat k <= n < 10 ^ Z.of_nat (S k) ->
  exists d rest,
    1 <= d <= 9
    /\ length rest = k
    /\ forallb isDigit rest = true
    /\ toString n = String (digitChar d) (string_of_list_ascii rest)
    /\ numeral (toString n) = n.
Proof.
  intros Hn.
  assert (Hpos : 0 < 10 ^ Z.of_nat k) by (apply Z.pow_pos_nonneg; lia).
  destruct n as [| p | p]; try lia.
  destruct (digitsGo_digits k (Pos.size_nat p) (Zpos p) []) as
    (d & rest & Hd & Hlen & Hall & Heq & Hread);
    [apply size_nat_enough; lia | exact Hn |].
  exists d, rest. repeat split; try assumption; try lia.
  - unfold toString, digitsOf. rewrite Heq, app_nil_r. reflexivity.
  - unfold numeral, toString, digitsOf.
    rewrite list_ascii_of_string_of_list_ascii, Heq, app_nil_r.
    rewrite (Hread 0). lia.
Qed.

End Numerals.

Lemma roundHalfEven_floor (x s : Z) :
  x / 2 ^ s <= roundHalfEven x s <= x / 2 ^ s + 1.
Proof.
  unfold roundHalfEven.
  destruct (x mod 2 ^ s <? 2 ^ (s - 1)); [lia |].
  destruct (2 ^ (s - 1) <? x mod 2 ^ s); [lia |].
  destruct (Z.even (x / 2 ^ s)); lia.
Qed.

Lemma roundHalfEven_ge (x s g : Z) :
  0 <= s -> g * 2 ^ s <= x -> g * 2 ^ s <= roundHalfEven x s * 2 ^ s.
Proof.
  intros Hs Hg.
  assert (HB : 0 < 2 ^ s) by (apply Z.pow_pos_nonneg; lia).
  assert (Hq : g <= x / 2 ^ s) by (apply Z.div_le_lower_bound; lia).
  pose proof (roundHalfEven_floor x s) as Hr.
  apply Z.mul_le_mono_nonneg_r; lia.
Qed.

Lemma roundHalfEven_le (x s g : Z) :
  1 <= s -> 2 * x < 2 * (g * 2 ^ s) + 2 ^ s ->
  roundHalfEven x s * 2 ^ s <= g * 2 ^ s.
Proof.
  intros Hs Hx.
  assert (HB : 0 < 2 ^ s) by (apply Z.pow_pos_nonneg; lia).
  assert (Hh : 2 ^ s = 2 * 2 ^ (s - 1)).
  { replace s with (Z.succ (s - 1)) at 1 by lia. apply Z.pow_succ_r. lia. }
  pose proof (Z.div_mod x (2 ^ s) ltac:(lia)) as Hdm.
  pose proof (Z.mod_pos_bound x (2 ^ s) HB) as Hm.
  apply Z.mul_le_mono_nonneg_r; [lia |].
  unfold roundHalfEven.
  set (q := x / 2 ^ s) in *. set (r := x mod 2 ^ s) in *.
  set (B := 2 ^ s) in *. set (h := 2 ^ (s - 1)) in *.
  assert (Hq : q <= g) by nia.
  destruct (r <? h) eqn:Hlt; [exact Hq |].
  apply Z.ltb_ge in Hlt.
  assert (q < g) by nia.
  destruct (h <? r); [lia |]. destruct (Z.even q); lia.
Qed.

Lemma grid_coarser (g s t : Z) :
  0 <= s <= t -> g * 2 ^ t = (g * 2 ^ (t - s)) * 2 ^ s.
Proof.
  intros H. rewrite <- Z.mul_assoc, <- Z.pow_add_r by lia.
  f_equal. f_equal. lia.
Qed.

Lemma round53_shift (x t : Z) :
  2 ^ 53 <= x < 2 ^ (t + 53) -> 1 <= Z.log2 x - 52 <= t.
Proof.
  intros [Hlo Hhi].
  assert (0 < x) by (pose proof (Z.pow_pos_nonneg 2 53); lia).
  apply Z.log2_le_pow2 in Hlo; [| assumption].
  apply Z.log2_lt_pow2 in Hhi; [| assumption]. lia.
Qed.

(** Rounding never crosses a number of the grid it rounds to. *)
Lemma round53_ge (x g t : Z) :
  x < 2 ^ (t + 53) -> g * 2 ^ t <= x -> g * 2 ^ t <= round53 x.
Proof.
  intros Hhi Hg. unfold round53.
  destruct (x <? 2 ^ 53) eqn:Hsmall; [exact Hg |].
  apply Z.ltb_ge in Hsmall.
  pose proof (round53_shift x t (conj Hsmall Hhi)) as Hs.
  cbv zeta. rewrite (grid_coarser g (Z.log2 x - 52) t) in * by lia.
  apply roundHalfEven_ge; lia.
Qed.

Lemma round53_le (x g t : Z) :
  x < 2 ^ (t + 53) -> x <= g * 2 ^ t -> round53 x <= g * 2 ^ t.
Proof.
  intros Hhi Hg. unfold round53.
  destruct (x <? 2 ^ 53) eqn:Hsmall; [exact Hg |].
  apply Z.ltb_ge in Hsmall.
  pose proof (round53_shift x t (conj Hsmall Hhi)) as Hs.
  cbv zeta. rewrite (grid_coarser g (Z.log2 x - 52) t) in * by lia.
  assert (0 < 2 ^ (Z.log2 x - 52)) by (apply Z.pow_pos_nonneg; lia).
  apply roundHalfEven_le; lia.
Qed.

(** A result less than half a step above a number of its grid is rounded
    down to it. *)
Lemma round53_near (x g t : Z) :
  1 <= t -> 2 ^ (t + 52) <= x < 2 ^ (t + 53) ->
  2 * x < 2 * (g * 2 ^ t) + 2 ^ t ->
  round53 x <= g * 2 ^ t.
Proof.
  intros Ht [Hlo Hhi] Hnear. unfold round53.
  assert (Hlog : Z.log2 x = t + 52).
  { apply Z.log2_unique; [lia |]. replace (Z.succ (t + 52)) with (t + 53) by lia. lia. }
  assert (2 ^ 53 <= 2 ^ (t + 52)) by (apply Z.pow_le_mono_r; lia).
  destruct (x <? 2 ^ 53) eqn:Hsmall; [apply Z.ltb_lt in Hsmall; lia |].
  cbv zeta. rewrite Hlog. replace (t + 52 - 52) with t by lia.
  apply roundHalfEven_le; lia.
Qed.

(** The largest double below 1 is 1 - 2^-53. *)
Lemma random_below_one (d : Double) :
  inUnitInterval d -> 0 <= units d <= one - 2 ^ 1021.
Proof.
  intros ([Hm0 Hm1] & He & Hlt). unfold units, one in *.
  set (k := exponent d + 1074) in *. set (m := mantissa d) in *.
  assert (Hk : 0 <= k) by lia.
  assert (HB : 0 < 2 ^ k) by (apply Z.pow_pos_nonneg; lia).
  split; [nia |].
  destruct (Z_lt_le_dec k 1021) as [Hsmall | Hbig].
  - assert (2 ^ k <= 2 ^ 1020) by (apply Z.pow_le_mono_r; lia).
    assert (m * 2 ^ k <= (2 ^ 53 - 1) * 2 ^ 1020) by nia.
    assert ((2 ^ 53 - 1) * 2 ^ 1020 <= 2 ^ 1074 - 2 ^ 1021) by (vm_compute; discriminate).
    lia.
  - destruct (Z_le_gt_dec k 1074) as [Hle | Hgt].
    + assert (Hsplit : 2 ^ 1074 = 2 ^ (1074 - k) * 2 ^ k).
      { rewrite <- Z.pow_add_r by lia. f_equal. lia. }
      assert (2 ^ 1021 <= 2 ^ k) by (apply Z.pow_le_mono_r; lia).
      rewrite Hsplit in Hlt.
      assert (m < 2 ^ (1074 - k)) by nia.
      assert ((m + 1) * 2 ^ k <= 2 ^ (1074 - k) * 2 ^ k) by (apply Z.mul_le_mono_nonneg_r; lia).
      rewrite <- Hsplit in *. lia.
    + assert (2 ^ 1074 <= 2 ^ k) by (apply Z.pow_le_mono_r; lia).
      assert (Hm : m = 0) by nia. rewrite Hm.
      assert (0 < 2 ^ 1074 - 2 ^ 1021) by (vm_compute; reflexivity).
      lia.
Qed.

(** Both roundings of [generateId] stay inside the range of the ids: the
    product is at most 900000 - 2^-33, the sum at most 1000000 - 2^-33. *)
Lemma generateId_range (random : Double) :
  inUnitInterval random ->
  100000 <= Math_floor (integerPlus 100000 (timesInteger (units random) 900000)) <= 999999.
Proof.
  intros Hr. apply random_below_one in Hr.
  unfold Math_floor, integerPlus, timesInteger.
  set (R := units random) in *.
  set (P := round53 (R * 900000)).
  assert (HP : 0 <= P <= (900000 * 2 ^ 33 - 1) * 2 ^ 1041).
  { split.
    - change 0 with (0 * 2 ^ 1041). apply round53_ge.
      + unfold one in Hr. 
        assert (2 ^ 1074 * 900000 < 2 ^ (1041 + 53)) by (vm_compute; reflexivity). nia.
      + lia.
    - destruct (Z_lt_le_dec (R * 900000) (2 ^ (1041 + 52))) as [Hlow | Hhigh].
      + apply Z.le_trans with (1 * 2 ^ (1041 + 52)).
        * apply round53_le; [| lia].
          assert (2 ^ (1041 + 52) < 2 ^ (1041 + 52 + 53)) by (apply Z.pow_lt_mono_r; lia). lia.
        * vm_compute; discriminate.
      + apply round53_near; [lia | |].
        * split; [exact Hhigh |]. unfold one in Hr.
          assert (2 ^ 1074 * 900000 < 2 ^ (1041 + 53)) by (vm_compute; reflexivity). nia.
        * unfold one in Hr.
          assert (2 * ((2 ^ 1074 - 2 ^ 1021) * 900000) < 2 * ((900000 * 2 ^ 33 - 1) * 2 ^ 1041) + 2 ^ 1041)
            by (vm_compute; reflexivity).
          nia. }
  clearbody P.
  assert (HS : 100000 * one <= round53 (100000 * one + P) <= 1000000 * one - 1).
  { assert (Hu : one = 2 ^ 33 * 2 ^ 1041) by (vm_compute; reflexivity).
    assert (Hbelow : 100000 * one + P < 2 ^ (1041 + 53)).
    { assert (100000 * one + (900000 * 2 ^ 33 - 1) * 2 ^ 1041 < 2 ^ (1041 + 53))
        by (vm_compute; reflexivity). lia. }
    split.
    - replace (100000 * one) with ((100000 * 2 ^ 33) * 2 ^ 1041) at 1 by (rewrite Hu; ring).
      apply round53_ge; [exact Hbelow |]. rewrite Hu. lia.
    - apply Z.le_trans with ((1000000 * 2 ^ 33 - 1) * 2 ^ 1041).
      + apply round53_le; [exact Hbelow |]. rewrite Hu. lia.
      + vm_compute; discriminate. }
  set (S := round53 (100000 * one + P)) in *. clearbody S.
  assert (0 < one) by (vm_compute; reflexivity).
  split.
  - apply Z.div_le_lower_bound; lia.
  - assert (S / one < 1000000); [| lia].
    apply Z.div_lt_upper_bound; lia.
Qed.

(** C9: for every double of the random source in [0, 1), [generateId]
    returns six characters, all decimal digits, the first one not 0; read
    as a number the id lies between 100000 and 999999, and it is never an
    id with leading zeros such as 000111. *)
Theorem generateId_six_digits (random : Double) :
  inUnitInterval random ->
  let id := Signaling.generateId random in
  String.length id = 6%nat
  /\ forallb isDigit (list_ascii_of_string id) = true
  /\ 100000 <= numeral id <= 999999
  /\ (exists first rest, id = String first rest /\ first <> "0"%char)
  /\ id <> "000111".
Proof.
  intros Hrandom id.
  pose proof (generateId_range random Hrandom) as Hrange.
  unfold id, Signaling.generateId.
  set (n := Math_floor (integerPlus 100000 (timesInteger (units random) 900000))) in *.
  destruct (toString_digits 5 n) as (d & rest & Hd & Hlen & Hall & Heq & Hnum).
  { change (10 ^ Z.of_nat 5) with 100000. change (10 ^ Z.of_nat 6) with 1000000. lia. }
  rewrite Hnum. rewrite Heq.
  split.
  { cbn [String.length]. f_equal.
    rewrite <- Hlen. clear. induction rest as [| c rest IH]; cbn; congruence. }
  split.
  { cbn [list_ascii_of_string forallb]. rewrite list_ascii_of_string_of_list_ascii, Hall.
    rewrite isDigit_digitChar by lia. reflexivity. }
  split; [lia |].
  split.
  { exists (digitChar d), (string_of_list_ascii rest).
    split; [reflexivity | apply digitChar_zero; exact Hd]. }
  intros Hid. injection Hid as Hfirst _.
  exact (digitChar_zero d Hd Hfirst).
Qed.

Lemma generateId_six_digits_witness :
  let id := Signaling.generateId {| mantissa := 150119987579; exponent := -53 |} in
  String.length id = 6%nat
  /\ forallb isDigit (list_ascii_of_string id) = true
  /\ 100000 <= numeral id <= 999999
  /\ (exists first rest, id = String first rest /\ first <> "0"%char)
  /\ id <> "000111".
Proof.
  apply (generateId_six_digits {| mantissa := 150119987579; exponent := -53 |}).
  unfold inUnitInterval, units, one. cbn [mantissa exponent]. lia.
Defined.

Example generateId_lowest :
  Signaling.generateId {| mantissa := 0; exponent := 0 |} = "100000".
Proof. vm_compute. reflexivity. Qed.

(** The largest double below 1: the product is rounded to 900000 - 2^-33,
    and the sum 1000000 - 2^-33 is a double below 1000000. *)
Example generateId_highest :
  Signaling.generateId {| mantissa := 9007199254740991; exponent := -53 |} = "999999".
Proof. vm_compute. reflexivity. Qed.

(** A sum that is rounded up to an integer: the product is just below 15,
    and the double nearest to 100000 plus it is 100015. *)
Example generateId_rounds_sum :
  Signaling.generateId {| mantissa := 150119987579; exponent := -53 |} = "100015".
Proof. vm_compute. reflexivity. Qed.

(** ** Teardown *)

Import FileJet.

Lemma cleanup_returns (pg : Page) :
  cleanup pg =
  Return
    {| myId := myId pg; recipientId := recipientId pg;
       connectionStatus := disconnected; transferMode := idle;
       progress := ofZ 0; fileName := fileName pg; fileSize := fileSize pg;
       receivedFile := None; peerConnection := None; dataChannel := None;
       connections :=
         match peerConnection pg with
         | Some pc => connections (closeConnection pc pg)
         | None => connections pg
         end;
       channels :=
         match dataChannel pg with
         | Some dc => <[dc := ready_closed]> (channels pg)
         | None => channels pg
         end;
       toasts := toasts pg |}.
Proof.
  destruct pg as [mi ri cs tm pr fn fs rf [pc |] [dc |] conns chans ts]; reflexivity.
Qed.

(** C7: [cleanup] never throws, a second [cleanup] changes nothing, and so
    does a [cleanup] after the connection reported [failed] or
    [disconnected] (whose handler ran [cleanup] and added its notice). *)
Theorem cleanup_idempotent (pg : Page) :
  exists once,
    cleanup pg = Return once
    /\ cleanup once = Return once
    /\ onconnectionstatechange state_failed pg = Return (toast ToastDisconnected once)
    /\ onconnectionstatechange state_disconnected pg = Return (toast ToastDisconnected once)
    /\ cleanup (toast ToastDisconnected once) = Return (toast ToastDisconnected once).
Proof.
  eexists. split; [apply cleanup_returns |].
  split; [rewrite cleanup_returns; reflexivity |].
  split; [unfold onconnectionstatechange; rewrite cleanup_returns; reflexivity |].
  split; [unfold onconnectionstatechange; rewrite cleanup_returns; reflexivity |].
  rewrite cleanup_returns. reflexivity.
Qed.

(** C10: [cleanup] drops the received file and resets the progress, and the
    channel's close event runs [cleanup]: once the channel has closed there
    is nothing left to download, whatever was received before. *)
Theorem close_discards_received_file (pg : Page) :
  exists after,
    cleanup pg = Return after
    /\ onclose pg = Return after
    /\ receivedFile after = None
    /\ progress after = ofZ 0
    /\ downloadFile after = None.
Proof.
  eexists. split; [apply cleanup_returns |].
  split; [unfold onclose; apply cleanup_returns |].
  repeat split.
Qed.

(** ** The receiving side *)

Lemma setProgress_same (pg : Page) : setProgress (progress pg) pg = pg.
Proof. destruct pg; reflexivity. Qed.

Lemma setProgress_twice (p q : JSNum) (pg : Page) :
  setProgress p (setProgress q pg) = setProgress p pg.
Proof. reflexivity. Qed.

Lemma last_default {A} (x : A) (l : list A) (d d' : A) :
  List.last (x :: l) d = List.last (x :: l) d'.
Proof.
  revert x. induction l as [| y l IH]; intros x; [reflexivity |].
  change (List.last (y :: l) d = List.last (y :: l) d'). apply IH.
Qed.

Lemma receiveAll_app (a b : list Payload) (st : Receiver * Page) :
  receiveAll (a ++ b) st = receiveAll b (receiveAll a st).
Proof. unfold receiveAll. apply fold_left_app. Qed.

(** A run of binary payloads is appended chunk by chunk. *)
Lemma receiveAll_binary (rd : list Chunk) :
  forall (rc : Receiver) (pg : Page),
    receiveAll (map Binary rd) (rc, pg) =
    ({| receivedChunks := (receivedChunks rc ++ rd)%list;
        bytesReceived := bytesReceived rc + byteLength (concat rd);
        expectedSize := expectedSize rc;
        shown := (shown rc ++ progressValues (bytesReceived rc) (expectedSize rc) rd)%list |},
     setProgress
       (List.last (progressValues (bytesReceived rc) (expectedSize rc) rd) (progress pg))
       pg).
Proof.
  induction rd as [| chunk rest IH]; intros rc pg.
  - cbn. rewrite !app_nil_r, Z.add_0_r, setProgress_same. destruct rc; reflexivity.
  - change (receiveAll (map Binary (chunk :: rest)) (rc, pg))
      with (receiveAll (map Binary rest) (onmessage (Binary chunk) (rc, pg))).
    cbn [onmessage]. rewrite IH. cbn [receivedChunks bytesReceived expectedSize shown].
    f_equal.
    + f_equal.
      * rewrite <- app_assoc. reflexivity.
      * unfold byteLength. cbn [concat]. rewrite length_app. lia.
      * rewrite <- app_assoc. reflexivity.
    + cbn [progressValues progress setProgress]. rewrite setProgress_twice.
      f_equal.
      destruct (progressValues (bytesReceived rc + byteLength chunk) (expectedSize rc) rest);
        [reflexivity | cbn [List.last]; apply last_default].
Qed.

(** C6, as the code has it: a binary payload that arrives before any
    metadata message is taken like any other.  It is appended to the
    chunks, counted, and the progress becomes its length divided by the
    initial expected size 0 (Infinity, or NaN for an empty payload); nothing
    is thrown, the transfer mode is left alone, and a following [eof]
    builds the received file from it. *)
Theorem binary_before_metadata_is_accumulated (chunk : Chunk) (pg : Page) :
  let st := onmessage (Binary chunk) (newReceiver, pg) in
  receivedChunks (fst st) = [chunk]
  /\ bytesReceived (fst st) = byteLength chunk
  /\ progress (snd st) = match chunk with [] => NaN | _ => PosInfinity end
  /\ transferMode (snd st) = transferMode pg
  /\ receivedFile (snd st) = receivedFile pg
  /\ toasts (snd st) = toasts pg
  /\ receivedFile (snd (onmessage (Text Eof) st)) = Some chunk.
Proof.
  cbn. repeat split.
  - destruct chunk; reflexivity.
  - rewrite app_nil_r. reflexivity.
Qed.

(** C6 as stated fails: the stray chunk is kept and displayed, not rejected. *)
Lemma binary_before_metadata_not_rejected :
  let chunk := [Byte.x61; Byte.x62] in
  let st := onmessage (Binary chunk) (newReceiver, initialPage) in
  ~ (fst st = newReceiver /\ snd st = initialPage)
  /\ receivedChunks (fst st) = [chunk]
  /\ progress (snd st) = PosInfinity.
Proof.
  cbn. split; [| split; reflexivity].
  intros [H _]. discriminate H.
Qed.

(** ** The sending side: backpressure *)

Section Backpressure.

Variable T : Z.
Variable env : nat -> Reading.

Lemma settled_extend (s s' : Sender) (obs : list Obs) :
  settled T s ->
  trace s' = (trace s ++ obs)%list ->
  (forall tail,
      respects T (onbufferedamountlow s) (obs ++ tail)
      = respects T (onbufferedamountlow s') tail) ->
  settled T s'.
Proof.
  intros Hs Htr Hobs tail. rewrite Htr, <- app_assoc, Hs. apply Hobs.
Qed.

Lemma sendLoop_settled (rd : list Chunk) :
  forall (s : Sender) (pg : Page),
    onbufferedamountlow s = false ->
    settled T s ->
    settled T (fst (sendLoop T env rd s pg)).
Proof.
  induction rd as [| value rest IH]; intros s pg Hh Hs; cbn [sendLoop];
    destruct (atCheck (env (reads s)));
    try (eapply settled_extend; [exact Hs | reflexivity |];
         intros tail; rewrite Hh; reflexivity);
    destruct (T <? buffered (env (reads s))) eqn:Hb;
    try (eapply settled_extend; [exact Hs | reflexivity |];
         intros tail; rewrite Hh; cbn; rewrite Hb; reflexivity);
    destruct (afterRead (env (reads s)));
    try (eapply settled_extend; [exact Hs | reflexivity |];
         intros tail; rewrite Hh; cbn; rewrite Hb; reflexivity).
  apply IH; [reflexivity |].
  eapply settled_extend; [exact Hs | reflexivity |].
  intros tail. rewrite Hh. cbn. rewrite Hb. reflexivity.
Qed.

Lemma bufferedamountlow_settled (s : Sender) (pg : Page) :
  settled T s -> settled T (fst (bufferedamountlow T env (s, pg))).
Proof.
  intros Hs. unfold bufferedamountlow.
  destruct (onbufferedamountlow s) eqn:Hh; [| exact Hs].
  unfold sendNextChunk. cbn [fst snd].
  apply sendLoop_settled; [reflexivity |].
  eapply settled_extend; [exact Hs | reflexivity |].
  intros tail. rewrite Hh. reflexivity.
Qed.

Lemma afterEvents_settled (n : nat) :
  forall (s : Sender) (pg : Page),
    settled T s -> settled T (fst (afterEvents T env n (s, pg))).
Proof.
  induction n as [| n IH]; intros s pg Hs; [exact Hs |].
  cbn [afterEvents].
  pose proof (bufferedamountlow_settled s pg Hs) as Hnext.
  destruct (bufferedamountlow T env (s, pg)) as [s1 pg1]. apply IH. exact Hnext.
Qed.

(** C4: for every file, every sequence of readings and any number of
    low-water events, in what the sender has done so far no [send] lies
    between a check that found the buffered amount above the threshold
    and the next run of the low-water callback; and the callback is
    installed exactly while the sender is suspended. *)
Theorem backpressure_respected (f : File) (pg : Page) (n : nat) :
  match transfer T env f pg n with
  | Some (s, _) =>
      respects T false (trace s) = true
      /\ forall more, respects T false (trace s ++ Sent more :: nil)
                      = negb (onbufferedamountlow s)
  | None => True
  end.
Proof.
  unfold transfer, handleSendFile.
  destruct (currentView pg); try exact I.
  unfold sendNextChunk. cbn [fst snd reader].
  set (pg0 := setProgress _ _).
  set (s0 := Build_Sender _ _ _ _ _ _ _).
  assert (H0 : settled T s0) by (intros tail; reflexivity).
  pose proof (sendLoop_settled (stream f) s0 pg0 eq_refl H0) as H1.
  destruct (sendLoop T env (stream f) s0 pg0) as [s1 pg1]. cbn [fst] in H1.
  pose proof (afterEvents_settled n s1 pg1 H1) as H2.
  destruct (afterEvents T env n (s1, pg1)) as [s2 pg2]. cbn [fst] in H2.
  split.
  - rewrite <- (app_nil_r (trace s2)), H2. reflexivity.
  - intros more. rewrite H2. cbn. destruct (onbufferedamountlow s2); reflexivity.
Qed.

End Backpressure.

(** ** The sending side: a transfer over an open channel *)

Lemma wire_app (a b : list Obs) : wire (a ++ b) = (wire a ++ wire b)%list.
Proof.
  induction a as [| o a IH]; [reflexivity |].
  destruct o; cbn [wire app]; rewrite IH; reflexivity.
Qed.

Lemma displayed_app (a b : list Obs) :
  displayed (a ++ b) = (displayed a ++ displayed b)%list.
Proof.
  induction a as [| o a IH]; [reflexivity |].
  destruct o; cbn [displayed app]; rewrite IH; reflexivity.
Qed.

Section Completion.

Variable T : Z.
Variable env : nat -> Reading.
Hypothesis Hopen : channelOpen env.

Lemma afterEvents_idle (n : nat) (s : Sender) (pg : Page) :
  onbufferedamountlow s = false -> afterEvents T env n (s, pg) = (s, pg).
Proof.
  intros Hh. induction n as [| n IH]; [reflexivity |].
  cbn [afterEvents bufferedamountlow]. rewrite Hh. exact IH.
Qed.

(** Continue with an induction hypothesis at the state the loop goes on
    from. *)
Ltac resume_with IH :=
  match goal with
  | |- context [sendLoop _ _ _ ?s1 ?pg1] =>
      let s' := fresh "s'" in
      let Hrun := fresh "Hrun" in
      destruct (IH s1 pg1) as (s' & Hrun & ? & ? & ? & ? & ? & ?);
      [| exists s'; split; [rewrite Hrun |] ]
  end.

Ltac rewrite_projections :=
  match goal with
  | Hw : wire (trace _) = _, Hd : displayed (trace _) = _ |- _ =>
      cbn [offset total trace] in *; rewrite Hw, Hd, !wire_app, !displayed_app; cbn
  end.

Ltac chunk_sent :=
  first
    [ cbn [offset total progressValues progress setProgress];
      rewrite setProgress_twice; do 3 f_equal;
      match goal with
      | |- context [progressValues ?c ?t ?r] =>
          destruct (progressValues c t r);
          [reflexivity | cbn [List.last]; apply last_default]
      end
    | rewrite_projections;
      rewrite <- !app_assoc; unfold byteLength in *; rewrite length_app;
      repeat split; try assumption; lia ].

Ltac callback_ran :=
  first
    [ reflexivity
    | rewrite_projections; rewrite !app_nil_r; repeat split; assumption ].

(** With the channel open, and no more than [n] of the readings the loop
    can reach above the threshold, [n] low-water events see the rest of
    the file through: every chunk is sent in order, then [eof]. *)
Lemma sendLoop_completes (n : nat) :
  forall (rd : list Chunk) (s : Sender) (pg : Page),
    (exceeding T env (reads s) (S (n + length rd)) <= n)%nat ->
    exists s',
      afterEvents T env n (sendLoop T env rd s pg)
      = (s', toast ToastSuccess
               (setProgress
                  (List.last (progressValues (offset s) (total s) rd) (progress pg))
                  pg))
      /\ outcome s' = Done
      /\ onbufferedamountlow s' = false
      /\ total s' = total s
      /\ offset s' = offset s + byteLength (concat rd)
      /\ wire (trace s') = (wire (trace s) ++ map Binary rd ++ [Text Eof])%list
      /\ displayed (trace s')
         = (displayed (trace s) ++ progressValues (offset s) (total s) rd)%list.
Proof.
  induction n as [| n IHn].
  - induction rd as [| value rest IHrd]; intros s pg Hex;
      cbn [sendLoop]; destruct (Hopen (reads s)) as [-> ->];
      cbn [exceeding] in Hex;
      destruct (T <? buffered (env (reads s))) eqn:Hb; try lia.
    + eexists. split; [cbn [afterEvents progressValues List.last];
                       rewrite setProgress_same; reflexivity |].
      cbn [leave outcome onbufferedamountlow total offset trace concat map app].
      rewrite wire_app, displayed_app. cbn. rewrite !app_nil_r.
      change (byteLength []) with 0. repeat split; try reflexivity; lia.
    + resume_with IHrd.
      * cbn [reads length] in *.
        replace (S (0 + length rest)) with (0 + S (length rest))%nat by lia.
        exact Hex.
      * chunk_sent.
      * chunk_sent.
  - induction rd as [| value rest IHrd]; intros s pg Hex;
      cbn [sendLoop]; destruct (Hopen (reads s)) as [-> ->];
      cbn [exceeding] in Hex;
      destruct (T <? buffered (env (reads s))) eqn:Hb.
    + unfold leave. cbn [afterEvents bufferedamountlow onbufferedamountlow].
      unfold sendNextChunk.
      cbn [fst snd reader total offset reads trace onbufferedamountlow].
      resume_with (IHn (@nil Chunk)).
      * cbn [reads length] in *. replace (S (n + 0)) with (S n + 0)%nat by lia. lia.
      * callback_ran.
      * callback_ran.
    + eexists. split; [rewrite afterEvents_idle by reflexivity;
                       cbn [progressValues List.last];
                       rewrite setProgress_same; reflexivity |].
      cbn [leave outcome onbufferedamountlow total offset trace concat map app].
      rewrite wire_app, displayed_app. cbn. rewrite !app_nil_r.
      change (byteLength []) with 0. repeat split; try reflexivity; lia.
    + unfold leave. cbn [afterEvents bufferedamountlow onbufferedamountlow].
      unfold sendNextChunk.
      cbn [fst snd reader total offset reads trace onbufferedamountlow].
      resume_with (IHn (value :: rest)).
      * cbn [reads length] in *.
        replace (S (n + S (length rest))) with (S n + S (length rest))%nat by lia. lia.
      * callback_ran.
      * callback_ran.
    + resume_with IHrd.
      * cbn [reads length] in *.
        replace (S (S n + length rest)) with (S n + S (length rest))%nat by lia.
        exact Hex.
      * chunk_sent.
      * chunk_sent.
Qed.

End Completion.

(** ** The sending side: what has gone out, whatever the surroundings *)

Section WireInvariant.

Variable T : Z.
Variable env : nat -> Reading.
Variable meta : Payload.
Variable whole : list Chunk.

(** Either only chunks went out so far, a prefix of the file in order
    (and a suspended sender still holds the rest), or the whole file
    went out followed by [eof]. *)
Lemma sendLoop_wire (rd : list Chunk) :
  forall (s : Sender) (pg : Page) (sent : list Chunk),
    onbufferedamountlow s = false ->
    wire (trace s) = meta :: map Binary sent ->
    whole = (sent ++ rd)%list ->
    (exists sent',
        wire (trace (fst (sendLoop T env rd s pg))) = meta :: map Binary sent'
        /\ (onbufferedamountlow (fst (sendLoop T env rd s pg)) = true ->
            whole = (sent' ++ reader (fst (sendLoop T env rd s pg)))%list))
    \/ (wire (trace (fst (sendLoop T env rd s pg)))
         = (meta :: map Binary whole ++ [Text Eof])%list
        /\ onbufferedamountlow (fst (sendLoop T env rd s pg)) = false).
Proof.
  induction rd as [| value rest IH]; intros s pg sent Hh Hwire Hwhole;
    cbn [sendLoop];
    destruct (atCheck (env (reads s)));
    try (left; exists sent; cbn [fst leave trace onbufferedamountlow reader];
         rewrite wire_app, Hwire, app_nil_r; split; [reflexivity | congruence]);
    destruct (T <? buffered (env (reads s)));
    try (left; exists sent; cbn [fst leave trace onbufferedamountlow reader];
         rewrite wire_app, Hwire, app_nil_r; split; [reflexivity | intros _; exact Hwhole]);
    destruct (afterRead (env (reads s)));
    try (left; exists sent; cbn [fst leave trace onbufferedamountlow reader];
         rewrite wire_app, Hwire, app_nil_r; split; [reflexivity | congruence]).
  - right. cbn [fst leave trace onbufferedamountlow].
    rewrite wire_app, Hwire, Hwhole, app_nil_r. split; reflexivity.
  - apply (IH _ _ (sent ++ [value])%list); [reflexivity | |].
    + cbn [trace]. rewrite wire_app, Hwire, map_app. reflexivity.
    + rewrite <- app_assoc. exact Hwhole.
Qed.

Lemma afterEvents_wire (n : nat) :
  forall (s : Sender) (pg : Page),
    ((exists sent,
         wire (trace s) = meta :: map Binary sent
         /\ (onbufferedamountlow s = true -> whole = (sent ++ reader s)%list))
     \/ (wire (trace s) = (meta :: map Binary whole ++ [Text Eof])%list
         /\ onbufferedamountlow s = false)) ->
    (exists sent,
        wire (trace (fst (afterEvents T env n (s, pg)))) = meta :: map Binary sent
        /\ (onbufferedamountlow (fst (afterEvents T env n (s, pg))) = true ->
            whole = (sent ++ reader (fst (afterEvents T env n (s, pg))))%list))
    \/ (wire (trace (fst (afterEvents T env n (s, pg))))
         = (meta :: map Binary whole ++ [Text Eof])%list
        /\ onbufferedamountlow (fst (afterEvents T env n (s, pg))) = false).
Proof.
  induction n as [| n IH]; intros s pg Hs; [exact Hs |].
  cbn [afterEvents].
  assert (Hnext :
    (exists sent,
        wire (trace (fst (bufferedamountlow T env (s, pg)))) = meta :: map Binary sent
        /\ (onbufferedamountlow (fst (bufferedamountlow T env (s, pg))) = true ->
            whole = (sent ++ reader (fst (bufferedamountlow T env (s, pg))))%list))
    \/ (wire (trace (fst (bufferedamountlow T env (s, pg))))
         = (meta :: map Binary whole ++ [Text Eof])%list
        /\ onbufferedamountlow (fst (bufferedamountlow T env (s, pg))) = false)).
  { unfold bufferedamountlow.
    destruct (onbufferedamountlow s) eqn:Hh; [| cbn [fst]; rewrite Hh; exact Hs].
    destruct Hs as [(sent & Hwire & Hrest) | [_ Hoff]]; [| discriminate Hoff].
    unfold sendNextChunk. cbn [fst snd reader].
    apply (sendLoop_wire (reader s) _ pg sent); [reflexivity | | auto].
    cbn [trace]. rewrite wire_app, Hwire, app_nil_r. reflexivity. }
  destruct (bufferedamountlow T env (s, pg)) as [s1 pg1]. apply IH. exact Hnext.
Qed.

End WireInvariant.

Lemma eof_not_binary (sent : list Chunk) : ~ In (Text Eof) (map Binary sent).
Proof.
  induction sent as [| c sent IH]; [exact (fun H => H) |].
  intros [H | H]; [discriminate H | exact (IH H)].
Qed.

(** Whatever happens to the channel and its buffer: if the sender has sent
    [eof], then what it sent is the metadata, every chunk of the file in
    order, and [eof]. *)
Lemma eof_after_whole_file (T : Z) (env : nat -> Reading) (f : File) (pg : Page) (n : nat)
    (s : Sender) (pg' : Page) :
  transfer T env f pg n = Some (s, pg') ->
  In (Text Eof) (wire (trace s)) ->
  wire (trace s)
  = (Text (Metadata (name f) (size f)) :: map Binary (stream f) ++ [Text Eof])%list.
Proof.
  unfold transfer, handleSendFile.
  destruct (currentView pg); try discriminate.
  unfold sendNextChunk. cbn [fst snd reader].
  set (pg0 := setProgress _ _).
  set (s0 := Build_Sender _ _ _ _ _ _ _).
  pose proof (sendLoop_wire T env (Text (Metadata (name f) (size f))) (stream f)
                (stream f) s0 pg0 [] eq_refl eq_refl eq_refl) as H1.
  destruct (sendLoop T env (stream f) s0 pg0) as [s1 pg1]. cbn [fst] in H1.
  pose proof (afterEvents_wire T env _ _ n s1 pg1 H1) as H2.
  destruct (afterEvents T env n (s1, pg1)) as [s2 pg2]. cbn [fst] in H2.
  intros Hsome Heof. injection Hsome as <- <-.
  destruct H2 as [(sent & Hwire & _) | [Hwire _]]; [| exact Hwire].
  rewrite Hwire in Heof. destruct Heof as [Heof | Heof]; [discriminate Heof |].
  destruct (eof_not_binary sent Heof).
Qed.

(** ** Progress arithmetic *)

Lemma percent_le (a b t : Z) :
  0 < t -> a <= b -> le (times100 (div a t)) (times100 (div b t)).
Proof.
  intros Ht Hab. unfold div.
  destruct (t =? 0) eqn:E; [apply Z.eqb_eq in E; lia |].
  cbn [times100 le].
  apply Qcmult_le_compat_r; [| discriminate].
  unfold Qcdiv. apply Qcmult_le_compat_r.
  - unfold Qcle. cbn [this Q2Qc]. rewrite !Qred_correct. unfold Qle. cbn. lia.
  - unfold Qcle, Qcinv. cbn [this Q2Qc]. rewrite !Qred_correct.
    apply Qinv_le_0_compat. unfold Qle. cbn. lia.
Qed.

Lemma percent_zero (t : Z) : t <> 0 -> times100 (div 0 t) = ofZ 0.
Proof.
  intros Ht. unfold div. destruct (t =? 0) eqn:E; [apply Z.eqb_eq in E; lia |].
  reflexivity.
Qed.

Lemma percent_full (t : Z) : t <> 0 -> times100 (div t t) = ofZ 100.
Proof.
  intros Ht. unfold div. destruct (t =? 0) eqn:E; [apply Z.eqb_eq in E; lia |].
  cbn [times100]. unfold ofZ. f_equal.
  unfold Qcdiv. rewrite Qcmult_inv_r.
  - apply Qcmult_1_l.
  - intros H. apply (f_equal this) in H. cbn [this Q2Qc] in H.
    assert (Hq : (t # 1 == 0)%Q) by (rewrite <- (Qred_correct (t # 1)), H; reflexivity).
    unfold Qeq in Hq. cbn in Hq. lia.
Qed.

Lemma byteLength_nonneg (c : Chunk) : 0 <= byteLength c.
Proof. unfold byteLength. lia. Qed.

Lemma progressValues_nondecreasing (t : Z) (rd : list Chunk) :
  0 < t ->
  forall count,
    nondecreasing (times100 (div count t) :: progressValues count t rd).
Proof.
  intros Ht. induction rd as [| chunk rest IH]; intros count; [exact I |].
  cbn [progressValues]. split; [| apply IH].
  apply percent_le; [exact Ht | pose proof (byteLength_nonneg chunk); lia].
Qed.

Lemma progressValues_last (t : Z) (rd : list Chunk) :
  forall count d,
    List.last (times100 (div count t) :: progressValues count t rd) d
    = times100 (div (count + byteLength (concat rd)) t).
Proof.
  induction rd as [| chunk rest IH]; intros count d.
  - cbn. rewrite Z.add_0_r. reflexivity.
  - cbn [progressValues concat].
    change (List.last (times100 (div count t)
                       :: times100 (div (count + byteLength chunk) t)
                       :: progressValues (count + byteLength chunk) t rest) d)
      with (List.last (times100 (div (count + byteLength chunk) t)
                       :: progressValues (count + byteLength chunk) t rest) d).
    rewrite IH. unfold byteLength. rewrite length_app. do 2 f_equal. lia.
Qed.

Lemma nondecreasing_snoc (x : JSNum) (l : list JSNum) (y : JSNum) :
  nondecreasing (x :: l) ->
  le (List.last (x :: l) x) y ->
  nondecreasing (x :: l ++ [y]).
Proof.
  revert x. induction l as [| z l IH]; intros x Hl Hy.
  - cbn in *. split; [exact Hy | exact I].
  - destruct Hl as [Hxz Hl]. split; [exact Hxz |].
    apply IH; [exact Hl |].
    change (List.last (x :: z :: l) x) with (List.last (z :: l) x) in Hy.
    rewrite (last_default z l z x). exact Hy.
Qed.

Lemma le_refl_Num (q : Qc) : le (Num q) (Num q).
Proof. cbn. apply Qcle_refl. Qed.

Lemma le_zero_hundred : le (ofZ 0) (ofZ 100).
Proof. vm_compute. discriminate. Qed.

Lemma nonempty_chunks_size (rd : list Chunk) :
  Forall (fun c => c <> []) rd -> byteLength (concat rd) = 0 -> rd = [].
Proof.
  intros Hne Hsz. destruct rd as [| chunk rest]; [reflexivity |].
  inversion Hne as [| ? ? Hc _]; subst.
  destruct chunk as [| b chunk]; [congruence |].
  unfold byteLength in Hsz. cbn in Hsz. lia.
Qed.

(** ** One whole transfer *)

(** What the receiver makes of a metadata message, the chunks [rd] and an
    [eof], from any state it was in. *)
Lemma receive_transfer (nm : string) (sz : Z) (rd : list Chunk)
    (rc0 : Receiver) (pg0 : Page) :
  let st := receiveAll (Text (Metadata nm sz) :: map Binary rd ++ [Text Eof])%list
                       (rc0, pg0) in
  receivedChunks (fst st) = rd
  /\ bytesReceived (fst st) = byteLength (concat rd)
  /\ shown (fst st) = (shown rc0 ++ ofZ 0 :: progressValues 0 sz rd ++ [ofZ 100])%list
  /\ receivedFile (snd st) = Some (concat rd)
  /\ progress (snd st) = ofZ 100
  /\ transferMode (snd st) = receiving
  /\ fileName (snd st) = nm
  /\ fileSize (snd st) = sz.
Proof.
  cbn zeta.
  change (receiveAll (Text (Metadata nm sz) :: map Binary rd ++ [Text Eof])%list (rc0, pg0))
    with (receiveAll (map Binary rd ++ [Text Eof])%list
            (onmessage (Text (Metadata nm sz)) (rc0, pg0))).
  rewrite receiveAll_app. cbn [onmessage]. rewrite receiveAll_binary.
  cbn. rewrite <- !app_assoc. repeat split.
Qed.

Section WholeTransfer.

Variable T : Z.
Variable env : nat -> Reading.

Lemma transfer_completes (f : File) (pg : Page) (n : nat) :
  currentView pg = view_open ->
  channelOpen env ->
  (exceeding T env 0 (S (n + length (stream f))) <= n)%nat ->
  exists s pg',
    transfer T env f pg n = Some (s, pg')
    /\ outcome s = Done
    /\ wire (trace s)
       = (Text (Metadata (name f) (size f)) :: map Binary (stream f) ++ [Text Eof])%list
    /\ displayed (trace s) = ofZ 0 :: progressValues 0 (size f) (stream f)
    /\ progress pg' = List.last (ofZ 0 :: progressValues 0 (size f) (stream f)) (ofZ 0)
    /\ transferMode pg' = sending
    /\ toasts pg' = (toasts pg ++ [ToastSuccess])%list.
Proof.
  intros Hview Hopen Hex. unfold transfer, handleSendFile. rewrite Hview.
  unfold sendNextChunk. cbn [fst snd reader].
  set (pg0 := setProgress _ _).
  set (s0 := Build_Sender _ _ _ _ _ _ _).
  destruct (sendLoop_completes T env Hopen n (stream f) s0 pg0 Hex)
    as (s' & Hrun & Hout & Hh & Htot & Hoff & Hwire & Hshown).
  destruct (sendLoop T env (stream f) s0 pg0) as [s1 pg1].
  rewrite Hrun. eexists _, _. split; [reflexivity |].
  split; [exact Hout |]. split; [exact Hwire |]. split; [exact Hshown |].
  cbn [progress toast setProgress transferMode toasts offset total s0 pg0
       setTransferMode setFileSize setFileName].
  repeat split.
  destruct (progressValues 0 (size f) (stream f)); [reflexivity |].
  cbn [List.last]. apply last_default.
Qed.

(** C2: whatever the size of the file and however its stream is cut into
    chunks, a receiver that gets what the sender sent up to and including
    [eof] has accumulated exactly the chunks of the file, and the file it
    builds from them is byte for byte the original; this holds whatever
    the channel and its buffer did meanwhile.  And [eof] is sent: over a
    channel that stays open, [n] low-water events complete the transfer
    when no more than [n] looks at the buffer find it above the
    threshold. *)
Theorem chunks_round_trip (f : File) (pg : Page) (n : nat) :
  (forall (s : Sender) (pg' : Page),
      transfer T env f pg n = Some (s, pg') ->
      In (Text Eof) (wire (trace s)) ->
      forall (rc0 : Receiver) (pg0 : Page),
        let st := receiveAll (wire (trace s)) (rc0, pg0) in
        receivedChunks (fst st) = stream f
        /\ concat (receivedChunks (fst st)) = bytes f
        /\ receivedFile (snd st) = Some (bytes f)
        /\ bytesReceived (fst st) = size f)
  /\ (currentView pg = view_open ->
      channelOpen env ->
      (exceeding T env 0 (S (n + length (stream f))) <= n)%nat ->
      exists s pg',
        transfer T env f pg n = Some (s, pg')
        /\ outcome s = Done
        /\ In (Text Eof) (wire (trace s))).
Proof.
  split.
  - intros s pg' Hrun Heof rc0 pg0. cbn zeta.
    rewrite (eof_after_whole_file T env f pg n s pg' Hrun Heof).
    destruct (receive_transfer (name f) (size f) (stream f) rc0 pg0)
      as (Hchunks & Hbytes & _ & Hfile & _).
    rewrite Hchunks, Hbytes, Hfile. repeat split.
  - intros Hview Hopen Hex.
    destruct (transfer_completes f pg n Hview Hopen Hex)
      as (s & pg' & Hrun & Hout & Hwire & _).
    exists s, pg'. split; [exact Hrun |]. split; [exact Hout |].
    rewrite Hwire. right. apply in_or_app. right. left. reflexivity.
Qed.

(** C3, as far as the code goes: over a finished transfer the progress
    shown never decreases on either side; the receiver shows exactly 100
    when it handles [eof]; the sender, which only ever shows
    [offset / size * 100], ends on 100 for a file that has bytes and is
    left on the initial 0 for an empty one. *)
Theorem progress_over_transfer (f : File) (pg : Page) (n : nat) :
  currentView pg = view_open ->
  channelOpen env ->
  (exceeding T env 0 (S (n + length (stream f))) <= n)%nat ->
  Forall (fun c => c <> []) (stream f) ->
  exists s pg',
    transfer T env f pg n = Some (s, pg')
    /\ nondecreasing (displayed (trace s))
    /\ progress pg' = (if size f =? 0 then ofZ 0 else ofZ 100)
    /\ forall (rc0 : Receiver) (pg0 : Page),
         let st := receiveAll (wire (trace s)) (rc0, pg0) in
         exists history,
           shown (fst st) = (shown rc0 ++ history)%list
           /\ nondecreasing history
           /\ List.last history NaN = ofZ 100
           /\ progress (snd st) = ofZ 100.
Proof.
  intros Hview Hopen Hex Hne.
  destruct (transfer_completes f pg n Hview Hopen Hex)
    as (s & pg' & Hrun & Hout & Hwire & Hshown & Hprog & _).
  exists s, pg'. split; [exact Hrun |].
  assert (Hsize : 0 <= size f) by (unfold size; lia).
  destruct (size f =? 0) eqn:Hz.
  - apply Z.eqb_eq in Hz.
    assert (Hrd : stream f = []) by (apply nonempty_chunks_size; assumption).
    rewrite Hshown, Hprog, Hwire, Hrd.
    split; [exact I |]. split; [reflexivity |].
    intros rc0 pg0. cbn zeta.
    destruct (receive_transfer (name f) (size f) [] rc0 pg0)
      as (_ & _ & Hhist & _ & Hp & _).
    eexists. split; [exact Hhist |]. split; [| split; [reflexivity | exact Hp]].
    split; [apply le_zero_hundred | exact I].
  - apply Z.eqb_neq in Hz.
    assert (Hfull : List.last (ofZ 0 :: progressValues 0 (size f) (stream f)) (ofZ 0)
                    = ofZ 100).
    { rewrite <- (percent_zero (size f)) at 1 by exact Hz.
      rewrite progressValues_last. change (0 + byteLength (concat (stream f))) with (size f).
      apply percent_full. exact Hz. }
    assert (Hmono : nondecreasing (ofZ 0 :: progressValues 0 (size f) (stream f))).
    { rewrite <- (percent_zero (size f)) by exact Hz.
      apply progressValues_nondecreasing. lia. }
    rewrite Hshown, Hprog, Hwire.
    split; [exact Hmono |]. split; [exact Hfull |].
    intros rc0 pg0. cbn zeta.
    destruct (receive_transfer (name f) (size f) (stream f) rc0 pg0)
      as (_ & _ & Hhist & _ & Hp & _).
    eexists. split; [exact Hhist |]. split; [| split; [| exact Hp]].
    + apply nondecreasing_snoc; [exact Hmono |].
      rewrite Hfull. apply le_refl_Num.
    + rewrite app_comm_cons, last_last. reflexivity.
Qed.

(** C5, as the code has it: an empty file goes out as one metadata
    message and one [eof] with no chunk between them, no quotient is
    ever computed, the receiver ends on 100 with an empty file, and the
    sender's progress stays at the 0 it was reset to. *)
Theorem empty_file_transfer (nm : string) (pg : Page) (n : nat) :
  currentView pg = view_open ->
  channelOpen env ->
  (exceeding T env 0 (S n) <= n)%nat ->
  exists s pg',
    transfer T env {| name := nm; stream := [] |} pg n = Some (s, pg')
    /\ wire (trace s) = [Text (Metadata nm 0); Text Eof]
    /\ displayed (trace s) = [ofZ 0]
    /\ progress pg' = ofZ 0
    /\ progress pg' <> ofZ 100
    /\ forall (rc0 : Receiver) (pg0 : Page),
         let st := receiveAll (wire (trace s)) (rc0, pg0) in
         shown (fst st) = (shown rc0 ++ [ofZ 0; ofZ 100])%list
         /\ receivedFile (snd st) = Some []
         /\ progress (snd st) = ofZ 100.
Proof.
  intros Hview Hopen Hex.
  destruct (transfer_completes {| name := nm; stream := [] |} pg n Hview Hopen)
    as (s & pg' & Hrun & Hout & Hwire & Hshown & Hprog & _).
  { cbn [stream length]. rewrite Nat.add_0_r. exact Hex. }
  exists s, pg'. split; [exact Hrun |].
  split; [exact Hwire |]. split; [exact Hshown |]. split; [exact Hprog |].
  split; [rewrite Hprog; discriminate |].
  intros rc0 pg0. cbn zeta. rewrite Hwire.
  destruct (receive_transfer nm 0 [] rc0 pg0) as (_ & _ & Hhist & Hfile & Hp & _).
  repeat split; assumption.
Qed.

End WholeTransfer.

Lemma chunks_round_trip_witness :
  exists s pg',
    transfer 65536 sampleEnv sampleFile openPage 1 = Some (s, pg')
    /\ outcome s = Done
    /\ receivedFile (snd (receiveAll (wire (trace s)) (newReceiver, initialPage)))
       = Some (bytes sampleFile).
Proof.
  destruct (chunks_round_trip 65536 sampleEnv sampleFile openPage 1) as [Hsafe Hlive].
  destruct Hlive as (s & pg' & Hrun & Hout & Heof).
  - reflexivity.
  - intros k. split; reflexivity.
  - vm_compute. lia.
  - exists s, pg'. split; [exact Hrun |]. split; [exact Hout |].
    apply (Hsafe s pg' Hrun Heof newReceiver initialPage).
Defined.

Lemma progress_over_transfer_witness :
  exists s pg',
    transfer 65536 sampleEnv emptyFile openPage 0 = Some (s, pg')
    /\ nondecreasing (displayed (trace s))
    /\ progress pg' = (if size emptyFile =? 0 then ofZ 0 else ofZ 100)
    /\ forall (rc0 : Receiver) (pg0 : Page),
         let st := receiveAll (wire (trace s)) (rc0, pg0) in
         exists history,
           shown (fst st) = (shown rc0 ++ history)%list
           /\ nondecreasing history
           /\ List.last history NaN = ofZ 100
           /\ progress (snd st) = ofZ 100.
Proof.
  apply (progress_over_transfer 65536 sampleEnv emptyFile openPage 0).
  - reflexivity.
  - intros k. split; reflexivity.
  - vm_compute. lia.
  - constructor.
Defined.

Lemma empty_file_transfer_witness :
  exists s pg',
    transfer 65536 sampleEnv {| name := "empty.txt"; stream := [] |} openPage 0
    = Some (s, pg')
    /\ wire (trace s) = [Text (Metadata "empty.txt" 0); Text Eof]
    /\ displayed (trace s) = [ofZ 0]
    /\ progress pg' = ofZ 0
    /\ progress pg' <> ofZ 100
    /\ forall (rc0 : Receiver) (pg0 : Page),
         let st := receiveAll (wire (trace s)) (rc0, pg0) in
         shown (fst st) = (shown rc0 ++ [ofZ 0; ofZ 100])%list
         /\ receivedFile (snd st) = Some []
         /\ progress (snd st) = ofZ 100.
Proof.
  apply (empty_file_transfer 65536 sampleEnv "empty.txt" openPage 0).
  - reflexivity.
  - intros k. split; reflexivity.
  - vm_compute. lia.
Defined.

(** The sample file over the sample surroundings: the second look at the
    buffer suspends the sender until the callback runs. *)
Example sample_transfer_suspended :
  option_map (fun st => (trace (fst st), outcome (fst st)))
             (transfer 65536 sampleEnv sampleFile openPage 0)
  = Some ([Shown (ofZ 0); Sent (Text (Metadata "notes.txt" 3));
           Checked 0; Sent (Binary [Byte.x61; Byte.x62]);
           Shown (times100 (div 2 3));
           Checked 100000; Installed], Suspended).
Proof. vm_compute. reflexivity. Qed.

Example sample_transfer_resumed :
  option_map (fun st => (wire (trace (fst st)), outcome (fst st), progress (snd st)))
             (transfer 65536 sampleEnv sampleFile openPage 1)
  = Some ([Text (Metadata "notes.txt" 3); Binary [Byte.x61; Byte.x62];
           Binary [Byte.x63]; Text Eof], Done, ofZ 100).
Proof. vm_compute. reflexivity. Qed.

(** The sender after an empty file: done, [eof] sent, progress still 0. *)
Example empty_file_sender_progress :
  option_map (fun st => (wire (trace (fst st)), outcome (fst st), progress (snd st),
                         transferMode (snd st), toasts (snd st)))
             (transfer 65536 sampleEnv emptyFile openPage 0)
  = Some ([Text (Metadata "empty.txt" 0); Text Eof], Done, ofZ 0, sending, [ToastSuccess]).
Proof. vm_compute. reflexivity. Qed.

(** ** Candidates and snapshots *)

Section Candidates.

Variable validDescription : string -> bool.
Variable validCandidate : string -> bool.
Variable createAnswer : string -> string.

Lemma lookup_addIceCandidate (pc : nat) (x : string) (pg : Page) (c : PeerConnection) :
  connections pg !! pc = Some c ->
  connections (addIceCandidate pc x pg) !! pc
  = Some {| signalingState := signalingState c;
            localDescription := localDescription c;
            remoteDescription := remoteDescription c;
            iceCalls := (iceCalls c ++ [x])%list |}.
Proof.
  intros Hc. unfold addIceCandidate. cbn [connections setConnections].
  rewrite lookup_alter_eq, Hc. reflexivity.
Qed.

(** The initiator's [forEach]: every candidate that parses is passed on,
    in order. *)
Lemma feed_all (pc : nat) (cands : list string) :
  forall (pg : Page) (c : PeerConnection),
    connections pg !! pc = Some c ->
    exists c',
      connections (fold_left (feed validCandidate pc) cands pg) !! pc = Some c'
      /\ signalingState c' = signalingState c
      /\ iceCalls c'
         = (iceCalls c ++ filter (fun x => validCandidate x = true) cands)%list.
Proof.
  induction cands as [| x cands IH]; intros pg c Hc.
  - exists c. cbn. rewrite app_nil_r. auto.
  - cbn [fold_left]. unfold feed at 2.
    destruct (validCandidate x) eqn:Hx.
    + destruct (IH _ _ (lookup_addIceCandidate pc x pg c Hc)) as (c' & Hc' & Hst & Hice).
      exists c'. split; [exact Hc' |]. split; [exact Hst |].
      rewrite Hice. cbn [iceCalls]. rewrite filter_cons_True by exact Hx.
      rewrite <- app_assoc. reflexivity.
    + destruct (IH pg c Hc) as (c' & Hc' & Hst & Hice).
      exists c'. split; [exact Hc' |]. split; [exact Hst |].
      rewrite Hice, filter_cons_False by congruence. reflexivity.
Qed.

(** The responder's [forEach], through [peerConnection.current]. *)
Lemma feedCurrent_all (pc : nat) (cands : list string) :
  forall (pg : Page) (c : PeerConnection),
    peerConnection pg = Some pc ->
    connections pg !! pc = Some c ->
    exists c',
      peerConnection (fold_left (feedCurrent validCandidate) cands pg) = Some pc
      /\ connections (fold_left (feedCurrent validCandidate) cands pg) !! pc = Some c'
      /\ iceCalls c'
         = (iceCalls c ++ filter (fun x => validCandidate x = true) cands)%list.
Proof.
  induction cands as [| x cands IH]; intros pg c Hpc Hc.
  - exists c. cbn. rewrite app_nil_r. auto.
  - cbn [fold_left]. unfold feedCurrent at 2 4. rewrite Hpc.
    destruct (validCandidate x) eqn:Hx.
    + destruct (IH (addIceCandidate pc x pg) _ Hpc (lookup_addIceCandidate pc x pg c Hc))
        as (c' & Hpc' & Hc' & Hice).
      exists c'. split; [exact Hpc' |]. split; [exact Hc' |].
      rewrite Hice. cbn [iceCalls]. rewrite filter_cons_True by exact Hx.
      rewrite <- app_assoc. reflexivity.
    + destruct (IH pg c Hpc Hc) as (c' & Hpc' & Hc' & Hice).
      exists c'. split; [exact Hpc' |]. split; [exact Hc' |].
      rewrite Hice, filter_cons_False by congruence. reflexivity.
Qed.

(** One delivery to the initiator's listener. *)
Lemma onRecipientSnapshot_feeds (pc : nat) (data : option Signaling.SessionDoc)
    (pg : Page) (c : PeerConnection) :
  connections pg !! pc = Some c ->
  signalingState c = stable
  \/ (signalingState c = have_local_offer /\ acceptable validDescription data) ->
  exists c',
    connections (onRecipientSnapshot validDescription validCandidate pc data pg) !! pc
    = Some c'
    /\ iceCalls c' = (iceCalls c ++ fedBy validCandidate data)%list
    /\ (signalingState c' = stable \/ signalingState c' = signalingState c).
Proof.
  intros Hc Hst.
  assert (Hsame :
    forall pg1 c1 d,
      connections pg1 !! pc = Some c1 ->
      iceCalls c1 = iceCalls c ->
      signalingState c1 = stable \/ signalingState c1 = signalingState c ->
      exists c',
        connections
          (match Signaling.receiverCandidates d with
           | Some cands => fold_left (feed validCandidate pc) cands pg1
           | None => pg1
           end) !! pc = Some c'
        /\ iceCalls c' = (iceCalls c ++ fedBy validCandidate (Some d))%list
        /\ (signalingState c' = stable \/ signalingState c' = signalingState c)).
  { intros pg1 c1 d Hc1 Hice Hkeep. cbn [fedBy].
    destruct (Signaling.receiverCandidates d) as [cands |].
    - destruct (feed_all pc cands pg1 c1 Hc1) as (c' & Hc' & Hs' & Hi').
      exists c'. split; [exact Hc' |]. split; [rewrite Hi', Hice; reflexivity |].
      rewrite Hs'. exact Hkeep.
    - exists c1. rewrite app_nil_r. auto. }
  destruct data as [d |].
  - unfold onRecipientSnapshot.
    destruct (Signaling.answer d) as [a |] eqn:Ha;
      [destruct (truthy (Some a)) eqn:Htr |];
      try (apply (Hsame pg c d Hc eq_refl); right; reflexivity).
    unfold signalingStateOf. rewrite Hc.
    destruct Hst as [Hs | [Hs Hacc]].
    + destruct (Hsame pg c d Hc eq_refl (or_intror eq_refl)) as (c' & Hc' & Hice & Hkeep).
      rewrite Hs in *. exists c'. auto.
    + cbn [acceptable] in Hacc. rewrite Ha in Hacc.
      destruct Hacc as [-> | Hv]; [cbn in Htr; discriminate |].
      destruct (Hsame
                  (setDescriptions pc stable (localDescription c) (Some a) pg)
                  {| signalingState := stable; localDescription := localDescription c;
                     remoteDescription := Some a; iceCalls := iceCalls c |} d)
        as (c' & Hc' & Hice & Hkeep).
      * unfold setDescriptions. cbn [connections setConnections].
        rewrite lookup_alter_eq, Hc. reflexivity.
      * reflexivity.
      * left. reflexivity.
      * rewrite Hs in *. rewrite Hv. exists c'. auto.
  - exists c. cbn. rewrite app_nil_r. auto.
Qed.

Lemma deliverAll_feeds (pc : nat) (snaps : list (option Signaling.SessionDoc)) :
  forall (pg : Page) (c : PeerConnection),
    connections pg !! pc = Some c ->
    signalingState c = stable
    \/ (signalingState c = have_local_offer
        /\ Forall (acceptable validDescription) snaps) ->
    fedTo pc (deliverAll validDescription validCandidate pc snaps pg)
    = (iceCalls c ++ flat_map (fedBy validCandidate) snaps)%list.
Proof.
  induction snaps as [| d snaps IH]; intros pg c Hc Hst.
  - cbn. unfold fedTo. rewrite Hc, app_nil_r. reflexivity.
  - unfold deliverAll. cbn [fold_left flat_map].
    destruct (onRecipientSnapshot_feeds pc d pg c Hc) as (c' & Hc' & Hice & Hkeep).
    { destruct Hst as [Hs | [Hs Hall]]; [left; exact Hs |].
      right. split; [exact Hs |]. inversion Hall; assumption. }
    fold (deliverAll validDescription validCandidate pc snaps
            (onRecipientSnapshot validDescription validCandidate pc d pg)).
    rewrite (IH _ c' Hc'), Hice, <- app_assoc; [reflexivity |].
    destruct Hkeep as [Hs' | Hs']; [left; exact Hs' |].
    rewrite Hs'. destruct Hst as [Hs | [Hs Hall]]; [left; exact Hs |].
    right. split; [exact Hs |]. inversion Hall; assumption.
Qed.

(** One delivery to the responder's listener, once it has a connection. *)
Lemma onOwnSnapshot_feeds (id : string) (data : option Signaling.SessionDoc)
    (pg : Page) (st : Signaling.Store) (pc : nat) (c : PeerConnection) :
  peerConnection pg = Some pc ->
  connections pg !! pc = Some c ->
  exists c',
    peerConnection (fst (onOwnSnapshot validDescription validCandidate createAnswer
                           id data (pg, st))) = Some pc
    /\ connections (fst (onOwnSnapshot validDescription validCandidate createAnswer
                           id data (pg, st))) !! pc = Some c'
    /\ snd (onOwnSnapshot validDescription validCandidate createAnswer id data (pg, st))
       = st
    /\ iceCalls c' = (iceCalls c ++ fedByOwn validCandidate data)%list.
Proof.
  intros Hpc Hc. unfold onOwnSnapshot.
  destruct data as [d |].
  - rewrite Hpc. cbn [fedByOwn].
    assert (Hoffer :
      match Signaling.offer d, Some pc with
      | Some o, None =>
          if truthy (Some o)
          then
            let '(pc0, pg0) := setupPeerConnection (setConnectionStatus connecting pg) in
            if validDescription o
            then
              let answer := createAnswer o in
              let pg1 := setDescriptions pc0 stable (Some answer) (Some o) pg0 in
              let st0 := match Signaling.respondToSignalingSession id answer st with
                         | Return st' => st'
                         | Throw _ => st
                         end in
              inl (pg1, st0)
            else @inr (Page * Signaling.Store) (Page * Signaling.Store) (pg0, st)
          else inl (pg, st)
      | _, _ => inl (pg, st)
      end = inl (pg, st)) by (destruct (Signaling.offer d); reflexivity).
    rewrite Hoffer. rewrite Hpc.
    destruct (Signaling.senderCandidates d) as [cands |].
    + cbn [fst snd].
      destruct (feedCurrent_all pc cands pg c Hpc Hc) as (c' & Hpc' & Hc' & Hice).
      exists c'. auto.
    + exists c. cbn [fst snd]. rewrite app_nil_r. auto.
  - exists c. cbn. rewrite app_nil_r. auto.
Qed.

Lemma deliverAllOwn_feeds (id : string) (pc : nat)
    (snaps : list (option Signaling.SessionDoc)) :
  forall (pg : Page) (st : Signaling.Store) (c : PeerConnection),
    peerConnection pg = Some pc ->
    connections pg !! pc = Some c ->
    fedTo pc (fst (deliverAllOwn validDescription validCandidate createAnswer
                     id snaps (pg, st)))
    = (iceCalls c ++ flat_map (fedByOwn validCandidate) snaps)%list.
Proof.
  induction snaps as [| d snaps IH]; intros pg st c Hpc Hc.
  - cbn. unfold fedTo. rewrite Hc, app_nil_r. reflexivity.
  - unfold deliverAllOwn. cbn [fold_left flat_map].
    destruct (onOwnSnapshot_feeds id d pg st pc c Hpc Hc) as (c' & Hpc' & Hc' & Hst & Hice).
    destruct (onOwnSnapshot validDescription validCandidate createAnswer id d (pg, st))
      as [pg1 st1].
    cbn [fst snd] in *.
    fold (deliverAllOwn validDescription validCandidate createAnswer id snaps (pg1, st1)).
    rewrite (IH pg1 st1 c' Hpc' Hc'), Hice, <- app_assoc. reflexivity.
Qed.

End Candidates.

Lemma occurrences_app (cand : string) (a b : list string) :
  occurrences cand (a ++ b) = (occurrences cand a + occurrences cand b)%nat.
Proof. unfold occurrences. rewrite filter_app, length_app. reflexivity. Qed.

Lemma occurrences_flat_map {A} (cand : string) (f : A -> list string) (l : list A) :
  occurrences cand (flat_map f l) = sum_list (map (fun x => occurrences cand (f x)) l).
Proof.
  induction l as [| x l IH]; [reflexivity |].
  cbn [flat_map map sum_list]. rewrite occurrences_app, IH. reflexivity.
Qed.

(** C1, as the code has it: neither listener remembers what it has fed.
    Each delivery of a snapshot passes every candidate of the array that
    parses to [addIceCandidate], in order, so the calls a connection has
    seen are the arrays of all deliveries one after the other, and a
    candidate is applied once for every delivery that carries it. *)
Theorem candidates_fed_at_every_delivery
    (validDescription validCandidate : string -> bool) (createAnswer : string -> string)
    (pc : nat) (snaps : list (option Signaling.SessionDoc))
    (pg : Page) (c : PeerConnection) :
  connections pg !! pc = Some c ->
  (signalingState c = stable
   \/ (signalingState c = have_local_offer /\ Forall (acceptable validDescription) snaps) ->
   fedTo pc (deliverAll validDescription validCandidate pc snaps pg)
   = (iceCalls c ++ flat_map (fedBy validCandidate) snaps)%list
   /\ forall cand,
        occurrences cand (fedTo pc (deliverAll validDescription validCandidate pc snaps pg))
        = (occurrences cand (iceCalls c)
           + sum_list (map (fun d => occurrences cand (fedBy validCandidate d)) snaps))%nat)
  /\ (peerConnection pg = Some pc ->
      forall id st,
        fedTo pc (fst (deliverAllOwn validDescription validCandidate createAnswer
                         id snaps (pg, st)))
        = (iceCalls c ++ flat_map (fedByOwn validCandidate) snaps)%list).
Proof.
  intros Hc. split.
  - intros Hst.
    pose proof (deliverAll_feeds validDescription validCandidate pc snaps pg c Hc Hst) as Hfed.
    split; [exact Hfed |].
    intros cand. rewrite Hfed, occurrences_app, occurrences_flat_map. reflexivity.
  - intros Hpc id st. apply deliverAllOwn_feeds; assumption.
Qed.

Lemma candidates_fed_at_every_delivery_witness :
  let snaps := [sampleSnapshot ["c1"]; sampleSnapshot ["c1"; "c2"]] in
  fedTo 0 (deliverAll (fun _ => true) (fun _ => true) 0 snaps openPage)
  = ([] ++ flat_map (fedBy (fun _ => true)) snaps)%list
  /\ fedTo 0 (fst (deliverAllOwn (fun _ => true) (fun _ => true) (fun o => o)
                     "482913" snaps (openPage, ∅)))
     = ([] ++ flat_map (fedByOwn (fun _ => true)) snaps)%list.
Proof.
  intros snaps.
  destruct (candidates_fed_at_every_delivery (fun _ => true) (fun _ => true) (fun o => o)
              0 snaps openPage
              {| signalingState := have_local_offer; localDescription := Some "offer";
                 remoteDescription := None; iceCalls := [] |} eq_refl) as [Hinit Hresp].
  split.
  - apply Hinit. right. split; [reflexivity |].
    repeat constructor; right; reflexivity.
  - apply Hresp. reflexivity.
Defined.

(** C1 as stated fails: the same snapshot handled twice applies its
    candidate twice, and so does a snapshot followed by the grown one. *)
Lemma candidate_applied_twice :
  let twice := deliverAll (fun _ => true) (fun _ => true) 0
                 [sampleSnapshot ["c1"]; sampleSnapshot ["c1"]] openPage in
  let grown := deliverAll (fun _ => true) (fun _ => true) 0
                 [sampleSnapshot ["c1"]; sampleSnapshot ["c1"; "c2"]] openPage in
  fedTo 0 twice = ["c1"; "c1"]
  /\ occurrences "c1" (fedTo 0 twice) <> 1%nat
  /\ fedTo 0 grown = ["c1"; "c1"; "c2"]
  /\ occurrences "c1" (fedTo 0 grown) = 2%nat.
Proof.
  vm_compute. repeat split; try reflexivity. discriminate.
Qed.

(** ** Deleting a session *)

Lemma deleteSessionDoc_idempotent (sessionId : string) (st : Signaling.Store) :
  Signaling.deleteSessionDoc sessionId st = Return (delete sessionId st)
  /\ Signaling.deleteSessionDoc sessionId (delete sessionId st)
     = Return (delete sessionId st)
  /\ delete sessionId st !! sessionId = None.
Proof.
  unfold Signaling.deleteSessionDoc, Signaling.deleteDoc. cbn.
  split; [reflexivity |]. split; [| apply lookup_delete_eq].
  f_equal. apply delete_id. apply lookup_delete_eq.
Qed.

(** C8 against the code: the statement before the delete calls the SDK's
    [doc] with a path string where a database or a reference is required,
    so [cleanupSignalingSession] throws for every session id and the
    delete is never reached; the store is left as it was. *)
Theorem cleanupSignalingSession_throws (sessionId : string) (st : Signaling.Store) :
  Signaling.cleanupSignalingSession sessionId st
  = Throw (FirestoreError "invalid-argument")
  /\ ~ returns (Signaling.cleanupSignalingSession sessionId st).
Proof.
  split; [reflexivity |].
  intros [st' H]. discriminate H.
Qed.

(** The receiver of the sample file can download it until the channel
    closes. *)
Example download_lost_on_close :
  let st := receiveAll [Text (Metadata "notes.txt" 3); Binary [Byte.x61; Byte.x62];
                        Binary [Byte.x63]; Text Eof] (newReceiver, openPage) in
  downloadFile (snd st) = Some ("notes.txt", [Byte.x61; Byte.x62; Byte.x63])
  /\ progress (snd st) = ofZ 100
  /\ match onclose (snd st) with
     | Return after => downloadFile after = None /\ progress after = ofZ 0
     | Throw _ => False
     end.
Proof. vm_compute. repeat split; reflexivity. Qed.

(** * Further properties of the code *)

(** ** The rendezvous store *)

Lemma arrayUnion_idempotent (x : string) (field : option (list string)) :
  Signaling.arrayUnion x (Signaling.arrayUnion x field) = Signaling.arrayUnion x field.
Proof.
  unfold Signaling.arrayUnion. destruct field as [l |].
  - destruct (bool_decide (x ∈ l)) eqn:Hin.
    + rewrite Hin. reflexivity.
    + rewrite bool_decide_eq_true_2; [reflexivity |].
      apply elem_of_app. right. apply list_elem_of_singleton. reflexivity.
  - rewrite bool_decide_eq_true_2; [reflexivity |].
    apply list_elem_of_singleton. reflexivity.
Qed.

(** What [arrayUnion] makes of a field: the old array is kept as a prefix,
    the element is in, and no duplicate is introduced. *)
Lemma arrayUnion_grows (x : string) (field : option (list string)) :
  exists old added,
    field ∈ [None; Some old]
    /\ (field = None -> old = [])
    /\ Signaling.arrayUnion x field = Some (old ++ added)%list
    /\ x ∈ (old ++ added)%list
    /\ (NoDup old -> NoDup (old ++ added)%list).
Proof.
  unfold Signaling.arrayUnion. destruct field as [l |].
  - destruct (bool_decide (x ∈ l)) eqn:Hin.
    + apply bool_decide_eq_true_1 in Hin.
      exists l, []. rewrite app_nil_r. repeat split; auto; [set_solver | discriminate].
    + apply bool_decide_eq_false_1 in Hin.
      exists l, [x]. repeat split; auto; [set_solver | discriminate | set_solver |].
      intros Hnd. apply NoDup_app. repeat split; [exact Hnd | | apply NoDup_singleton].
      intros y Hy Hy'. apply list_elem_of_singleton in Hy'. subst y. exact (Hin Hy).
  - exists [], [x]. repeat split; auto; [set_solver | set_solver |].
    intros _. apply NoDup_singleton.
Qed.

Lemma addIceCandidate_missing (sessionId cand : string) (role : Signaling.Role)
    (st : Signaling.Store) :
  st !! sessionId = None ->
  Signaling.addIceCandidate sessionId cand role st = Throw (FirestoreError "not-found").
Proof.
  intros Hnone. unfold Signaling.addIceCandidate, Signaling.updateDoc. cbn.
  rewrite Hnone. reflexivity.
Qed.

Lemma addIceCandidate_present (sessionId cand : string) (role : Signaling.Role)
    (st : Signaling.Store) (d : Signaling.SessionDoc) :
  st !! sessionId = Some d ->
  exists d',
    Signaling.addIceCandidate sessionId cand role st = Return (<[sessionId := d']> st)
    /\ candidatesOf role d' = Signaling.arrayUnion cand (candidatesOf role d)
    /\ candidatesOf (otherRole role) d' = candidatesOf (otherRole role) d
    /\ Signaling.offer d' = Signaling.offer d
    /\ Signaling.answer d' = Signaling.answer d
    /\ Signaling.createdAt d' = Signaling.createdAt d.
Proof.
  intros Hd. unfold Signaling.addIceCandidate, Signaling.updateDoc. cbn.
  rewrite Hd. destruct role; eexists; split; try reflexivity; cbn; auto.
Qed.

(** X1: a write of a candidate that succeeds found a document of the
    session; it keeps the role's array as a prefix and appends the
    candidate unless it is already there, never introduces a duplicate,
    and leaves the other role's array, the offer, the answer and every
    other session as they were. *)
Theorem addIceCandidate_appends (sessionId cand : string) (role : Signaling.Role)
    (st st' : Signaling.Store) :
  Signaling.addIceCandidate sessionId cand role st = Return st' ->
  exists d d' old added,
    st !! sessionId = Some d
    /\ st' !! sessionId = Some d'
    /\ (forall other, other <> sessionId -> st' !! other = st !! other)
    /\ candidatesOf role d ∈ [None; Some old]
    /\ (candidatesOf role d = None -> old = [])
    /\ candidatesOf role d' = Some (old ++ added)%list
    /\ cand ∈ (old ++ added)%list
    /\ (NoDup old -> NoDup (old ++ added)%list)
    /\ candidatesOf (otherRole role) d' = candidatesOf (otherRole role) d
    /\ Signaling.offer d' = Signaling.offer d
    /\ Signaling.answer d' = Signaling.answer d.
Proof.
  intros Hrun.
  destruct (st !! sessionId) as [d |] eqn:Hd.
  - destruct (addIceCandidate_present sessionId cand role st d Hd)
      as (d' & Hrun' & Hrole & Hother & Hoffer & Hanswer & _).
    rewrite Hrun' in Hrun. injection Hrun as <-.
    destruct (arrayUnion_grows cand (candidatesOf role d))
      as (old & added & Hold & Hnone & Hunion & Hin & Hnd).
    exists d, d', old, added.
    split; [reflexivity |]. split; [apply lookup_insert_eq |].
    split; [intros other Hne; apply lookup_insert_ne; congruence |].
    rewrite Hrole, Hunion. repeat split; assumption.
  - rewrite (addIceCandidate_missing sessionId cand role st Hd) in Hrun. discriminate.
Qed.

Lemma addIceCandidate_appends_witness :
  let d := {| Signaling.offer := Some "offer"; Signaling.answer := None;
              Signaling.senderCandidates := Some ["c1"];
              Signaling.receiverCandidates := None;
              Signaling.createdAt := Some 0 |} in
  let st := {[ "482913" := d ]} : Signaling.Store in
  exists st' d' old added,
    Signaling.addIceCandidate "482913" "c2" Signaling.sender st = Return st'
    /\ st' !! "482913" = Some d'
    /\ Signaling.senderCandidates d ∈ [None; Some old]
    /\ Signaling.senderCandidates d' = Some (old ++ added)%list
    /\ "c2" ∈ (old ++ added)%list
    /\ Signaling.receiverCandidates d' = Signaling.receiverCandidates d.
Proof.
  intros d st.
  destruct (addIceCandidate_appends "482913" "c2" Signaling.sender st
              (<[ "482913" := {| Signaling.offer := Some "offer"; Signaling.answer := None;
                                 Signaling.senderCandidates := Some ["c1"; "c2"];
                                 Signaling.receiverCandidates := None;
                                 Signaling.createdAt := Some 0 |} ]> st))
    as (d0 & d' & old & added & Hd0 & Hd' & _ & Hold & _ & Hnew & Hin & _ & Hother & _);
    [reflexivity |].
  assert (d0 = d) as -> by (unfold st in Hd0; rewrite lookup_singleton_eq in Hd0; congruence).
  eexists _, d', old, added. split; [reflexivity |].
  repeat split; assumption.
Defined.

(** X2: writing the same candidate a second time changes nothing: the
    store after two writes is the store after one. *)
Theorem addIceCandidate_idempotent (sessionId cand : string) (role : Signaling.Role)
    (st st1 : Signaling.Store) :
  Signaling.addIceCandidate sessionId cand role st = Return st1 ->
  Signaling.addIceCandidate sessionId cand role st1 = Return st1.
Proof.
  intros Hrun.
  destruct (st !! sessionId) as [d |] eqn:Hd.
  - revert Hrun. unfold Signaling.addIceCandidate, Signaling.updateDoc. cbn.
    rewrite Hd. intros Hrun. injection Hrun as <-.
    rewrite lookup_insert_eq, insert_insert_eq.
    destruct role; cbn; rewrite arrayUnion_idempotent; reflexivity.
  - rewrite (addIceCandidate_missing sessionId cand role st Hd) in Hrun. discriminate.
Qed.

Lemma addIceCandidate_idempotent_witness :
  let st := {[ "482913" := {| Signaling.offer := Some "offer"; Signaling.answer := None;
                              Signaling.senderCandidates := Some ["c1"];
                              Signaling.receiverCandidates := Some [];
                              Signaling.createdAt := Some 0 |} ]} : Signaling.Store in
  exists st1,
    Signaling.addIceCandidate "482913" "c2" Signaling.sender st = Return st1
    /\ Signaling.addIceCandidate "482913" "c2" Signaling.sender st1 = Return st1.
Proof.
  intros st. eexists. split; [reflexivity |].
  apply (addIceCandidate_idempotent "482913" "c2" Signaling.sender st). reflexivity.
Defined.

Lemma onicecandidate_other (hasDb : bool) (sessionId : string) (role : Signaling.Role)
    (candidate : option string) (st : Signaling.Store) (other : string) :
  other <> sessionId ->
  onicecandidate hasDb sessionId role candidate st !! other = st !! other.
Proof.
  intros Hne. unfold onicecandidate.
  destruct candidate as [c |]; [| reflexivity].
  destruct hasDb; [| reflexivity].
  destruct (st !! sessionId) as [d |] eqn:Hd.
  - destruct (addIceCandidate_present sessionId c role st d Hd) as (d' & -> & _).
    apply lookup_insert_ne. congruence.
  - rewrite (addIceCandidate_missing sessionId c role st Hd). reflexivity.
Qed.

(** X3: a [createSignalingSession] that succeeds replaces the whole
    document: whatever was there before, an answer or candidates a
    connection's [onicecandidate] had already written, is gone; the new
    document holds the offer, no answer and two empty arrays.  Other
    sessions are not touched. *)
Theorem createSignalingSession_resets (sessionId offerJson : string) (now : Z)
    (hasDb : bool) (role : Signaling.Role) (candidate : option string)
    (st st' : Signaling.Store) :
  Signaling.createSignalingSession sessionId offerJson now
    (onicecandidate hasDb sessionId role candidate st) = Return st' ->
  snapshotOf sessionId st'
  = Some {| Signaling.offer := Some offerJson; Signaling.answer := None;
            Signaling.senderCandidates := Some [];
            Signaling.receiverCandidates := Some [];
            Signaling.createdAt := Some now |}
  /\ forall other, other <> sessionId -> st' !! other = st !! other.
Proof.
  intros Hrun. injection Hrun as <-. split.
  - unfold snapshotOf. cbn. apply lookup_insert_eq.
  - intros other Hne. cbn. rewrite lookup_insert_ne by congruence.
    apply onicecandidate_other. exact Hne.
Qed.

Lemma createSignalingSession_resets_witness :
  let d := {| Signaling.offer := Some "old offer"; Signaling.answer := Some "old answer";
              Signaling.senderCandidates := Some ["c1"];
              Signaling.receiverCandidates := Some ["r1"];
              Signaling.createdAt := Some 0 |} in
  let st := {[ "482913" := d ]} : Signaling.Store in
  exists st',
    Signaling.createSignalingSession "482913" "offer" 7
      (onicecandidate true "482913" Signaling.sender (Some "c2") st) = Return st'
    /\ snapshotOf "482913" st'
       = Some {| Signaling.offer := Some "offer"; Signaling.answer := None;
                 Signaling.senderCandidates := Some [];
                 Signaling.receiverCandidates := Some [];
                 Signaling.createdAt := Some 7 |}.
Proof.
  intros d st. eexists. split; [reflexivity |].
  apply (createSignalingSession_resets "482913" "offer" 7 true Signaling.sender
           (Some "c2") st).
  reflexivity.
Defined.

(** ** The receiving side, on any sequence of messages *)

Lemma receiveAll_cons (m : Payload) (msgs : list Payload) (st : Receiver * Page) :
  receiveAll (m :: msgs) st = receiveAll msgs (onmessage m st).
Proof. reflexivity. Qed.

(** X5: from the state a fresh channel starts in, after any sequence of
    messages the byte count equals the total length of the chunks held. *)
Theorem bytesReceived_counts_chunks (msgs : list Payload) (pg : Page) :
  bytesReceived (fst (receiveAll msgs (newReceiver, pg)))
  = byteLength (concat (receivedChunks (fst (receiveAll msgs (newReceiver, pg))))).
Proof.
  assert (Hgen : forall msgs rc pg,
             bytesReceived rc = byteLength (concat (receivedChunks rc)) ->
             bytesReceived (fst (receiveAll msgs (rc, pg)))
             = byteLength (concat (receivedChunks (fst (receiveAll msgs (rc, pg)))))).
  { clear. induction msgs as [| m msgs IH]; intros rc pg Hinv; [exact Hinv |].
    rewrite receiveAll_cons.
    destruct (onmessage m (rc, pg)) as [rc1 pg1] eqn:Hstep. apply IH.
    destruct m as [[nm sz | | |] | chunk]; cbn in Hstep;
      injection Hstep as <- <-; cbn [bytesReceived receivedChunks]; try exact Hinv.
    - reflexivity.
    - rewrite concat_app. cbn [concat]. rewrite app_nil_r.
      unfold byteLength in *. rewrite length_app. lia. }
  apply Hgen. reflexivity.
Qed.

Lemma isHundred_100 : isHundred (ofZ 100) = true.
Proof. reflexivity. Qed.

Lemma classic_eof (msgs : list Payload) :
  In (Text Eof) msgs \/ ~ In (Text Eof) msgs.
Proof.
  induction msgs as [| m msgs [IH | IH]]; [right; intros [] | left; right; exact IH |].
  destruct m as [[nm sz | | |] | chunk];
    try (right; intros [Hd | Hin]; [discriminate Hd | exact (IH Hin)]).
  left. left. reflexivity.
Qed.

(** Messages other than metadata keep what the metadata set and only add
    chunks. *)
Lemma receiveAll_no_metadata (msgs : list Payload) :
  forall (rc : Receiver) (pg : Page),
    forallb (fun m => negb (isMetadata m)) msgs = true ->
    receivedChunks (fst (receiveAll msgs (rc, pg)))
    = (receivedChunks rc ++ binaries msgs)%list
    /\ expectedSize (fst (receiveAll msgs (rc, pg))) = expectedSize rc
    /\ transferMode (snd (receiveAll msgs (rc, pg))) = transferMode pg
    /\ fileName (snd (receiveAll msgs (rc, pg))) = fileName pg
    /\ fileSize (snd (receiveAll msgs (rc, pg))) = fileSize pg
    /\ (In (Text Eof) msgs -> is_Some (receivedFile (snd (receiveAll msgs (rc, pg)))))
    /\ (~ In (Text Eof) msgs ->
        receivedFile (snd (receiveAll msgs (rc, pg))) = receivedFile pg).
Proof.
  induction msgs as [| m msgs IH]; intros rc pg Hno.
  - cbn. rewrite app_nil_r. repeat split; tauto.
  - cbn [forallb] in Hno. apply andb_prop in Hno as [Hm Hno].
    rewrite receiveAll_cons.
    destruct (onmessage m (rc, pg)) as [rc1 pg1] eqn:Hstep.
    destruct (IH rc1 pg1 Hno) as (Hch & Hsz & Hmode & Hname & Hfs & Heof & Hnoeof).
    destruct m as [[nm sz | | |] | chunk]; try discriminate Hm;
      cbn in Hstep; injection Hstep as <- <-;
      cbn [binaries receivedChunks expectedSize] in *;
      (split; [rewrite Hch; try rewrite <- app_assoc; reflexivity |]);
      (split; [exact Hsz |]); (split; [exact Hmode |]); (split; [exact Hname |]);
      (split; [exact Hfs |]).
    + split; [intros _ | intros Hn; exfalso; apply Hn; left; reflexivity].
      destruct (classic_eof msgs) as [Hin | Hout]; [exact (Heof Hin) |].
      rewrite (Hnoeof Hout). cbn. eauto.
    + split; [intros [Hd | Hin]; [discriminate Hd | exact (Heof Hin)] |].
      intros Hn. apply Hnoeof. intros Hin. apply Hn. right. exact Hin.
    + split; [intros [Hd | Hin]; [discriminate Hd | exact (Heof Hin)] |].
      intros Hn. apply Hnoeof. intros Hin. apply Hn. right. exact Hin.
    + split; [intros [Hd | Hin]; [discriminate Hd | exact (Heof Hin)] |].
      intros Hn. rewrite Hnoeof; [reflexivity |].
      intros Hin. apply Hn. right. exact Hin.
Qed.

(** X6: whatever came before a metadata message, and whatever control
    messages (further [eof]s, unknown or unparseable text) are mixed into
    what follows it, the file built at an [eof] is the concatenation of
    the binary payloads received since that metadata message, offered for
    download under the announced name; the declared size is not compared
    with what arrived. *)
Theorem file_is_chunks_since_metadata (before after : list Payload)
    (nm : string) (sz : Z) (st : Receiver * Page) :
  forallb (fun m => negb (isMetadata m)) after = true ->
  let final := receiveAll (before ++ Text (Metadata nm sz) :: after ++ [Text Eof])%list st in
  receivedChunks (fst final) = binaries after
  /\ receivedFile (snd final) = Some (concat (binaries after))
  /\ downloadFile (snd final) = Some (nm, concat (binaries after))
  /\ progress (snd final) = ofZ 100
  /\ downloadButtonShown (snd final) = true.
Proof.
  intros Hno final. unfold final. clear final.
  rewrite receiveAll_app, receiveAll_cons.
  destruct (receiveAll before st) as [rc0 pg0].
  cbn [onmessage]. rewrite receiveAll_app.
  match goal with
  | |- context [receiveAll after (?r, ?p)] =>
      destruct (receiveAll_no_metadata after r p Hno)
        as (Hch & _ & Hmode & Hname & _);
      destruct (receiveAll after (r, p)) as [rc1 pg1]
  end.
  cbn [fst snd receivedChunks transferMode fileName setProgress setTransferMode
       setFileSize setFileName] in *.
  cbn. rewrite Hch, Hname. unfold downloadButtonShown.
  cbn [transferMode progress toast setProgress setReceivedFile].
  rewrite Hmode. repeat split.
Qed.

Lemma file_is_chunks_since_metadata_witness :
  let final := receiveAll ([Binary [Byte.x7a]]
                           ++ Text (Metadata "notes.txt" 3)
                              :: [Binary [Byte.x61]; Text Unparseable; Text Eof;
                                  Binary [Byte.x62]] ++ [Text Eof])%list
                          (newReceiver, initialPage) in
  receivedChunks (fst final) = [[Byte.x61]; [Byte.x62]]
  /\ receivedFile (snd final) = Some [Byte.x61; Byte.x62]
  /\ downloadFile (snd final) = Some ("notes.txt", [Byte.x61; Byte.x62])
  /\ progress (snd final) = ofZ 100
  /\ downloadButtonShown (snd final) = true.
Proof.
  apply (file_is_chunks_since_metadata [Binary [Byte.x7a]]
           [Binary [Byte.x61]; Text Unparseable; Text Eof; Binary [Byte.x62]]
           "notes.txt" 3 (newReceiver, initialPage)).
  reflexivity.
Defined.

(** X7: as long as no metadata message arrives the transfer mode stays
    what it was, so on a page that is not receiving the download button
    never appears, although an [eof] does store a file. *)
Theorem no_metadata_no_download_button (msgs : list Payload) (rc : Receiver) (pg : Page) :
  forallb (fun m => negb (isMetadata m)) msgs = true ->
  isMode (transferMode pg) receiving = false ->
  let final := receiveAll msgs (rc, pg) in
  transferMode (snd final) = transferMode pg
  /\ downloadButtonShown (snd final) = false
  /\ (In (Text Eof) msgs -> is_Some (receivedFile (snd final))).
Proof.
  intros Hno Hmode final. unfold final. clear final.
  destruct (receiveAll_no_metadata msgs rc pg Hno) as (_ & _ & Hm & _ & _ & Heof & _).
  split; [exact Hm |]. split; [| exact Heof].
  unfold downloadButtonShown. rewrite Hm, Hmode. reflexivity.
Qed.

Lemma no_metadata_no_download_button_witness :
  let final := receiveAll [Binary [Byte.x61]; Text Eof] (newReceiver, initialPage) in
  transferMode (snd final) = transferMode initialPage
  /\ downloadButtonShown (snd final) = false
  /\ (In (Text Eof) [Binary [Byte.x61]; Text Eof] -> is_Some (receivedFile (snd final))).
Proof.
  apply (no_metadata_no_download_button [Binary [Byte.x61]; Text Eof]
           newReceiver initialPage); reflexivity.
Defined.

Lemma percent_above (a t : Z) :
  0 < t -> t < a ->
  le (ofZ 100) (times100 (div a t)) /\ isHundred (times100 (div a t)) = false.
Proof.
  intros Ht Ha. split.
  - rewrite <- (percent_full t) by lia. apply percent_le; lia.
  - unfold div. destruct (t =? 0) eqn:E; [apply Z.eqb_eq in E; lia |].
    cbn [times100 isHundred].
    destruct (Qc_eq_dec _ _) as [Heq |]; [exfalso | reflexivity].
    apply (f_equal this) in Heq. unfold Qcdiv, Qcmult, Qcinv in Heq.
    cbn [this Q2Qc] in Heq.
    assert (Hq : ((a # 1) * / (t # 1) * (100 # 1) == 100 # 1)%Q).
    { transitivity (Qred (Qred (Qred (a # 1) * Qred (/ Qred (t # 1))) * Qred (100 # 1))).
      - rewrite !Qred_correct. reflexivity.
      - rewrite Heq. apply Qred_correct. }
    destruct t as [| p | p]; try lia.
    unfold Qeq, Qmult, Qinv in Hq. cbn in Hq. nia.
Qed.

Lemma progress_after_chunks (nm : string) (sz : Z) (rd : list Chunk)
    (st : Receiver * Page) :
  rd <> [] ->
  progress (snd (receiveAll (Text (Metadata nm sz) :: map Binary rd) st))
  = times100 (div (byteLength (concat rd)) sz)
  /\ receivedFile (snd (receiveAll (Text (Metadata nm sz) :: map Binary rd) st))
     = receivedFile (snd st)
  /\ transferMode (snd (receiveAll (Text (Metadata nm sz) :: map Binary rd) st))
     = receiving.
Proof.
  intros Hne. destruct st as [rc0 pg0]. rewrite receiveAll_cons. cbn [onmessage].
  rewrite receiveAll_binary. cbn [snd progress setProgress receivedFile transferMode
    setTransferMode setFileSize setFileName bytesReceived expectedSize].
  split; [| split; reflexivity].
  destruct rd as [| chunk rest]; [congruence |].
  cbn [progressValues].
  rewrite (last_default _ _ _ (times100 (div 0 sz))).
  change (List.last (times100 (div (0 + byteLength chunk) sz)
                     :: progressValues (0 + byteLength chunk) sz rest)
                    (times100 (div 0 sz)))
    with (List.last (times100 (div 0 sz) :: progressValues 0 sz (chunk :: rest))
                    (times100 (div 0 sz))).
  rewrite progressValues_last. rewrite Z.add_0_l. reflexivity.
Qed.

(** X8: the progress is not capped: when more bytes have arrived than the
    metadata announced, the value shown is above 100 (and the download
    button, which needs exactly 100, is not there). *)
Theorem progress_exceeds_100_on_overrun (nm : string) (sz : Z) (rd : list Chunk)
    (st : Receiver * Page) :
  0 < sz ->
  sz < byteLength (concat rd) ->
  let now := receiveAll (Text (Metadata nm sz) :: map Binary rd) st in
  progress (snd now) = times100 (div (byteLength (concat rd)) sz)
  /\ le (ofZ 100) (progress (snd now))
  /\ progress (snd now) <> ofZ 100
  /\ downloadButtonShown (snd now) = false.
Proof.
  intros Hsz Hover now. unfold now. clear now.
  assert (Hne : rd <> []) by (intros ->; unfold byteLength in Hover; cbn in Hover; lia).
  destruct (progress_after_chunks nm sz rd st Hne) as (Hp & _ & _).
  destruct (percent_above (byteLength (concat rd)) sz Hsz Hover) as [Hle Hnot].
  rewrite Hp. split; [reflexivity |]. split; [exact Hle |].
  split.
  - intros Heq. rewrite Heq in Hnot. discriminate Hnot.
  - unfold downloadButtonShown. rewrite Hp, Hnot. apply andb_false_r.
Qed.

Lemma progress_exceeds_100_on_overrun_witness :
  let now := receiveAll (Text (Metadata "notes.txt" 1)
                         :: map Binary [[Byte.x61; Byte.x62]]) (newReceiver, initialPage) in
  progress (snd now) = times100 (div (byteLength (concat [[Byte.x61; Byte.x62]])) 1)
  /\ le (ofZ 100) (progress (snd now))
  /\ progress (snd now) <> ofZ 100
  /\ downloadButtonShown (snd now) = false.
Proof.
  apply (progress_exceeds_100_on_overrun "notes.txt" 1 [[Byte.x61; Byte.x62]]
           (newReceiver, initialPage)); reflexivity.
Defined.

(** X9: once the last announced byte has arrived the progress is exactly
    100 and the download button is shown, before any [eof]: until the
    [eof] is handled there is no file behind it, and [downloadFile] does
    nothing. *)
Theorem download_button_before_eof (nm : string) (sz : Z) (rd : list Chunk)
    (st : Receiver * Page) :
  0 < sz ->
  byteLength (concat rd) = sz ->
  receivedFile (snd st) = None ->
  let now := receiveAll (Text (Metadata nm sz) :: map Binary rd) st in
  downloadButtonShown (snd now) = true
  /\ receivedFile (snd now) = None
  /\ downloadFile (snd now) = None.
Proof.
  intros Hsz Hall Hnone now. unfold now. clear now.
  assert (Hne : rd <> []) by (intros ->; unfold byteLength in Hall; cbn in Hall; lia).
  destruct (progress_after_chunks nm sz rd st Hne) as (Hp & Hfile & Hmode).
  unfold downloadButtonShown, downloadFile.
  rewrite Hp, Hfile, Hmode, Hnone, Hall, percent_full by lia.
  repeat split.
Qed.

Lemma download_button_before_eof_witness :
  let now := receiveAll (Text (Metadata "notes.txt" 3)
                         :: map Binary [[Byte.x61; Byte.x62]; [Byte.x63]])
                        (newReceiver, initialPage) in
  downloadButtonShown (snd now) = true
  /\ receivedFile (snd now) = None
  /\ downloadFile (snd now) = None.
Proof.
  apply (download_button_before_eof "notes.txt" 3 [[Byte.x61; Byte.x62]; [Byte.x63]]
           (newReceiver, initialPage)); reflexivity.
Defined.

(** ** The sending side, whatever the surroundings *)

Lemma progressValues_app (t : Z) (a b : list Chunk) :
  forall count,
    progressValues count t (a ++ b)
    = (progressValues count t a
       ++ progressValues (count + byteLength (concat a)) t b)%list.
Proof.
  induction a as [| chunk a IH]; intros count.
  - cbn. change (byteLength []) with 0. rewrite Z.add_0_r. reflexivity.
  - cbn [app progressValues concat]. rewrite IH. cbn [app].
    unfold byteLength. rewrite length_app. do 3 f_equal. lia.
Qed.

Lemma progressValues_snoc_last (t : Z) (sent : list Chunk) (value : Chunk) (d : JSNum) :
  List.last (progressValues 0 t (sent ++ [value])) d
  = times100 (div (byteLength (concat sent) + byteLength value) t).
Proof.
  rewrite progressValues_app. cbn [progressValues]. rewrite last_last.
  rewrite Z.add_0_l. reflexivity.
Qed.

Section AnySurroundings.

Variable T : Z.
Variable env : nat -> Reading.
Variable f : File.
Variable pg0 : Page.

(** Leave the loop: [sent] went out, [rest] did not. *)
Ltac inflight_exit sent rest :=
  exists sent, rest;
  split; [assumption |];
  cbn [fst snd leave total offset trace outcome onbufferedamountlow reader isDone];
  rewrite displayed_app, wire_app; cbn [displayed wire]; rewrite ?app_nil_r;
  split; [assumption |]; split; [assumption |]; split; [assumption |];
  split;
    [first [left; assumption
           | right; split; [| split; reflexivity];
             match goal with H : wire _ = _ |- _ => rewrite H; reflexivity end] |];
  split; [first [intros _; split; reflexivity | intros Htrue; congruence] |];
  first [assumption | subst; reflexivity].

Lemma sendLoop_inFlight (rd : list Chunk) :
  forall (s : Sender) (pg : Page) (sent : list Chunk),
    onbufferedamountlow s = false ->
    stream f = (sent ++ rd)%list ->
    total s = size f ->
    offset s = byteLength (concat sent) ->
    displayed (trace s) = ofZ 0 :: progressValues 0 (size f) sent ->
    wire (trace s) = Text (Metadata (name f) (size f)) :: map Binary sent ->
    pg = setProgress (List.last (progressValues 0 (size f) sent) (ofZ 0))
           (sendingPage f pg0) ->
    inFlight f pg0 (sendLoop T env rd s pg).
Proof.
  induction rd as [| value rest IH];
    intros s pg sent Hh Hstream Htot Hoff Hshown Hwire Hpg;
    cbn [sendLoop].
  - destruct (atCheck (env (reads s))); try (inflight_exit sent (@nil Chunk)).
    destruct (T <? buffered (env (reads s))); try (inflight_exit sent (@nil Chunk)).
    destruct (afterRead (env (reads s))); inflight_exit sent (@nil Chunk).
  - destruct (atCheck (env (reads s))); try (inflight_exit sent (value :: rest)).
    destruct (T <? buffered (env (reads s))); try (inflight_exit sent (value :: rest)).
    destruct (afterRead (env (reads s))); try (inflight_exit sent (value :: rest)).
    apply (IH _ _ (sent ++ [value])%list); cbn [onbufferedamountlow total offset trace].
    + reflexivity.
    + rewrite <- app_assoc. exact Hstream.
    + exact Htot.
    + rewrite Hoff, concat_app. cbn [concat]. rewrite app_nil_r.
      unfold byteLength. rewrite length_app. lia.
    + rewrite displayed_app, Hshown, progressValues_app. cbn.
      rewrite Htot, Hoff, Z.add_0_l. reflexivity.
    + rewrite wire_app, Hwire, map_app. reflexivity.
    + rewrite Hpg, setProgress_twice, progressValues_snoc_last, Htot, Hoff. reflexivity.
Qed.

Lemma bufferedamountlow_inFlight (st : Sender * Page) :
  inFlight f pg0 st -> inFlight f pg0 (bufferedamountlow T env st).
Proof.
  intros Hin. destruct st as [s pg]. unfold bufferedamountlow.
  destruct (onbufferedamountlow s) eqn:Hh; [| exact Hin].
  destruct Hin as (sent & rest & Hstream & Htot & Hoff & Hshown & Hwire & Hsusp & Hpg).
  cbn [fst snd] in *. destruct (Hsusp Hh) as [Hreader Hout]. clear Hsusp.
  destruct Hwire as [Hwire | (_ & _ & Hdone)]; [| congruence].
  unfold sendNextChunk. cbn [fst snd reader]. rewrite Hreader.
  apply (sendLoop_inFlight rest _ pg sent); cbn [onbufferedamountlow total offset trace];
    try assumption; try reflexivity.
  - rewrite displayed_app, Hshown, app_nil_r. reflexivity.
  - rewrite wire_app, Hwire, app_nil_r. reflexivity.
  - rewrite Hpg, Hout. reflexivity.
Qed.

Lemma afterEvents_inFlight (n : nat) :
  forall st, inFlight f pg0 st -> inFlight f pg0 (afterEvents T env n st).
Proof.
  induction n as [| n IH]; intros st Hin; [exact Hin |].
  destruct st as [s pg]. cbn [afterEvents]. apply IH.
  apply bufferedamountlow_inFlight. exact Hin.
Qed.

Lemma transfer_inFlight (n : nat) (s : Sender) (pg' : Page) :
  transfer T env f pg0 n = Some (s, pg') -> inFlight f pg0 (s, pg').
Proof.
  unfold transfer, handleSendFile.
  destruct (currentView pg0); try discriminate.
  unfold sendNextChunk. cbn [fst snd reader].
  set (pg1 := setProgress _ _).
  set (s0 := Build_Sender _ _ _ _ _ _ _).
  assert (H0 : inFlight f pg0 (sendLoop T env (stream f) s0 pg1))
    by (apply (sendLoop_inFlight (stream f) s0 pg1 []); reflexivity).
  destruct (sendLoop T env (stream f) s0 pg1) as [s1 pg2].
  intros Hsome. injection Hsome as Hsome.
  rewrite <- Hsome. apply afterEvents_inFlight. exact H0.
Qed.

End AnySurroundings.

Lemma binaries_map (sent : list Chunk) (tail : list Payload) :
  binaries (map Binary sent ++ tail) = (sent ++ binaries tail)%list.
Proof.
  induction sent as [| c sent IH]; [reflexivity |].
  cbn [map app binaries]. rewrite IH. reflexivity.
Qed.

Lemma concat_prefix_length (sent rest : list Chunk) :
  0 <= byteLength (concat sent) <= byteLength (concat (sent ++ rest)).
Proof.
  rewrite concat_app. unfold byteLength. rewrite length_app. lia.
Qed.

(** X10: whatever the channel and its buffer do, and after any number of
    low-water events, what the sender has put on the channel after the
    metadata is a prefix of the file's chunks, each once and in order;
    [offset] counts exactly those bytes and never exceeds the file size;
    and an [eof] is on the channel only behind the whole file. *)
Theorem sent_chunks_are_a_prefix (T : Z) (env : nat -> Reading) (f : File)
    (pg : Page) (n : nat) (s : Sender) (pg' : Page) :
  transfer T env f pg n = Some (s, pg') ->
  exists sent rest,
    stream f = (sent ++ rest)%list
    /\ binaries (wire (trace s)) = sent
    /\ offset s = byteLength (concat sent)
    /\ 0 <= offset s <= size f
    /\ (In (Text Eof) (wire (trace s)) -> rest = [] /\ outcome s = Done).
Proof.
  intros Hrun.
  destruct (transfer_inFlight T env f pg n s pg' Hrun)
    as (sent & rest & Hstream & _ & Hoff & _ & Hwire & _).
  cbn [fst] in *. exists sent, rest.
  split; [exact Hstream |].
  split.
  { destruct Hwire as [-> | (-> & _)]; cbn [binaries].
    - rewrite <- (app_nil_r (map Binary sent)), binaries_map. apply app_nil_r.
    - rewrite binaries_map. apply app_nil_r. }
  split; [exact Hoff |].
  split.
  { rewrite Hoff. unfold size, bytes. rewrite Hstream. apply concat_prefix_length. }
  intros Heof. destruct Hwire as [Hw | (_ & Hrest & Hdone)]; [| auto].
  rewrite Hw in Heof. destruct Heof as [Heof | Heof]; [discriminate Heof |].
  destruct (eof_not_binary sent Heof).
Qed.

Lemma sent_chunks_are_a_prefix_witness :
  exists s pg' sent rest,
    transfer 65536 sampleEnv sampleFile openPage 0 = Some (s, pg')
    /\ stream sampleFile = (sent ++ rest)%list
    /\ binaries (wire (trace s)) = sent
    /\ offset s = byteLength (concat sent)
    /\ 0 <= offset s <= size sampleFile
    /\ (In (Text Eof) (wire (trace s)) -> rest = [] /\ outcome s = Done).
Proof.
  destruct (transfer 65536 sampleEnv sampleFile openPage 0) as [[s pg'] |] eqn:Hrun;
    [| vm_compute in Hrun; discriminate Hrun].
  destruct (sent_chunks_are_a_prefix 65536 sampleEnv sampleFile openPage 0 s pg' Hrun)
    as (sent & rest & H).
  exists s, pg', sent, rest. split; [reflexivity | exact H].
Defined.

Lemma progressValues_bounded (t : Z) (rd : list Chunk) :
  0 < t ->
  forall count,
    count + byteLength (concat rd) <= t ->
    Forall (fun v => le v (ofZ 100)) (progressValues count t rd).
Proof.
  intros Ht. induction rd as [| chunk rest IH]; intros count Hle; [constructor |].
  cbn [progressValues]. cbn [concat] in Hle. unfold byteLength in Hle.
  rewrite length_app in Hle.
  pose proof (byteLength_nonneg (concat rest)) as Hrest. unfold byteLength in *.
  constructor.
  - rewrite <- (percent_full t) by lia. apply percent_le; lia.
  - apply IH. lia.
Qed.

(** X11: for a file that has bytes, the progress the sender shows never
    decreases and never exceeds 100, also when the transfer is suspended,
    stopped or fails half-way. *)
Theorem sender_progress_bounded (T : Z) (env : nat -> Reading) (f : File)
    (pg : Page) (n : nat) (s : Sender) (pg' : Page) :
  0 < size f ->
  transfer T env f pg n = Some (s, pg') ->
  nondecreasing (displayed (trace s))
  /\ Forall (fun v => le v (ofZ 100)) (displayed (trace s))
  /\ le (progress pg') (ofZ 100).
Proof.
  intros Hsize Hrun.
  destruct (transfer_inFlight T env f pg n s pg' Hrun)
    as (sent & rest & Hstream & _ & _ & Hshown & _ & _ & Hpg).
  cbn [fst snd] in *.
  assert (Hbound : Forall (fun v => le v (ofZ 100)) (progressValues 0 (size f) sent)).
  { apply progressValues_bounded; [exact Hsize |].
    rewrite Z.add_0_l. unfold size, bytes. rewrite Hstream.
    apply concat_prefix_length. }
  rewrite Hshown. split; [| split].
  - rewrite <- (percent_zero (size f)) by lia.
    apply progressValues_nondecreasing. exact Hsize.
  - constructor; [apply le_zero_hundred | exact Hbound].
  - assert (Hp : progress pg'
                 = List.last (progressValues 0 (size f) sent) (ofZ 0))
      by (rewrite Hpg; destruct (isDone (outcome s)); reflexivity).
    rewrite Hp. clear - Hbound.
    induction Hbound as [| v l Hv Hl IH]; [apply le_zero_hundred |].
    destruct l as [| w l]; [exact Hv | exact IH].
Qed.

Lemma sender_progress_bounded_witness :
  exists s pg',
    transfer 65536 sampleEnv sampleFile openPage 0 = Some (s, pg')
    /\ nondecreasing (displayed (trace s))
    /\ Forall (fun v => le v (ofZ 100)) (displayed (trace s))
    /\ le (progress pg') (ofZ 100).
Proof.
  destruct (transfer 65536 sampleEnv sampleFile openPage 0) as [[s pg'] |] eqn:Hrun;
    [| vm_compute in Hrun; discriminate Hrun].
  exists s, pg'. split; [reflexivity |].
  apply (sender_progress_bounded 65536 sampleEnv sampleFile openPage 0 s pg');
    [reflexivity | exact Hrun].
Defined.



Lemma sendLoop_calm (T : Z) (env : nat -> Reading) (rd : list Chunk) :
  forall (s : Sender) (pg : Page),
    calm T env (reads s) (length rd) ->
    exists s1 pg1,
      sendLoop T env rd s pg = sendLoop T env [] s1 pg1
      /\ reads s1 = (reads s + length rd)%nat
      /\ wire (trace s1) = (wire (trace s) ++ map Binary rd)%list
      /\ toasts pg1 = toasts pg.
Proof.
  induction rd as [| value rest IH]; intros s pg Hcalm.
  - exists s, pg. cbn [length map]. rewrite Nat.add_0_r, app_nil_r. auto.
  - destruct (Hcalm (reads s)) as (Hcheck & Hread & Hbuf); [cbn [length]; lia |].
    cbn [sendLoop]. rewrite Hcheck, Hread.
    destruct (T <? buffered (env (reads s))) eqn:Hb; [apply Z.ltb_lt in Hb; lia |].
    match goal with
    | |- context [sendLoop T env rest ?s' ?pg'] =>
        destruct (IH s' pg') as (s1 & pg1 & Hrun & Hreads & Hwire & Htoasts)
    end.
    { intros k Hk. apply Hcalm. cbn [reads length] in *. lia. }
    exists s1, pg1. split; [exact Hrun |].
    cbn [reads trace] in *. split; [cbn [length]; lia |].
    split; [| exact Htoasts].
    rewrite Hwire, wire_app. cbn. rewrite <- app_assoc. reflexivity.
Qed.

(** X13: if the channel goes away while the sender waits for the read that
    reports the end of the file, no [eof] is sent and nothing repairs that
    later: when the channel is merely no longer open the sender still
    shows its success notice; when [cleanup] has emptied the ref the
    function throws a [TypeError] instead.  Either way the receiver, which
    has every byte, never builds the file. *)
Theorem channel_lost_before_eof (T : Z) (env : nat -> Reading) (f : File)
    (pg : Page) (v : ChannelView) :
  currentView pg = view_open ->
  calm T env 0 (length (stream f)) ->
  atCheck (env (length (stream f))) = view_open ->
  buffered (env (length (stream f))) <= T ->
  afterRead (env (length (stream f))) = v ->
  v <> view_open ->
  exists s pg',
    transfer T env f pg 0 = Some (s, pg')
    /\ wire (trace s) = Text (Metadata (name f) (size f)) :: map Binary (stream f)
    /\ outcome s = match v with view_null => Rejected TypeError | _ => Done end
    /\ toasts pg' = (toasts pg ++ match v with view_not_open => [ToastSuccess] | _ => [] end)%list
    /\ (forall n, afterEvents T env n (s, pg') = (s, pg'))
    /\ forall (rc0 : Receiver) (pgR : Page),
         receivedFile (snd (receiveAll (wire (trace s)) (rc0, pgR))) = receivedFile pgR.
Proof.
  intros Hview Hcalm Hcheck Hbuf Hread Hv.
  unfold transfer, handleSendFile. rewrite Hview.
  unfold sendNextChunk. cbn [fst snd reader].
  set (pg1 := setProgress _ _).
  set (s0 := Build_Sender _ _ _ _ _ _ _).
  destruct (sendLoop_calm T env (stream f) s0 pg1 Hcalm)
    as (s1 & pg2 & Hrun & Hreads & Hwire & Htoasts).
  rewrite Hrun. cbn [sendLoop]. cbn [reads s0] in Hreads. rewrite Hreads.
  cbn [Nat.add]. rewrite Hcheck, Hread.
  destruct (T <? buffered (env (length (stream f)))) eqn:Hb;
    [apply Z.ltb_lt in Hb; lia |].
  assert (Hrecv : forall (rc0 : Receiver) (pgR : Page),
             receivedFile
               (snd (receiveAll (Text (Metadata (name f) (size f)) :: map Binary (stream f))
                       (rc0, pgR))) = receivedFile pgR).
  { intros rc0 pgR. rewrite receiveAll_cons. cbn [onmessage].
    rewrite receiveAll_binary. reflexivity. }
  destruct v; [| | congruence]; eexists _, _; (split; [reflexivity |]);
    cbn [afterEvents leave trace outcome toasts toast];
    rewrite wire_app, Hwire, Htoasts; cbn [wire trace s0 toasts pg1 setProgress
      setTransferMode setFileSize setFileName app]; rewrite !app_nil_r;
    (split; [reflexivity |]); (split; [reflexivity |]); (split; [reflexivity |]);
    (split; [intros n; apply afterEvents_idle; reflexivity | exact Hrecv]).
Qed.

Lemma channel_lost_before_eof_witness :
  let env := fun k : nat =>
               {| atCheck := view_open; buffered := 0;
                  afterRead := if (k =? 2)%nat then view_not_open else view_open |} in
  exists s pg',
    transfer 65536 env sampleFile openPage 0 = Some (s, pg')
    /\ wire (trace s)
       = Text (Metadata (name sampleFile) (size sampleFile)) :: map Binary (stream sampleFile)
    /\ outcome s = Done
    /\ toasts pg' = (toasts openPage ++ [ToastSuccess])%list
    /\ (forall n, afterEvents 65536 env n (s, pg') = (s, pg'))
    /\ forall (rc0 : Receiver) (pgR : Page),
         receivedFile (snd (receiveAll (wire (trace s)) (rc0, pgR))) = receivedFile pgR.
Proof.
  intros env.
  apply (channel_lost_before_eof 65536 env sampleFile openPage view_not_open).
  - reflexivity.
  - intros k Hk. cbn [stream sampleFile length] in Hk.
    assert (Hc : k = 0%nat \/ k = 1%nat) by lia.
    destruct Hc as [-> | ->]; cbn; repeat split; lia.
  - reflexivity.
  - cbn. lia.
  - reflexivity.
  - discriminate.
Defined.

(** ** Connecting: [handleConnect] and the two listeners together *)

Lemma fresh_connection (pg : Page) : connections pg !! fresh (dom (connections pg)) = None.
Proof. apply not_elem_of_dom. apply is_fresh. Qed.

Lemma fresh_channel (pg : Page) : channels pg !! fresh (dom (channels pg)) = None.
Proof. apply not_elem_of_dom. apply is_fresh. Qed.

Lemma length_six_not_empty (s : string) : String.length s = 6%nat -> String.eqb s "" = false.
Proof. destruct s; [discriminate | reflexivity]. Qed.

(** What a [handleConnect] that gets its offer does. *)
Lemma handleConnect_offers (o : string) (now : Z) (pg : Page) (st : Signaling.Store) :
  String.length (recipientId pg) = 6%nat ->
  exists pg1,
    handleConnect true (Return o) now (pg, st)
    = (pg1,
       <[recipientId pg :=
           {| Signaling.offer := Some o; Signaling.answer := None;
              Signaling.senderCandidates := Some [];
              Signaling.receiverCandidates := Some [];
              Signaling.createdAt := Some now |}]> st,
       None)
    /\ recipientId pg1 = recipientId pg
    /\ connectionStatus pg1 = connecting
    /\ peerConnection pg1 = Some (fresh (dom (connections pg)))
    /\ dataChannel pg1 = Some (fresh (dom (channels pg)))
    /\ connections pg1 !! fresh (dom (connections pg))
       = Some {| signalingState := have_local_offer; localDescription := Some o;
                 remoteDescription := None; iceCalls := [] |}
    /\ channels pg1 = <[fresh (dom (channels pg)) := ready_connecting]> (channels pg)
    /\ (forall pc, pc <> fresh (dom (connections pg)) ->
          connections pg1 !! pc = connections pg !! pc).
Proof.
  intros Hlen. unfold handleConnect.
  rewrite (length_six_not_empty _ Hlen), Hlen. cbn.
  eexists. split; [reflexivity |]. cbn.
  repeat split.
  - rewrite lookup_alter_eq, lookup_insert_eq. reflexivity.
  - intros pc Hne. rewrite lookup_alter_ne, lookup_insert_ne by congruence. reflexivity.
Qed.

Lemma alter_present {A} (g : A -> A) (k : nat) (m : gmap nat A) (x : A) :
  m !! k = Some x -> alter g k m = <[k := g x]> m.
Proof.
  intros Hk. apply map_eq. intros i. destruct (decide (k = i)) as [<- | Hne].
  - rewrite lookup_alter_eq, lookup_insert_eq, Hk. reflexivity.
  - rewrite lookup_alter_ne, lookup_insert_ne by exact Hne. reflexivity.
Qed.

Lemma setConnections_same (pg : Page) (pc : nat) (c : PeerConnection) :
  connections pg !! pc = Some c ->
  setConnections (<[pc := withCalls c []]> (connections pg)) pg = pg.
Proof.
  intros Hc. unfold withCalls. rewrite app_nil_r.
  replace {| signalingState := signalingState c; localDescription := localDescription c;
             remoteDescription := remoteDescription c; iceCalls := iceCalls c |}
    with c by (destruct c; reflexivity).
  rewrite insert_id by exact Hc. destruct pg; reflexivity.
Qed.

(** The responder's [forEach] changes nothing on the page but the calls the
    current connection has seen. *)
Lemma feedCurrent_fold (validCandidate : string -> bool) (pc : nat) (cands : list string) :
  forall (pg : Page) (c : PeerConnection),
    peerConnection pg = Some pc ->
    connections pg !! pc = Some c ->
    fold_left (feedCurrent validCandidate) cands pg
    = setConnections
        (<[pc := withCalls c (filter (fun x => validCandidate x = true) cands)]>
           (connections pg)) pg.
Proof.
  induction cands as [| x cands IH]; intros pg c Hpc Hc.
  - cbn. symmetry. apply setConnections_same. exact Hc.
  - cbn [fold_left]. unfold feedCurrent at 2. rewrite Hpc.
    destruct (validCandidate x) eqn:Hx.
    + rewrite (IH (addIceCandidate pc x pg) (withCalls c [x]));
        [| exact Hpc
         | unfold addIceCandidate; cbn [connections setConnections];
           rewrite lookup_alter_eq, Hc; reflexivity].
      rewrite filter_cons_True by exact Hx.
      unfold addIceCandidate, withCalls. cbn.
      rewrite (alter_present _ pc (connections pg) c Hc), insert_insert_eq.
      rewrite <- app_assoc. reflexivity.
    + rewrite (IH pg c Hpc Hc), filter_cons_False by congruence. reflexivity.
Qed.

(** So does the initiator's, on the connection it captured. *)
Lemma feed_fold (validCandidate : string -> bool) (pc : nat) (cands : list string) :
  forall (pg : Page) (c : PeerConnection),
    connections pg !! pc = Some c ->
    fold_left (feed validCandidate pc) cands pg
    = setConnections
        (<[pc := withCalls c (filter (fun x => validCandidate x = true) cands)]>
           (connections pg)) pg.
Proof.
  induction cands as [| x cands IH]; intros pg c Hc.
  - cbn. symmetry. apply setConnections_same. exact Hc.
  - cbn [fold_left]. unfold feed at 2.
    destruct (validCandidate x) eqn:Hx.
    + rewrite (IH (addIceCandidate pc x pg) (withCalls c [x]));
        [| unfold addIceCandidate; cbn [connections setConnections];
           rewrite lookup_alter_eq, Hc; reflexivity].
      rewrite filter_cons_True by exact Hx.
      unfold addIceCandidate, withCalls. cbn.
      rewrite (alter_present _ pc (connections pg) c Hc), insert_insert_eq.
      rewrite <- app_assoc. reflexivity.
    + rewrite (IH pg c Hc), filter_cons_False by congruence. reflexivity.
Qed.

(** What the responder's listener does with an offer when the page has no
    connection. *)
Lemma onOwnSnapshot_accepts (validDescription validCandidate : string -> bool)
    (createAnswer : string -> string) (id o : string) (d : Signaling.SessionDoc)
    (pg : Page) (st : Signaling.Store) :
  peerConnection pg = None ->
  Signaling.offer d = Some o ->
  o <> "" ->
  validDescription o = true ->
  exists pg1 c,
    onOwnSnapshot validDescription validCandidate createAnswer id (Some d) (pg, st)
    = (pg1, match Signaling.respondToSignalingSession id (createAnswer o) st with
            | Return st' => st'
            | Throw _ => st
            end)
    /\ peerConnection pg1 = Some (fresh (dom (connections pg)))
    /\ connectionStatus pg1 = connecting
    /\ connections pg1 !! fresh (dom (connections pg)) = Some c
    /\ signalingState c = stable
    /\ localDescription c = Some (createAnswer o)
    /\ remoteDescription c = Some o
    /\ iceCalls c = fedByOwn validCandidate (Some d)
    /\ (forall pc, pc <> fresh (dom (connections pg)) ->
          connections pg1 !! pc = connections pg !! pc).
Proof.
  intros Hnone Hoffer Hne Hvalid. unfold onOwnSnapshot.
  rewrite Hoffer, Hnone.
  assert (Htruthy : truthy (Some o) = true).
  { cbn. destruct (String.eqb_spec o ""); [congruence | reflexivity]. }
  rewrite Htruthy. cbn [setupPeerConnection]. rewrite Hvalid.
  set (pc := fresh (dom (connections (setConnectionStatus connecting pg)))).
  set (pg0 := setDescriptions pc stable (Some (createAnswer o)) (Some o) _).
  assert (Hpc : peerConnection pg0 = Some pc) by reflexivity.
  assert (Hc0 : connections pg0 !! pc
                = Some {| signalingState := stable;
                          localDescription := Some (createAnswer o);
                          remoteDescription := Some o; iceCalls := [] |}).
  { unfold pg0, setDescriptions. cbn [connections setConnections setPeerConnectionRef].
    rewrite lookup_alter_eq, lookup_insert_eq. reflexivity. }
  assert (Hother0 : forall h, h <> pc -> connections pg0 !! h = connections pg !! h).
  { intros h Hh. unfold pg0, setDescriptions.
    cbn [connections setConnections setPeerConnectionRef].
    rewrite lookup_alter_ne, lookup_insert_ne by congruence. reflexivity. }
  rewrite Hpc. cbn [fedByOwn].
  destruct (Signaling.senderCandidates d) as [cands |].
  - rewrite (feedCurrent_fold validCandidate pc cands pg0 _ Hpc Hc0).
    eexists _, _. split; [reflexivity |].
    cbn [peerConnection connectionStatus connections setConnections].
    rewrite lookup_insert_eq.
    split; [exact Hpc |]. split; [reflexivity |]. split; [reflexivity |].
    cbn. repeat split.
    intros h Hh. rewrite lookup_insert_ne by (intros Heq; apply Hh; symmetry; exact Heq).
    apply Hother0. exact Hh.
  - exists pg0, {| signalingState := stable; localDescription := Some (createAnswer o);
                   remoteDescription := Some o; iceCalls := [] |}.
    split; [reflexivity |]. split; [exact Hpc |]. split; [reflexivity |].
    split; [exact Hc0 |]. repeat split. exact Hother0.
Qed.

Lemma withCalls_twice (c : PeerConnection) (a b : list string) :
  withCalls (withCalls c a) b = withCalls c (a ++ b).
Proof. unfold withCalls. cbn. rewrite <- app_assoc. reflexivity. Qed.

(** A snapshot handled by the initiator's listener once its connection is
    stable: nothing changes but the calls the connection has seen. *)
Lemma onRecipientSnapshot_stable (validDescription validCandidate : string -> bool)
    (pc : nat) (data : option Signaling.SessionDoc) (pg : Page) (c : PeerConnection) :
  connections pg !! pc = Some c ->
  signalingState c = stable ->
  onRecipientSnapshot validDescription validCandidate pc data pg
  = setConnections (<[pc := withCalls c (fedBy validCandidate data)]> (connections pg)) pg.
Proof.
  intros Hc Hs. unfold onRecipientSnapshot, fedBy.
  destruct data as [d |]; [| symmetry; apply setConnections_same; exact Hc].
  assert (Hloop :
    match Signaling.receiverCandidates d with
    | Some cands => fold_left (feed validCandidate pc) cands pg
    | None => pg
    end
    = setConnections
        (<[pc := withCalls c
                   match Signaling.receiverCandidates d with
                   | Some cands => filter (fun x => validCandidate x = true) cands
                   | None => []
                   end]> (connections pg)) pg).
  { destruct (Signaling.receiverCandidates d) as [cands |].
    - apply feed_fold. exact Hc.
    - symmetry. apply setConnections_same. exact Hc. }
  destruct (Signaling.answer d) as [a |]; [| exact Hloop].
  destruct (truthy (Some a)); [| exact Hloop].
  unfold signalingStateOf. rewrite Hc, Hs. exact Hloop.
Qed.

(** X14: once the initiator's connection is stable, the answer has been
    applied and is never applied again: whatever the later snapshots hold
    (another answer, none, no document), they leave the page and the
    connection's descriptions as they are and only add calls to
    [addIceCandidate]. *)
Theorem answer_applied_once (validDescription validCandidate : string -> bool)
    (pc : nat) (snaps : list (option Signaling.SessionDoc)) (pg : Page)
    (c : PeerConnection) :
  connections pg !! pc = Some c ->
  signalingState c = stable ->
  deliverAll validDescription validCandidate pc snaps pg
  = setConnections
      (<[pc := withCalls c (flat_map (fedBy validCandidate) snaps)]> (connections pg)) pg.
Proof.
  revert pg c. induction snaps as [| d snaps IH]; intros pg c Hc Hs.
  - cbn. symmetry. apply setConnections_same. exact Hc.
  - unfold deliverAll. cbn [fold_left flat_map].
    fold (deliverAll validDescription validCandidate pc snaps
            (onRecipientSnapshot validDescription validCandidate pc d pg)).
    rewrite (onRecipientSnapshot_stable validDescription validCandidate pc d pg c Hc Hs).
    rewrite (IH _ (withCalls c (fedBy validCandidate d)));
      [| cbn [connections setConnections]; apply lookup_insert_eq | exact Hs].
    cbn [connections setConnections]. rewrite insert_insert_eq, withCalls_twice.
    reflexivity.
Qed.

Lemma answer_applied_once_witness :
  let pg := setConnections
              {[ 0%nat := {| signalingState := stable; localDescription := Some "offer";
                             remoteDescription := Some "answer"; iceCalls := ["c0"] |} ]}
              openPage in
  let snaps := [sampleSnapshot ["c1"]; None; sampleSnapshot ["c1"; "c2"]] in
  remoteDescription <$> connections (deliverAll (fun _ => true) (fun _ => true) 0 snaps pg) !! 0%nat
  = Some (Some "answer")
  /\ fedTo 0 (deliverAll (fun _ => true) (fun _ => true) 0 snaps pg)
     = ["c0"; "c1"; "c1"; "c2"].
Proof.
  intros pg snaps.
  rewrite (answer_applied_once (fun _ => true) (fun _ => true) 0 snaps pg
             {| signalingState := stable; localDescription := Some "offer";
                remoteDescription := Some "answer"; iceCalls := ["c0"] |}
             eq_refl eq_refl).
  split; reflexivity.
Defined.

(** The answer-carrying snapshot handled while the offer is pending. *)
Lemma onRecipientSnapshot_answer (validDescription validCandidate : string -> bool)
    (pc : nat) (d : Signaling.SessionDoc) (a : string) (pg : Page) (c : PeerConnection) :
  connections pg !! pc = Some c ->
  signalingState c = have_local_offer ->
  Signaling.answer d = Some a ->
  a <> "" ->
  validDescription a = true ->
  onRecipientSnapshot validDescription validCandidate pc (Some d) pg
  = setConnections
      (<[pc := withCalls {| signalingState := stable;
                            localDescription := localDescription c;
                            remoteDescription := Some a; iceCalls := iceCalls c |}
                 (fedBy validCandidate (Some d))]> (connections pg)) pg.
Proof.
  intros Hc Hs Ha Hne Hvalid. unfold onRecipientSnapshot, fedBy. rewrite Ha.
  assert (Htruthy : truthy (Some a) = true).
  { cbn. destruct (String.eqb_spec a ""); [congruence | reflexivity]. }
  rewrite Htruthy. unfold signalingStateOf. rewrite Hc, Hs, Hvalid.
  set (c1 := {| signalingState := stable; localDescription := localDescription c;
                remoteDescription := Some a; iceCalls := iceCalls c |}).
  set (pg1 := setDescriptions pc stable (localDescription c) (Some a) pg).
  assert (Hc1 : connections pg1 !! pc = Some c1).
  { unfold pg1, setDescriptions. cbn [connections setConnections].
    rewrite lookup_alter_eq, Hc. reflexivity. }
  assert (Hconn : <[pc := c1]> (connections pg) = connections pg1).
  { unfold pg1, setDescriptions. cbn [connections setConnections].
    rewrite (alter_present _ pc (connections pg) c Hc). reflexivity. }
  destruct (Signaling.receiverCandidates d) as [cands |].
  - rewrite (feed_fold validCandidate pc cands pg1 c1 Hc1).
    rewrite <- Hconn, insert_insert_eq. reflexivity.
  - rewrite <- (setConnections_same pg1 pc c1 Hc1) at 1.
    rewrite <- Hconn, insert_insert_eq. reflexivity.
Qed.

(** X15: the handshake.  The initiator publishes its offer with
    [handleConnect]; the responder's listener, given the snapshot of that
    document, takes the offer as remote description and publishes its
    answer; the initiator's listener, given the snapshot that follows,
    takes that answer.  Both connections end stable, each holding the
    other's description, and the document holds offer and answer. *)
Theorem handshake_exchanges_descriptions
    (validDescription validCandidate : string -> bool) (createAnswer : string -> string)
    (o : string) (now : Z) (pgA pgB : Page) (st : Signaling.Store) :
  String.length (recipientId pgA) = 6%nat ->
  peerConnection pgB = None ->
  o <> "" -> validDescription o = true ->
  createAnswer o <> "" -> validDescription (createAnswer o) = true ->
  let id := recipientId pgA in
  let pcA := fresh (dom (connections pgA)) in
  let pcB := fresh (dom (connections pgB)) in
  let '(pgA1, st1, notice) := handleConnect true (Return o) now (pgA, st) in
  let '(pgB1, st2) :=
    onOwnSnapshot validDescription validCandidate createAnswer id (snapshotOf id st1)
      (pgB, st1) in
  let pgA2 := onRecipientSnapshot validDescription validCandidate pcA (snapshotOf id st2) pgA1 in
  notice = None
  /\ snapshotOf id st2
     = Some {| Signaling.offer := Some o; Signaling.answer := Some (createAnswer o);
               Signaling.senderCandidates := Some [];
               Signaling.receiverCandidates := Some [];
               Signaling.createdAt := Some now |}
  /\ peerConnection pgB1 = Some pcB
  /\ connections pgB1 !! pcB
     = Some {| signalingState := stable; localDescription := Some (createAnswer o);
               remoteDescription := Some o; iceCalls := [] |}
  /\ peerConnection pgA2 = Some pcA
  /\ connections pgA2 !! pcA
     = Some {| signalingState := stable; localDescription := Some o;
               remoteDescription := Some (createAnswer o); iceCalls := [] |}.
Proof.
  intros Hlen HnoneB Ho Hvo Ha Hva id pcA pcB.
  destruct (handleConnect_offers o now pgA st Hlen)
    as (pgA1 & -> & _ & _ & HpcA & _ & HcA & _).
  set (doc1 := {| Signaling.offer := Some o; Signaling.answer := None;
                  Signaling.senderCandidates := Some [];
                  Signaling.receiverCandidates := Some [];
                  Signaling.createdAt := Some now |}).
  set (st1 := <[recipientId pgA := doc1]> st).
  assert (Hsnap1 : snapshotOf id st1 = Some doc1) by apply lookup_insert_eq.
  rewrite Hsnap1.
  destruct (onOwnSnapshot_accepts validDescription validCandidate createAnswer id o doc1
              pgB st1 HnoneB eq_refl Ho Hvo)
    as (pgB1 & cB & -> & HpcB & _ & HcB & HsB & HlB & HrB & HiB & _).
  assert (Hresp : Signaling.respondToSignalingSession id (createAnswer o) st1
                  = Return (<[id := {| Signaling.offer := Some o;
                                       Signaling.answer := Some (createAnswer o);
                                       Signaling.senderCandidates := Some [];
                                       Signaling.receiverCandidates := Some [];
                                       Signaling.createdAt := Some now |}]> st1)).
  { unfold Signaling.respondToSignalingSession, Signaling.updateDoc. cbn.
    unfold snapshotOf in Hsnap1. rewrite Hsnap1. reflexivity. }
  rewrite Hresp.
  set (doc2 := {| Signaling.offer := Some o; Signaling.answer := Some (createAnswer o);
                  Signaling.senderCandidates := Some [];
                  Signaling.receiverCandidates := Some [];
                  Signaling.createdAt := Some now |}).
  assert (Hsnap2 : snapshotOf id (<[id := doc2]> st1) = Some doc2) by apply lookup_insert_eq.
  rewrite Hsnap2.
  rewrite (onRecipientSnapshot_answer validDescription validCandidate pcA doc2
             (createAnswer o) pgA1 _ HcA eq_refl eq_refl Ha Hva).
  split; [reflexivity |]. split; [reflexivity |]. split; [exact HpcB |].
  split.
  { unfold pcB. rewrite HcB. destruct cB as [sB lB rB iB].
    cbn [signalingState localDescription remoteDescription iceCalls fedByOwn
         Signaling.senderCandidates doc1 filter] in *.
    rewrite HsB, HlB, HrB, HiB. reflexivity. }
  split; [exact HpcA |].
  cbn [connections setConnections]. unfold pcA. rewrite lookup_insert_eq. reflexivity.
Qed.

Lemma handshake_exchanges_descriptions_witness :
  let pgA := setRecipientId "100111" initialPage in
  let answer := fun o : string => "answer to " ++ o in
  let '(pgA1, st1, notice) := handleConnect true (Return "offer") 0 (pgA, ∅) in
  let '(pgB1, st2) :=
    onOwnSnapshot (fun _ => true) (fun _ => true) answer "100111"
      (snapshotOf "100111" st1) (initialPage, st1) in
  let pgA2 := onRecipientSnapshot (fun _ => true) (fun _ => true) 0
                (snapshotOf "100111" st2) pgA1 in
  notice = None
  /\ snapshotOf "100111" st2
     = Some {| Signaling.offer := Some "offer"; Signaling.answer := Some "answer to offer";
               Signaling.senderCandidates := Some [];
               Signaling.receiverCandidates := Some [];
               Signaling.createdAt := Some 0 |}
  /\ peerConnection pgB1 = Some 0%nat
  /\ connections pgB1 !! 0%nat
     = Some {| signalingState := stable; localDescription := Some "answer to offer";
               remoteDescription := Some "offer"; iceCalls := [] |}
  /\ peerConnection pgA2 = Some 0%nat
  /\ connections pgA2 !! 0%nat
     = Some {| signalingState := stable; localDescription := Some "offer";
               remoteDescription := Some "answer to offer"; iceCalls := [] |}.
Proof.
  apply (handshake_exchanges_descriptions (fun _ => true) (fun _ => true)
           (fun o => "answer to " ++ o) "offer" 0
           (setRecipientId "100111" initialPage) initialPage ∅);
    try reflexivity; discriminate.
Defined.

(** A snapshot handled by the responder's listener while the page has a
    connection: nothing changes but the calls that connection has seen. *)
Lemma onOwnSnapshot_busy (validDescription validCandidate : string -> bool)
    (createAnswer : string -> string) (id : string) (data : option Signaling.SessionDoc)
    (pg : Page) (st : Signaling.Store) (pc : nat) (c : PeerConnection) :
  peerConnection pg = Some pc ->
  connections pg !! pc = Some c ->
  onOwnSnapshot validDescription validCandidate createAnswer id data (pg, st)
  = (setConnections (<[pc := withCalls c (fedByOwn validCandidate data)]> (connections pg)) pg,
     st).
Proof.
  intros Hpc Hc. unfold onOwnSnapshot, fedByOwn.
  destruct data as [d |]; [| rewrite setConnections_same by exact Hc; reflexivity].
  rewrite Hpc.
  replace (match Signaling.offer d with
           | Some _ | _ => @inl (Page * Signaling.Store) (Page * Signaling.Store) (pg, st)
           end) with (@inl (Page * Signaling.Store) (Page * Signaling.Store) (pg, st))
    by (destruct (Signaling.offer d); reflexivity).
  rewrite Hpc.
  destruct (Signaling.senderCandidates d) as [cands |].
  - rewrite (feedCurrent_fold validCandidate pc cands pg c Hpc Hc). reflexivity.
  - rewrite setConnections_same by exact Hc. reflexivity.
Qed.

(** What every later delivery keeps while the page holds a connection. *)
Lemma deliverAllOwn_keeps (validDescription validCandidate : string -> bool)
    (createAnswer : string -> string) (id : string)
    (snaps : list (option Signaling.SessionDoc)) :
  forall (pg : Page) (st : Signaling.Store) (pc : nat) (c : PeerConnection),
    peerConnection pg = Some pc ->
    connections pg !! pc = Some c ->
    snd (deliverAllOwn validDescription validCandidate createAnswer id snaps (pg, st)) = st
    /\ connectionStatus
         (fst (deliverAllOwn validDescription validCandidate createAnswer id snaps (pg, st)))
       = connectionStatus pg
    /\ peerConnection
         (fst (deliverAllOwn validDescription validCandidate createAnswer id snaps (pg, st)))
       = Some pc.
Proof.
  induction snaps as [| d snaps IH]; intros pg st pc c Hpc Hc; [cbn; auto |].
  unfold deliverAllOwn. cbn [fold_left].
  fold (deliverAllOwn validDescription validCandidate createAnswer id snaps
          (onOwnSnapshot validDescription validCandidate createAnswer id d (pg, st))).
  rewrite (onOwnSnapshot_busy validDescription validCandidate createAnswer id d pg st pc c
             Hpc Hc).
  match goal with
  | |- context [deliverAllOwn _ _ _ _ snaps (?pg1, st)] =>
      destruct (IH pg1 st pc (withCalls c (fedByOwn validCandidate d)))
        as (Hstore & Hstatus & Hpc');
      [exact Hpc | cbn [connections setConnections]; apply lookup_insert_eq |];
      rewrite Hstore, Hstatus, Hpc'
  end.
  auto.
Qed.

(** X16: while the page holds a connection the responder's listener never
    takes an offer: however many snapshots arrive and whatever they hold,
    no connection is made, nothing is written to the store, status and
    descriptions stay; only the sender's candidates are fed, again at
    every delivery. *)
Theorem offers_ignored_while_connected (validDescription validCandidate : string -> bool)
    (createAnswer : string -> string) (id : string)
    (snaps : list (option Signaling.SessionDoc))
    (pg : Page) (st : Signaling.Store) (pc : nat) (c : PeerConnection) :
  peerConnection pg = Some pc ->
  connections pg !! pc = Some c ->
  deliverAllOwn validDescription validCandidate createAnswer id snaps (pg, st)
  = (setConnections
       (<[pc := withCalls c (flat_map (fedByOwn validCandidate) snaps)]> (connections pg)) pg,
     st).
Proof.
  revert pg c. induction snaps as [| d snaps IH]; intros pg c Hpc Hc.
  - cbn. rewrite setConnections_same by exact Hc. reflexivity.
  - unfold deliverAllOwn. cbn [fold_left flat_map].
    fold (deliverAllOwn validDescription validCandidate createAnswer id snaps
            (onOwnSnapshot validDescription validCandidate createAnswer id d (pg, st))).
    rewrite (onOwnSnapshot_busy validDescription validCandidate createAnswer id d pg st pc c
               Hpc Hc).
    rewrite (IH _ (withCalls c (fedByOwn validCandidate d)));
      [| exact Hpc | cbn [connections setConnections]; apply lookup_insert_eq].
    cbn [connections setConnections]. rewrite insert_insert_eq, withCalls_twice.
    reflexivity.
Qed.

Lemma offers_ignored_while_connected_witness :
  let snaps := [sampleSnapshot ["c1"]; sampleSnapshot ["c1"]] in
  deliverAllOwn (fun _ => true) (fun _ => true) (fun o => o) "482913" snaps (openPage, ∅)
  = (setConnections
       (<[0%nat := withCalls {| signalingState := have_local_offer;
                                localDescription := Some "offer";
                                remoteDescription := None; iceCalls := [] |}
                     (flat_map (fedByOwn (fun _ => true)) snaps)]> (connections openPage))
       openPage, ∅).
Proof.
  intros snaps.
  apply (offers_ignored_while_connected (fun _ => true) (fun _ => true) (fun o => o)
           "482913" snaps openPage ∅ 0); reflexivity.
Defined.

(** X17: nothing deletes the session document, so a dropped session comes
    back: after the responder has answered an offer and its connection has
    failed ([cleanup] ran), the next snapshot of the same document still
    carries that offer, and the listener opens a second connection for it
    and publishes an answer again, the first connection staying closed. *)
Theorem dropped_session_answered_again
    (validDescription validCandidate : string -> bool) (createAnswer : string -> string)
    (id o : string) (d : Signaling.SessionDoc) (pg : Page) (st : Signaling.Store) :
  peerConnection pg = None ->
  st !! id = Some d ->
  Signaling.offer d = Some o ->
  o <> "" ->
  validDescription o = true ->
  exists pg1 st1 pg2 d' pg3 st3 pc2,
    onOwnSnapshot validDescription validCandidate createAnswer id (Some d) (pg, st)
    = (pg1, st1)
    /\ onconnectionstatechange state_failed pg1 = Return pg2
    /\ peerConnection pg2 = None
    /\ snapshotOf id st1 = Some d'
    /\ Signaling.offer d' = Some o
    /\ onOwnSnapshot validDescription validCandidate createAnswer id (snapshotOf id st1)
         (pg2, st1) = (pg3, st3)
    /\ peerConnection pg3 = Some pc2
    /\ pc2 <> fresh (dom (connections pg))
    /\ connectionStatus pg3 = connecting
    /\ (signalingState <$> connections pg3 !! fresh (dom (connections pg))) = Some closed
    /\ (signalingState <$> connections pg3 !! pc2) = Some stable
    /\ (Signaling.answer <$> snapshotOf id st3) = Some (Some (createAnswer o)).
Proof.
  intros Hnone Hd Hoffer Ho Hvo.
  destruct (onOwnSnapshot_accepts validDescription validCandidate createAnswer id o d
              pg st Hnone Hoffer Ho Hvo)
    as (pg1 & c1 & Hstep1 & Hpc1 & _ & Hc1 & _).
  set (pc1 := fresh (dom (connections pg))) in *.
  assert (Hresp : Signaling.respondToSignalingSession id (createAnswer o) st
                  = Return (<[id := {| Signaling.offer := Signaling.offer d;
                                       Signaling.answer := Some (createAnswer o);
                                       Signaling.senderCandidates :=
                                         Signaling.senderCandidates d;
                                       Signaling.receiverCandidates :=
                                         Signaling.receiverCandidates d;
                                       Signaling.createdAt := Signaling.createdAt d |}]> st)).
  { unfold Signaling.respondToSignalingSession, Signaling.updateDoc. cbn.
    rewrite Hd. reflexivity. }
  rewrite Hresp in Hstep1.
  set (d' := {| Signaling.offer := Signaling.offer d;
                Signaling.answer := Some (createAnswer o);
                Signaling.senderCandidates := Signaling.senderCandidates d;
                Signaling.receiverCandidates := Signaling.receiverCandidates d;
                Signaling.createdAt := Signaling.createdAt d |}) in *.
  set (st1 := <[id := d']> st) in *.
  assert (Hsnap : snapshotOf id st1 = Some d') by apply lookup_insert_eq.
  assert (Hfail : exists pg2,
             onconnectionstatechange state_failed pg1 = Return pg2
             /\ peerConnection pg2 = None
             /\ connections pg2 = connections (closeConnection pc1 pg1)).
  { unfold onconnectionstatechange. rewrite cleanup_returns, Hpc1. cbn.
    eexists. split; [reflexivity |]. split; reflexivity. }
  destruct Hfail as (pg2 & Hfail & Hnone2 & Hconn2).
  assert (Hclosed : connections pg2 !! pc1
                    = Some {| signalingState := closed;
                              localDescription := localDescription c1;
                              remoteDescription := remoteDescription c1;
                              iceCalls := iceCalls c1 |}).
  { rewrite Hconn2. unfold closeConnection. cbn [connections setConnections].
    rewrite lookup_alter_eq, Hc1. reflexivity. }
  destruct (onOwnSnapshot_accepts validDescription validCandidate createAnswer id o d'
              pg2 st1 Hnone2 Hoffer Ho Hvo)
    as (pg3 & c3 & Hstep3 & Hpc3 & Hstatus3 & Hc3 & Hs3 & _ & _ & _ & Hother3).
  set (pc2 := fresh (dom (connections pg2))) in *.
  assert (Hne : pc2 <> pc1).
  { intros Heq. pose proof (fresh_connection pg2) as Hfresh.
    fold pc2 in Hfresh. rewrite Heq, Hclosed in Hfresh. discriminate Hfresh. }
  assert (Hresp3 : Signaling.respondToSignalingSession id (createAnswer o) st1
                   = Return (<[id := d']> st1)).
  { unfold Signaling.respondToSignalingSession, Signaling.updateDoc. cbn.
    unfold snapshotOf in Hsnap. rewrite Hsnap. reflexivity. }
  rewrite Hresp3 in Hstep3.
  exists pg1, st1, pg2, d', pg3, (<[id := d']> st1), pc2.
  split; [exact Hstep1 |]. split; [exact Hfail |]. split; [exact Hnone2 |].
  split; [exact Hsnap |]. split; [exact Hoffer |].
  split; [rewrite Hsnap; exact Hstep3 |].
  split; [exact Hpc3 |]. split; [exact Hne |]. split; [exact Hstatus3 |].
  split; [rewrite (Hother3 pc1) by congruence; rewrite Hclosed; reflexivity |].
  split; [rewrite Hc3; cbn; rewrite Hs3; reflexivity |].
  unfold snapshotOf. rewrite lookup_insert_eq. reflexivity.
Qed.

Lemma dropped_session_answered_again_witness :
  let d := {| Signaling.offer := Some "offer"; Signaling.answer := None;
              Signaling.senderCandidates := Some []; Signaling.receiverCandidates := Some [];
              Signaling.createdAt := Some 0 |} in
  exists pg3 pc2,
    peerConnection pg3 = Some pc2
    /\ pc2 <> fresh (dom (connections initialPage))
    /\ connectionStatus pg3 = connecting
    /\ (signalingState <$> connections pg3 !! fresh (dom (connections initialPage)))
       = Some closed.
Proof.
  intros d.
  destruct (dropped_session_answered_again (fun _ => true) (fun _ => true) (fun o => o)
              "482913" "offer" d initialPage {[ "482913" := d ]})
    as (pg1 & st1 & pg2 & d' & pg3 & st3 & pc2 & _ & _ & _ & _ & _ & _ & H1 & H2 & H3 & H4 & _);
    try reflexivity; try discriminate.
  exists pg3, pc2. auto.
Defined.

Lemma onicecandidate_writes (id cand : string) (role : Signaling.Role)
    (st : Signaling.Store) (d : Signaling.SessionDoc) :
  st !! id = Some d ->
  exists d' l,
    snapshotOf id (onicecandidate true id role (Some cand) st) = Some d'
    /\ candidatesOf role d' = Some l
    /\ cand ∈ l
    /\ candidatesOf (otherRole role) d' = candidatesOf (otherRole role) d.
Proof.
  intros Hd. unfold onicecandidate.
  destruct (addIceCandidate_present id cand role st d Hd)
    as (d' & -> & Hrole & Hother & _).
  destruct (arrayUnion_grows cand (candidatesOf role d)) as (old & added & _ & _ & Hu & Hin & _).
  exists d', (old ++ added)%list.
  split; [apply lookup_insert_eq |]. split; [rewrite Hrole; exact Hu |].
  split; [exact Hin | exact Hother].
Qed.

(** X18: a candidate a connection discovers reaches the peer.  Written by
    the initiator's [onicecandidate] to an existing session document, it
    is fed to the responder's connection by the snapshot that follows;
    written by the responder's, it is fed to the initiator's.  It does not
    come back to the side that wrote it: the initiator's listener feeds
    the same calls as before the write. *)
Theorem candidate_reaches_peer (validDescription validCandidate : string -> bool)
    (createAnswer : string -> string) (id cand : string)
    (d : Signaling.SessionDoc) (st : Signaling.Store) :
  st !! id = Some d ->
  validCandidate cand = true ->
  (forall pgB pcB cB,
      peerConnection pgB = Some pcB ->
      connections pgB !! pcB = Some cB ->
      let st' := onicecandidate true id Signaling.sender (Some cand) st in
      cand ∈ fedTo pcB (fst (onOwnSnapshot validDescription validCandidate createAnswer
                               id (snapshotOf id st') (pgB, st'))))
  /\ (forall pgA pcA cA,
        connections pgA !! pcA = Some cA ->
        signalingState cA = stable ->
        let st' := onicecandidate true id Signaling.receiver (Some cand) st in
        cand ∈ fedTo pcA (onRecipientSnapshot validDescription validCandidate pcA
                            (snapshotOf id st') pgA))
  /\ (forall pgA pcA cA,
        connections pgA !! pcA = Some cA ->
        signalingState cA = stable ->
        let st' := onicecandidate true id Signaling.sender (Some cand) st in
        fedTo pcA (onRecipientSnapshot validDescription validCandidate pcA
                     (snapshotOf id st') pgA)
        = fedTo pcA (onRecipientSnapshot validDescription validCandidate pcA
                       (snapshotOf id st) pgA)).
Proof.
  intros Hd Hvalid. split; [| split].
  - intros pgB pcB cB Hpc Hc st'. unfold st'.
    destruct (onicecandidate_writes id cand Signaling.sender st d Hd)
      as (d' & l & -> & Hl & Hin & _).
    rewrite (onOwnSnapshot_busy validDescription validCandidate createAnswer id (Some d')
               pgB _ pcB cB Hpc Hc).
    unfold fedTo. cbn [fst connections setConnections]. rewrite lookup_insert_eq.
    cbn [withCalls iceCalls fedByOwn]. cbn [candidatesOf] in Hl. rewrite Hl.
    apply elem_of_app. right. apply list_elem_of_filter. auto.
  - intros pgA pcA cA Hc Hs st'. unfold st'.
    destruct (onicecandidate_writes id cand Signaling.receiver st d Hd)
      as (d' & l & -> & Hl & Hin & _).
    rewrite (onRecipientSnapshot_stable validDescription validCandidate pcA (Some d')
               pgA cA Hc Hs).
    unfold fedTo. cbn [connections setConnections]. rewrite lookup_insert_eq.
    cbn [withCalls iceCalls fedBy]. cbn [candidatesOf] in Hl. rewrite Hl.
    apply elem_of_app. right. apply list_elem_of_filter. auto.
  - intros pgA pcA cA Hc Hs st'. unfold st'.
    destruct (onicecandidate_writes id cand Signaling.sender st d Hd)
      as (d' & l & -> & _ & _ & Hother).
    rewrite !(onRecipientSnapshot_stable validDescription validCandidate pcA _ pgA cA Hc Hs).
    unfold fedTo. cbn [connections setConnections]. rewrite !lookup_insert_eq.
    unfold snapshotOf. rewrite Hd. cbn [withCalls iceCalls fedBy].
    cbn [otherRole candidatesOf] in Hother. rewrite Hother. reflexivity.
Qed.

Lemma candidate_reaches_peer_witness :
  let d := {| Signaling.offer := Some "offer"; Signaling.answer := Some "answer";
              Signaling.senderCandidates := Some []; Signaling.receiverCandidates := Some [];
              Signaling.createdAt := Some 0 |} in
  let st := {[ "482913" := d ]} : Signaling.Store in
  let st' := onicecandidate true "482913" Signaling.sender (Some "c1") st in
  "c1" ∈ fedTo 0 (fst (onOwnSnapshot (fun _ => true) (fun _ => true) (fun o => o)
                        "482913" (snapshotOf "482913" st') (openPage, st'))).
Proof.
  intros d st.
  destruct (candidate_reaches_peer (fun _ => true) (fun _ => true) (fun o => o)
              "482913" "c1" d st eq_refl eq_refl) as (Hto & _ & _).
  apply (Hto openPage 0%nat
           {| signalingState := have_local_offer; localDescription := Some "offer";
              remoteDescription := None; iceCalls := [] |}); reflexivity.
Defined.

(** ** The controls *)

Lemma length_string_of_list_ascii (l : list ascii) :
  String.length (string_of_list_ascii l) = length l.
Proof. induction l as [| c l IH]; cbn; congruence. Qed.

Lemma forallb_filter_same {A} (p : A -> bool) (l : list A) :
  forallb p (List.filter p l) = true.
Proof.
  induction l as [| x l IH]; [reflexivity |].
  cbn [List.filter]. destruct (p x) eqn:Hx; [cbn; rewrite Hx; exact IH | exact IH].
Qed.

Lemma forallb_firstn {A} (p : A -> bool) (n : nat) (l : list A) :
  forallb p l = true -> forallb p (firstn n l) = true.
Proof.
  revert n. induction l as [| x l IH]; intros n Hall; destruct n; try reflexivity.
  cbn in *. apply andb_prop in Hall as [Hx Hall]. rewrite Hx. apply IH. exact Hall.
Qed.

Lemma filter_all {A} (p : A -> bool) (l : list A) :
  forallb p l = true -> List.filter p l = l.
Proof.
  induction l as [| x l IH]; [reflexivity |].
  cbn. intros Hall. apply andb_prop in Hall as [Hx Hall]. rewrite Hx, IH by exact Hall.
  reflexivity.
Qed.

Lemma sanitize_digits (l : list ascii) :
  forallb isDigit l = true -> (length l <= 6)%nat ->
  sanitizeRecipientId (string_of_list_ascii l) = string_of_list_ascii l.
Proof.
  intros Hall Hlen. unfold sanitizeRecipientId.
  rewrite list_ascii_of_string_of_list_ascii, filter_all by exact Hall.
  rewrite firstn_all2 by exact Hlen. reflexivity.
Qed.

Lemma sanitize_kept (typed : string) :
  (String.length (sanitizeRecipientId typed) <= 6)%nat
  /\ forallb isDigit (list_ascii_of_string (sanitizeRecipientId typed)) = true.
Proof.
  unfold sanitizeRecipientId.
  rewrite length_string_of_list_ascii, list_ascii_of_string_of_list_ascii.
  split; [apply firstn_le_length | apply forallb_firstn, forallb_filter_same].
Qed.

(** X19: what the recipient field keeps of any typed text is at most six
    characters, all decimal digits; text that is already such an id is
    kept as it is (so typing is idempotent), and every id [generateId]
    hands out, for any double of the random source in [0, 1), can be typed
    in unchanged. *)
Theorem recipient_field_keeps_digits (typed : string) :
  (String.length (sanitizeRecipientId typed) <= 6)%nat
  /\ forallb isDigit (list_ascii_of_string (sanitizeRecipientId typed)) = true
  /\ sanitizeRecipientId (sanitizeRecipientId typed) = sanitizeRecipientId typed
  /\ forall random : Double,
       inUnitInterval random ->
       sanitizeRecipientId (Signaling.generateId random) = Signaling.generateId random
       /\ String.length (sanitizeRecipientId (Signaling.generateId random)) = 6%nat.
Proof.
  set (kept := firstn 6 (List.filter isDigit (list_ascii_of_string typed))).
  assert (Hlen : (length kept <= 6)%nat) by apply firstn_le_length.
  assert (Hall : forallb isDigit kept = true)
    by (apply forallb_firstn, forallb_filter_same).
  split; [unfold sanitizeRecipientId; fold kept;
          rewrite length_string_of_list_ascii; exact Hlen |].
  split; [unfold sanitizeRecipientId; fold kept;
          rewrite list_ascii_of_string_of_list_ascii; exact Hall |].
  split; [unfold sanitizeRecipientId at 2 3; fold kept;
          apply sanitize_digits; assumption |].
  intros random Hrandom.
  pose proof (generateId_range random Hrandom) as Hrange.
  unfold Signaling.generateId.
  destruct (toString_digits 5
              (Math_floor (integerPlus 100000 (timesInteger (units random) 900000))))
    as (d & rest & Hd & Hrest & Hdigits & Heq & _).
  { change (10 ^ Z.of_nat 5) with 100000. change (10 ^ Z.of_nat 6) with 1000000. lia. }
  rewrite Heq.
  change (String (digitChar d) (string_of_list_ascii rest))
    with (string_of_list_ascii (digitChar d :: rest)).
  rewrite sanitize_digits.
  - split; [reflexivity |]. rewrite length_string_of_list_ascii. cbn. lia.
  - cbn. rewrite isDigit_digitChar by lia. exact Hdigits.
  - cbn. lia.
Qed.

Example recipient_field_sample :
  sanitizeRecipientId "48-29 13x7" = "482913" /\ sanitizeRecipientId "000111" = "000111".
Proof. split; reflexivity. Qed.

Lemma handleConnect_refs (offer : Exc string) (now : Z) (pg : Page) (st : Signaling.Store) :
  String.length (recipientId pg) = 6%nat ->
  exists pg1 st1 notice,
    handleConnect true offer now (pg, st) = (pg1, st1, notice)
    /\ notice = match offer with Return _ => None | Throw _ => Some NoticeConnectionError end
    /\ (forall other, other <> recipientId pg -> st1 !! other = st !! other)
    /\ match offer with Return _ => True | Throw _ => st1 = st end
    /\ recipientId pg1 = recipientId pg
    /\ connectionStatus pg1
       = match offer with Return _ => connecting | Throw _ => disconnected end
    /\ peerConnection pg1 = Some (fresh (dom (connections pg)))
    /\ dataChannel pg1 = Some (fresh (dom (channels pg)))
    /\ is_Some (connections pg1 !! fresh (dom (connections pg)))
    /\ channels pg1 = <[fresh (dom (channels pg)) := ready_connecting]> (channels pg)
    /\ (forall pc, pc <> fresh (dom (connections pg)) ->
          connections pg1 !! pc = connections pg !! pc).
Proof.
  intros Hlen. unfold handleConnect.
  rewrite (length_six_not_empty _ Hlen), Hlen. cbn.
  destruct offer as [o | e]; cbn; eexists _, _, _; (split; [reflexivity |]); cbn;
    repeat split; try reflexivity.
  - intros other Hne. apply lookup_insert_ne. congruence.
  - rewrite lookup_alter_eq, lookup_insert_eq. cbn. eauto.
  - intros pc Hne. rewrite lookup_alter_ne, lookup_insert_ne by congruence. reflexivity.
  - rewrite lookup_insert_eq. eauto.
  - intros pc Hne. rewrite lookup_insert_ne by congruence. reflexivity.
Qed.

(** X20: when the Connect button is enabled for what was typed, the page
    is disconnected and the recipient id is six decimal digits, so
    [handleConnect] with a database never answers "invalid id"; without a
    database it answers "invalid id" all the same and does nothing. *)
Theorem connect_enabled_means_valid (typed : string) (pg : Page)
    (offer : Exc string) (now : Z) (st : Signaling.Store) :
  connectDisabled (onRecipientChange typed pg) = false ->
  connectionStatus pg = disconnected
  /\ String.length (recipientId (onRecipientChange typed pg)) = 6%nat
  /\ forallb isDigit (list_ascii_of_string (recipientId (onRecipientChange typed pg))) = true
  /\ snd (handleConnect true offer now (onRecipientChange typed pg, st))
     <> Some NoticeInvalidId
  /\ handleConnect false offer now (onRecipientChange typed pg, st)
     = (onRecipientChange typed pg, st, Some NoticeInvalidId).
Proof.
  intros Hen. unfold connectDisabled in Hen.
  apply orb_false_elim in Hen as [Hst Hlen].
  apply negb_false_iff in Hst, Hlen. apply Nat.eqb_eq in Hlen.
  cbn [connectionStatus onRecipientChange setRecipientId] in Hst.
  split; [destruct (connectionStatus pg); try discriminate Hst; reflexivity |].
  split; [exact Hlen |].
  split; [apply sanitize_kept |].
  split.
  - destruct (handleConnect_refs offer now _ st Hlen) as (pg1 & st1 & notice & -> & -> & _).
    cbn [snd]. destruct offer; discriminate.
  - unfold handleConnect. rewrite Hlen, (length_six_not_empty _ Hlen). reflexivity.
Qed.

Lemma connect_enabled_means_valid_witness :
  connectionStatus initialPage = disconnected
  /\ String.length (recipientId (onRecipientChange "100-111" initialPage)) = 6%nat
  /\ forallb isDigit
       (list_ascii_of_string (recipientId (onRecipientChange "100-111" initialPage))) = true
  /\ snd (handleConnect true (Return "offer") 0 (onRecipientChange "100-111" initialPage, ∅))
     <> Some NoticeInvalidId
  /\ handleConnect false (Return "offer") 0 (onRecipientChange "100-111" initialPage, ∅)
     = (onRecipientChange "100-111" initialPage, ∅, Some NoticeInvalidId).
Proof.
  apply (connect_enabled_means_valid "100-111" initialPage (Return "offer") 0 ∅).
  reflexivity.
Defined.

(** X21: a connect attempt whose offer cannot be made reports a connection
    error and shows the page as disconnected, with Connect enabled again,
    but keeps the connection and channel it created in the two refs,
    unclosed.  From then on the page answers no incoming offer: whatever
    snapshots of its own document arrive, nothing is written to the store
    and the status stays disconnected. *)
Theorem failed_connect_blocks_incoming
    (validDescription validCandidate : string -> bool) (createAnswer : string -> string)
    (e : Error) (now : Z) (pg : Page) (st : Signaling.Store)
    (id : string) (snaps : list (option Signaling.SessionDoc)) :
  String.length (recipientId pg) = 6%nat ->
  exists pg1 pc dc,
    handleConnect true (Throw e) now (pg, st) = (pg1, st, Some NoticeConnectionError)
    /\ connectionStatus pg1 = disconnected
    /\ connectDisabled pg1 = false
    /\ peerConnection pg1 = Some pc
    /\ dataChannel pg1 = Some dc
    /\ channels pg1 !! dc = Some ready_connecting
    /\ snd (deliverAllOwn validDescription validCandidate createAnswer id snaps (pg1, st)) = st
    /\ connectionStatus
         (fst (deliverAllOwn validDescription validCandidate createAnswer id snaps (pg1, st)))
       = disconnected
    /\ peerConnection
         (fst (deliverAllOwn validDescription validCandidate createAnswer id snaps (pg1, st)))
       = Some pc.
Proof.
  intros Hlen.
  destruct (handleConnect_refs (Throw e) now pg st Hlen)
    as (pg1 & st1 & notice & Hrun & -> & _ & -> & Hrid & Hstatus & Hpc & Hdc & [c Hc] & Hch & _).
  exists pg1, (fresh (dom (connections pg))), (fresh (dom (channels pg))).
  split; [exact Hrun |]. split; [exact Hstatus |].
  split; [unfold connectDisabled; rewrite Hstatus, Hrid, Hlen; reflexivity |].
  split; [exact Hpc |]. split; [exact Hdc |].
  split; [rewrite Hch; apply lookup_insert_eq |].
  destruct (deliverAllOwn_keeps validDescription validCandidate createAnswer id snaps
              pg1 st _ c Hpc Hc) as (Hstore & Hst & Hpc').
  rewrite Hstore, Hst, Hpc'. auto.
Qed.

Lemma failed_connect_blocks_incoming_witness :
  exists pg1 pc dc,
    handleConnect true (Throw InvalidStateError) 0 (setRecipientId "100111" initialPage, ∅)
    = (pg1, ∅, Some NoticeConnectionError)
    /\ connectionStatus pg1 = disconnected
    /\ connectDisabled pg1 = false
    /\ peerConnection pg1 = Some pc
    /\ dataChannel pg1 = Some dc
    /\ channels pg1 !! dc = Some ready_connecting
    /\ snd (deliverAllOwn (fun _ => true) (fun _ => true) (fun o => o) "482913"
              [sampleSnapshot []] (pg1, ∅)) = ∅
    /\ connectionStatus
         (fst (deliverAllOwn (fun _ => true) (fun _ => true) (fun o => o) "482913"
                 [sampleSnapshot []] (pg1, ∅))) = disconnected
    /\ peerConnection
         (fst (deliverAllOwn (fun _ => true) (fun _ => true) (fun o => o) "482913"
                 [sampleSnapshot []] (pg1, ∅))) = Some pc.
Proof.
  apply (failed_connect_blocks_incoming (fun _ => true) (fun _ => true) (fun o => o)
           InvalidStateError 0 (setRecipientId "100111" initialPage) ∅ "482913"
           [sampleSnapshot []]).
  reflexivity.
Defined.

(** X22: [handleConnect] never closes what the refs held before (they can
    hold something while the page shows disconnected, after a failed
    attempt): the earlier channel and connection are dropped from the refs
    as they are, and since [cleanup] closes only what the refs point to,
    they are not closed by a later [cleanup] either. *)
Theorem connect_leaves_previous_open (offer : Exc string) (now : Z)
    (pg : Page) (st : Signaling.Store)
    (dc0 pc0 : nat) (r0 : ReadyState) (c0 : PeerConnection) :
  String.length (recipientId pg) = 6%nat ->
  dataChannel pg = Some dc0 -> channels pg !! dc0 = Some r0 ->
  peerConnection pg = Some pc0 -> connections pg !! pc0 = Some c0 ->
  exists pg1 st1 notice pg2,
    handleConnect true offer now (pg, st) = (pg1, st1, notice)
    /\ dataChannel pg1 <> Some dc0
    /\ peerConnection pg1 <> Some pc0
    /\ channels pg1 !! dc0 = Some r0
    /\ connections pg1 !! pc0 = Some c0
    /\ cleanup pg1 = Return pg2
    /\ channels pg2 !! dc0 = Some r0
    /\ connections pg2 !! pc0 = Some c0.
Proof.
  intros Hlen Hdc0 Hr0 Hpc0 Hc0.
  destruct (handleConnect_refs offer now pg st Hlen)
    as (pg1 & st1 & notice & Hrun & _ & _ & _ & _ & _ & Hpc & Hdc & _ & Hch & Hother).
  assert (Hdne : fresh (dom (channels pg)) <> dc0).
  { intros Heq. pose proof (fresh_channel pg) as Hf. rewrite Heq, Hr0 in Hf. discriminate. }
  assert (Hpne : fresh (dom (connections pg)) <> pc0).
  { intros Heq. pose proof (fresh_connection pg) as Hf. rewrite Heq, Hc0 in Hf. discriminate. }
  assert (Hr1 : channels pg1 !! dc0 = Some r0)
    by (rewrite Hch, lookup_insert_ne by exact Hdne; exact Hr0).
  assert (Hc1 : connections pg1 !! pc0 = Some c0)
    by (rewrite Hother by congruence; exact Hc0).
  eexists pg1, st1, notice, _.
  split; [exact Hrun |].
  split; [rewrite Hdc; congruence |]. split; [rewrite Hpc; congruence |].
  split; [exact Hr1 |]. split; [exact Hc1 |].
  split; [apply cleanup_returns |].
  cbn [channels connections]. rewrite Hdc, Hpc.
  split; [rewrite lookup_insert_ne by exact Hdne; exact Hr1 |].
  unfold closeConnection. cbn [connections setConnections].
  rewrite lookup_alter_ne by exact Hpne. exact Hc1.
Qed.

Lemma connect_leaves_previous_open_witness :
  exists pg1 st1 notice pg2,
    handleConnect true (Return "offer") 0
      (setConnectionStatus disconnected (setRecipientId "100111" openPage), ∅)
    = (pg1, st1, notice)
    /\ dataChannel pg1 <> Some 0%nat
    /\ peerConnection pg1 <> Some 0%nat
    /\ channels pg1 !! 0%nat = Some ready_open
    /\ connections pg1 !! 0%nat
       = Some {| signalingState := have_local_offer; localDescription := Some "offer";
                 remoteDescription := None; iceCalls := [] |}
    /\ cleanup pg1 = Return pg2
    /\ channels pg2 !! 0%nat = Some ready_open
    /\ connections pg2 !! 0%nat
       = Some {| signalingState := have_local_offer; localDescription := Some "offer";
                 remoteDescription := None; iceCalls := [] |}.
Proof.
  apply (connect_leaves_previous_open (Return "offer") 0
           (setConnectionStatus disconnected (setRecipientId "100111" openPage)) ∅
           0 0 ready_open); reflexivity.
Defined.

(** ** End to end *)

(** X23: once the sender has sent [eof], whatever happened on the way, a
    receiver that got what was sent shows the download button and
    [downloadFile] hands out the file's bytes under the sender's file
    name; the size it displays is the file's size. *)
Theorem download_is_the_sent_file (T : Z) (env : nat -> Reading) (f : File)
    (pg : Page) (n : nat) (s : Sender) (pg' : Page) (rc0 : Receiver) (pgR : Page) :
  transfer T env f pg n = Some (s, pg') ->
  In (Text Eof) (wire (trace s)) ->
  let received := snd (receiveAll (wire (trace s)) (rc0, pgR)) in
  downloadFile received = Some (name f, bytes f)
  /\ downloadButtonShown received = true
  /\ fileSize received = size f.
Proof.
  intros Hrun Heof received. unfold received. clear received.
  rewrite (eof_after_whole_file T env f pg n s pg' Hrun Heof).
  destruct (receive_transfer (name f) (size f) (stream f) rc0 pgR)
    as (_ & _ & _ & Hfile & Hprog & Hmode & Hname & Hsize).
  unfold downloadFile, downloadButtonShown.
  rewrite Hfile, Hprog, Hmode, Hname, Hsize. repeat split.
Qed.

Lemma download_is_the_sent_file_witness :
  exists s pg',
    transfer 65536 sampleEnv sampleFile openPage 1 = Some (s, pg')
    /\ downloadFile (snd (receiveAll (wire (trace s)) (newReceiver, initialPage)))
       = Some ("notes.txt", [Byte.x61; Byte.x62; Byte.x63]).
Proof.
  destruct (transfer 65536 sampleEnv sampleFile openPage 1) as [[s pg'] |] eqn:Hrun;
    [| vm_compute in Hrun; discriminate Hrun].
  exists s, pg'. split; [reflexivity |].
  apply (download_is_the_sent_file 65536 sampleEnv sampleFile openPage 1 s pg'
           newReceiver initialPage Hrun).
  assert (Hw : option_map (fun st => wire (trace (fst st)))
                 (transfer 65536 sampleEnv sampleFile openPage 1)
               = Some [Text (Metadata "notes.txt" 3); Binary [Byte.x61; Byte.x62];
                       Binary [Byte.x63]; Text Eof]) by (vm_compute; reflexivity).
  rewrite Hrun in Hw. cbn in Hw. injection Hw as ->. cbn. auto.
Defined.

Lemma receiving_sticks (msgs : list Payload) :
  forall (rc : Receiver) (pg : Page),
    transferMode pg = receiving ->
    transferMode (snd (receiveAll msgs (rc, pg))) = receiving.
Proof.
  induction msgs as [| m msgs IH]; intros rc pg Hmode; [exact Hmode |].
  rewrite receiveAll_cons.
  destruct (onmessage m (rc, pg)) as [rc1 pg1] eqn:Hstep. apply IH.
  destruct m as [[nm sz | | |] | chunk]; cbn in Hstep; injection Hstep as <- <-;
    cbn; try exact Hmode; reflexivity.
Qed.

(** X24: from the first metadata message on the page is in mode
    [receiving] and no later message takes it out of it: the file input
    stays disabled, so a peer that has started to receive cannot send a
    file over this connection. *)
Theorem receiving_mode_sticks (before after : list Payload) (nm : string) (sz : Z)
    (st : Receiver * Page) :
  let now := snd (receiveAll (before ++ Text (Metadata nm sz) :: after)%list st) in
  transferMode now = receiving /\ fileInputDisabled now = true.
Proof.
  cbn zeta. rewrite receiveAll_app, receiveAll_cons.
  destruct (receiveAll before st) as [rc0 pg0]. cbn [onmessage].
  match goal with
  | |- context [receiveAll after (?r, ?p)] =>
      pose proof (receiving_sticks after r p eq_refl) as Hmode
  end.
  unfold fileInputDisabled. rewrite Hmode. split; [reflexivity | apply orb_true_r].
Qed.

(** X25: [generateId] reaches every id it can return: each number from
    100000 to 999999 is the id of some double of the random source in
    [0, 1), so the ids are exactly the 900000 six-digit numerals without a
    leading zero.  The double chosen lies just below the middle of the
    values that floor to [n]; neither rounding moves it out of them. *)
Theorem every_id_is_generated (n : Z) :
  100000 <= n <= 999999 ->
  exists random : Double,
    inUnitInterval random
    /\ Signaling.generateId random = toString n
    /\ numeral (Signaling.generateId random) = n.
Proof.
  intros Hn.
  set (k := n - 100000).
  set (m := (2 * k + 1) * 2 ^ 53 / 1800000).
  assert (Hm : 1800000 * m <= (2 * k + 1) * 2 ^ 53 < 1800000 * m + 1800000).
  { pose proof (Z.div_mod ((2 * k + 1) * 2 ^ 53) 1800000 ltac:(lia)) as Hdm.
    pose proof (Z.mod_pos_bound ((2 * k + 1) * 2 ^ 53) 1800000 ltac:(lia)) as Hmod.
    fold m in Hdm. lia. }
  assert (H53 : 2 ^ 53 = 9007199254740992) by reflexivity.
  assert (Hm53 : 0 <= m < 2 ^ 53) by (unfold k in *; lia).
  assert (Hone : one = 2 ^ 53 * 2 ^ 1021) by (vm_compute; reflexivity).
  assert (Hgrid : one = 2 ^ 33 * 2 ^ 1041) by (vm_compute; reflexivity).
  assert (Hhalf : one = 2 * (2 ^ 32 * 2 ^ 1041)) by (vm_compute; reflexivity).
  assert (Hstep : 2 ^ 1041 = 2 ^ 20 * 2 ^ 1021) by (vm_compute; reflexivity).
  assert (Hpos : 0 < 2 ^ 1021) by (apply Z.pow_pos_nonneg; lia).
  assert (Htop : 1000000 * one < 2 ^ (1041 + 53)) by (vm_compute; reflexivity).
  exists {| mantissa := m; exponent := -53 |}.
  assert (Hunits : units {| mantissa := m; exponent := -53 |} = m * 2 ^ 1021) by reflexivity.
  split.
  { unfold inUnitInterval. rewrite Hunits. cbn [mantissa exponent].
    split; [exact Hm53 |]. split; [lia |]. rewrite Hone. nia. }
  assert (Hfloor : Math_floor (integerPlus 100000
                     (timesInteger (units {| mantissa := m; exponent := -53 |}) 900000)) = n).
  { rewrite Hunits. unfold Math_floor, integerPlus, timesInteger.
    set (P := round53 (m * 2 ^ 1021 * 900000)).
    assert (HP : k * one <= P <= k * one + 2 ^ 32 * 2 ^ 1041).
    { assert (Hx : k * one <= m * 2 ^ 1021 * 900000 <= k * one + 2 ^ 32 * 2 ^ 1041)
        by (rewrite Hstep, Hone; unfold k in *; nia).
      split.
      - replace (k * one) with ((k * 2 ^ 33) * 2 ^ 1041) by (rewrite Hgrid; ring).
        apply round53_ge; [unfold k in *; lia | rewrite Hgrid in Hx; lia].
      - replace (k * one + 2 ^ 32 * 2 ^ 1041) with ((k * 2 ^ 33 + 2 ^ 32) * 2 ^ 1041)
          by (rewrite Hgrid; ring).
        apply round53_le; [unfold k in *; lia | rewrite Hgrid in Hx; lia]. }
    clearbody P.
    assert (HS : n * one <= round53 (100000 * one + P) <= n * one + 2 ^ 32 * 2 ^ 1041).
    { split.
      - replace (n * one) with ((n * 2 ^ 33) * 2 ^ 1041) by (rewrite Hgrid; ring).
        apply round53_ge; [unfold k in *; lia | rewrite Hgrid in *; unfold k in *; lia].
      - replace (n * one + 2 ^ 32 * 2 ^ 1041) with ((n * 2 ^ 33 + 2 ^ 32) * 2 ^ 1041)
          by (rewrite Hgrid; ring).
        apply round53_le; [unfold k in *; lia | rewrite Hgrid in *; unfold k in *; lia]. }
    set (S := round53 (100000 * one + P)) in *. clearbody S.
    assert (Hu : 0 < one) by (vm_compute; reflexivity).
    apply Z.le_antisymm.
    - assert (S / one < n + 1); [| lia]. apply Z.div_lt_upper_bound; lia.
    - apply Z.div_le_lower_bound; lia. }
  unfold Signaling.generateId. rewrite Hfloor. split; [reflexivity |].
  destruct (toString_digits 5 n) as (_ & _ & _ & _ & _ & _ & Hnum); [| exact Hnum].
  change (10 ^ Z.of_nat 5) with 100000. change (10 ^ Z.of_nat 6) with 1000000. lia.
Qed.

Lemma every_id_is_generated_witness :
  exists random : Double,
    inUnitInterval random
    /\ Signaling.generateId random = toString 482913
    /\ numeral (Signaling.generateId random) = 482913.
Proof. apply (every_id_is_generated 482913). lia. Defined.

Lemma recipient_field_keeps_digits_witness :
  sanitizeRecipientId (sanitizeRecipientId "48-29 13x7") = sanitizeRecipientId "48-29 13x7"
  /\ sanitizeRecipientId (Signaling.generateId {| mantissa := 1; exponent := -1 |})
     = Signaling.generateId {| mantissa := 1; exponent := -1 |}
  /\ String.length
       (sanitizeRecipientId (Signaling.generateId {| mantissa := 1; exponent := -1 |}))
     = 6%nat.
Proof.
  destruct (recipient_field_keeps_digits "48-29 13x7") as (_ & _ & Hidem & Hgen).
  split; [exact Hidem |].
  apply (Hgen {| mantissa := 1; exponent := -1 |}).
  unfold inUnitInterval, units, one. cbn [mantissa exponent]. lia.
Defined.
